(** * pdf_selector: a shallow embedding of [pdfinsert.py] and [pdf_fill/pdf_fill.py]

    The two scripts are orchestration code around PyPDF2 / pypdf and reportlab.
    The embedding keeps the scripts' own logic as it is written (loops, guards,
    try/except/finally blocks, the order of side effects) and makes the
    environment explicit:

    - a Python [str] is a [string] whose characters are code points below 256;
    - a Python [float] is an exact rational ([Q]);
    - the file system is a finite map from paths to file contents, the console
      is a list of events;
    - the PDF library is a small data model (documents, pages, outlines) with
      the failure modes the scripts guard against. *)

From Stdlib Require Import Ascii String QArith.
From stdpp Require Import base option list strings gmap fin_maps sorting pretty.

Set Warnings "-register-all,-clear-no-such-hyp".

Local Open Scope string_scope.
Local Open Scope list_scope.
Local Open Scope Z_scope.

(** ** File names and sort keys *)

Module Names.

(** [\s] of Python's [re] on [str] patterns, for code points below 256. *)
Definition is_space (c : ascii) : bool :=
  let n := N_of_ascii c in
  ((9 <=? n) && (n <=? 13) || (28 <=? n) && (n <=? 32)
   || (n =? 133) || (n =? 160))%N.

(** [\d]: the only decimal digits below 256 are [0-9]. *)
Definition is_digit (c : ascii) : bool :=
  let n := N_of_ascii c in ((48 <=? n) && (n <=? 57))%N.

Definition digit_value (c : ascii) : Z := Z.of_N (N_of_ascii c) - 48.

Fixpoint skip_spaces (s : string) : string :=
  match s with
  | String c r => if is_space c then skip_spaces r else s
  | EmptyString => s
  end.

Fixpoint take_digits (s : string) : list ascii :=
  match s with
  | String c r => if is_digit c then c :: take_digits r else []
  | EmptyString => []
  end.

(** [int(match.group(1))] *)
Definition int_of_digits (ds : list ascii) : Z :=
  fold_left (fun acc d => 10 * acc + digit_value d) ds 0.

(** [re.match(r"^\s*(\d+)", name)] followed by [int(match.group(1))]. *)
Definition numeric_prefix (name : string) : option Z :=
  match take_digits (skip_spaces name) with
  | [] => None
  | ds => Some (int_of_digits ds)
  end.

(** First component of the key: an [int], or [float('inf')]. *)
Inductive rank := Int (n : Z) | Inf.

Definition get_sort_key (name : string) : rank * string :=
  match numeric_prefix name with
  | Some n => (Int n, name)
  | None => (Inf, name)
  end.

Definition rank_ltb (a b : rank) : bool :=
  match a, b with
  | Int m, Int n => m <? n
  | Int _, Inf => true
  | Inf, _ => false
  end.

Definition rank_eqb (a b : rank) : bool :=
  match a, b with
  | Int m, Int n => m =? n
  | Inf, Inf => true
  | _, _ => false
  end.

(** Python's [<] on [str]: lexicographic on code points. *)
Definition str_ltb (s t : string) : bool :=
  match String.compare s t with Lt => true | _ => false end.

Definition str_leb (s t : string) : bool := negb (str_ltb t s).

(** Python's [<] on the 2-tuples: the first components decide unless they
    are equal. *)
Definition key_ltb (k1 k2 : rank * string) : bool :=
  if rank_eqb (fst k1) (fst k2) then str_ltb (snd k1) (snd k2)
  else rank_ltb (fst k1) (fst k2).

(** [list.sort(key=...)] and [sorted(...)] are stable: an element is never
    moved in front of one that is not greater. *)
Section Sort.
Context {A : Type} (ltb : A -> A -> bool).

Fixpoint insert_sorted (x : A) (l : list A) : list A :=
  match l with
  | [] => [x]
  | y :: r => if ltb y x then y :: insert_sorted x r else x :: y :: r
  end.

Definition stable_sort (l : list A) : list A :=
  foldr insert_sorted [] l.
End Sort.

Definition sort_by_key (names : list string) : list string :=
  stable_sort (fun a b => key_ltb (get_sort_key a) (get_sort_key b)) names.

(** [sorted(names)] *)
Definition sorted (names : list string) : list string :=
  stable_sort str_ltb names.

(** [s.startswith(p)] and [s.endswith(sfx)] *)
Definition starts_with (p s : string) : bool := String.prefix p s.

Definition ends_with (sfx s : string) : bool :=
  let n := String.length s in
  let k := String.length sfx in
  (k <=? n)%nat && String.eqb (substring (n - k) k s) sfx.

(** [s.rfind(c)], counting from position [i]. *)
Fixpoint rfind_from (c : ascii) (s : string) (i : nat) (acc : option nat)
  : option nat :=
  match s with
  | EmptyString => acc
  | String d r => rfind_from c r (S i) (if Ascii.eqb d c then Some i else acc)
  end.

Definition rfind (c : ascii) (s : string) : option nat := rfind_from c s 0 None.

(** [Path(name).stem]: the name without its last suffix; a leading or a
    trailing dot does not start a suffix. *)
Definition stem (name : string) : string :=
  match rfind "." name with
  | Some i =>
      if (0 <? i)%nat && (i <? String.length name - 1)%nat
      then substring 0 i name else name
  | None => name
  end.

Fixpoint all_char (c : ascii) (s : string) : bool :=
  match s with
  | EmptyString => true
  | String d r => Ascii.eqb d c && all_char c r
  end.

(** [os.path.splitext(name)[0]] for a name without directory part: the
    last dot starts the extension unless only dots come before it. *)
Definition splitext_root (name : string) : string :=
  match rfind "." name with
  | Some i => if all_char "." (substring 0 i name) then name else substring 0 i name
  | None => name
  end.

(** [s.rstrip('/')] *)
Fixpoint rstrip_slash (s : string) : string :=
  match s with
  | EmptyString => EmptyString
  | String c r =>
      match rstrip_slash r with
      | EmptyString => if Ascii.eqb c "/" then EmptyString else String c EmptyString
      | r' => String c r'
      end
  end.

(** [os.path.basename(p)] and [os.path.dirname(p)] *)
Definition basename (p : string) : string :=
  match rfind "/" p with
  | Some i => substring (S i) (String.length p - S i) p
  | None => p
  end.

Definition dirname (p : string) : string :=
  match rfind "/" p with
  | Some i =>
      let head := substring 0 (S i) p in
      if all_char "/" head then head else rstrip_slash head
  | None => EmptyString
  end.

(** [os.path.join(d, name)] for a relative [name] *)
Definition join (d name : string) : string :=
  if String.eqb d "" then name
  else if ends_with "/" d then d +:+ name
  else d +:+ "/" +:+ name.

End Names.

(** ** The PDF library, as far as the scripts use it *)

Module Pdf.

(** What a page shows.  Input pages carry an opaque content stream; the
    scripts only ever stack, move and scale content and draw text on it. *)
Inductive draw_op :=
| DrawString (x y : Q) (text font : string) (size : Q)
| DrawRightString (x y : Q) (text font : string) (size : Q).

Inductive content :=
| Stream (id : N)
| Blank
| Merged (under over : content)
| Transformed (sx sy tx ty : Q) (c : content)
| Canvas (ops : list draw_op).

(** A page: its media box, its content, and whether its content stream can
    be parsed ([merge_page] and [add_transformation] parse it and raise on a
    malformed one; [add_page] and [write] do not look into it). *)
Record page := Page {
  width : Q;
  height : Q;
  body : content;
  parses : bool
}.

(** An outline entry as stored in a document or built by a writer. *)
Inductive onode := Node (title : string) (target : Z) (children : list onode).

Record document := Document {
  pages : list page;
  outline : list onode
}.

(** What [reader.outline] hands to the scripts: every item is either a
    nested list of items, an entry with a title, a page object and possibly
    a [children] attribute, or an object without those attributes. *)
Inductive src_item :=
| SList (items : list src_item)
| SEntry (title : string) (page_object : Z) (children : list src_item)
| SOther.

(** Modelled from the spec: PyPDF2's reader is not part of the repository;
    the spec's data model gives an OutlineItem a title, a target page
    reference and an ordered sequence of child OutlineItems. *)
Fixpoint read_entry (n : onode) : src_item :=
  match n with
  | Node t p ch => SEntry t p (map read_entry ch)
  end.

Definition reader_outline (d : document) : list src_item :=
  map read_entry (outline d).

(** Modelled from the spec: [reader.get_page_number(page_object)] resolves a
    target to a page index of the document and fails when the target is not
    one of its pages. *)
Definition get_page_number (d : document) (page_object : Z) : option Z :=
  if (0 <=? page_object) && (page_object <? Z.of_nat (length (pages d)))
  then Some page_object else None.

(** [PdfWriter()] *)
Record writer := Writer {
  wpages : list page;
  woutline : list onode
}.

Definition new_writer : writer := Writer [] [].

(** A reference to an outline item of a writer: the child positions from
    the root down to the item. *)
Definition oref := list nat.

Fixpoint children_at (path : oref) (f : list onode) : list onode :=
  match path with
  | [] => f
  | i :: rest =>
      match f !! i with
      | Some (Node _ _ ch) => children_at rest ch
      | None => []
      end
  end.

(** Append the trees [ns] as the last children of the item at [path]. *)
Fixpoint graft (path : oref) (ns : list onode) (f : list onode) : list onode :=
  match path with
  | [] => f ++ ns
  | i :: rest =>
      match f !! i with
      | Some (Node t p ch) => <[i := Node t p (graft rest ns ch)]> f
      | None => f
      end
  end.

(** [writer.add_outline_item(title, page_number, parent=parent)]: the new
    item becomes the last child of [parent] (of the root for [None]) and a
    reference to it is returned. *)
Definition add_outline_item (w : writer) (title : string) (page_number : Z)
    (parent : option oref) : writer * oref :=
  let path := default [] parent in
  (Writer (wpages w) (graft path [Node title page_number []] (woutline w)),
   path ++ [length (children_at path (woutline w))]).

Definition add_page (w : writer) (p : page) : writer :=
  Writer (wpages w ++ [p]) (woutline w).

(** [writer.add_blank_page(width, height)] *)
Definition blank_page (w h : Q) : page := Page w h Blank true.

Inductive exn :=
| FileNotFoundError
| PdfReadError
| ContentStreamError
| ZeroDivisionError
| SameFileError
| IndexError.

(** [page.merge_page(page2)] *)
Definition merge_page (p page2 : page) : page + exn :=
  if parses p && parses page2
  then inl (Page (width p) (height p) (Merged (body p) (body page2)) true)
  else inr ContentStreamError.

(** [page.add_transformation(Transformation().scale(sx, sy).translate(tx, ty))] *)
Definition add_transformation (p : page) (sx sy tx ty : Q) : page + exn :=
  if parses p
  then inl (Page (width p) (height p) (Transformed sx sy tx ty (body p)) true)
  else inr ContentStreamError.

(** What [writer.write(fp)] stores. *)
Definition written (w : writer) : document :=
  Document (wpages w) (woutline w).

(** The title and target of the top-level entries of an outline. *)
Definition top_level (f : list onode) : list (string * Z) :=
  map (fun n => match n with Node t p _ => (t, p) end) f.

End Pdf.

(** ** The environment: files, console, exceptions *)

Module Env.
Import Pdf.

(** A path is a directory and a file name.  The world also records which
    directories exist; a file does not need its directory to be recorded. *)
Definition path : Type := string * string.

Definition path_name (p : path) : string := snd p.

Inductive file :=
| Garbage                      (* bytes that [PdfReader] cannot parse *)
| PdfFile (d : document).

(** One constructor per message the scripts print. *)
Inductive event :=
(* add_nested_outline *)
| WarnBookmarkUnresolved (title : string)
| WarnBookmarkAttribute
(* pdfinsert.add_page_numbers *)
| WarnOddPages (name : string) (total original : nat)
| WarnZeroOriginal (total : nat)
| WarnOverlayFailed (page_no : nat) (name : string)
| InfoAddingOutline (name : string)
| ErrNumbering (input output : path)
| InfoCopiedIntermediate (output : path)
| ErrCopyIntermediate
(* pdfinsert.process_pdf *)
| InfoProcessing (input backup : path)
| WarnEmptyFile (name : string)
| WarnMarginCount (expected found : nat) (name : string)
| InfoDone (output : path)
| ErrNoFinalFile (name : string)
| ErrProcessing (input : path) (e : exn)
| InfoCopiedOriginal (dest : path)
| ErrCopyOriginal
| WarnTempNotRemoved (name : string)
(* merge_pdfs_with_bookmarks *)
| InfoMergeStart (dir : string)
| WarnNothingToMerge (dir : string)
| InfoMergeList (count : nat) (shown : list string)
| InfoReading (idx total : nat) (p : path)
| InfoSkipEmpty (idx total : nat) (p : path)
| InfoOutlineFound
| InfoNoOutline (name : string)
| InfoAddingPages (count : nat)
| InfoMerged (idx total : nat) (name : string) (count : nat) (next : Z)
| ErrMerging (idx total : nat) (p : path) (e : exn)
| ErrNoPagesMerged
| InfoMergeDone (p : path) (merged total : nat) (page_count : Z)
| ErrWriteFinal (p : path)
(* process_all_pdfs *)
| InfoScan (dir : string)
| WarnNoInput (dir : string)
| InfoFound (count : nat)
| InfoSummary (succeeded failed : nat)
| ErrFailedList (names : list string)
| ErrSkipMerge
(* pdf_fill *)
| WarnNoMetadata
| WarnMetadataExhausted (page_no : nat)
| WarnSimplifiedLabel (page_no : nat)
| WarnLabelTooLong (min_size : Q) (text : string)
| ErrNoPdfInDir (dir : string)
| ErrInputMissing (p : path)
| ErrNotPdf
| InfoFoundFiles (count : nat)
| InfoSingleFile (p : path)
| InfoCreatedDir (dir : string)
| InfoWorking (name : string)
| InfoWritten (name : string)
| InfoMerging (count : nat)
| InfoMergedTo (p : path)
| InfoBookmarks (count : nat).

Record world := World {
  files : gmap path file;
  dirs : gset string;
  console : list event
}.

(** Computations that read and change the world and may raise. *)
Definition M (A : Type) : Type := world -> (A + exn) * world.

Definition ret {A} (a : A) : M A := fun w => (inl a, w).

Definition bind {A B} (m : M A) (k : A -> M B) : M B :=
  fun w => match m w with
           | (inl a, w') => k a w'
           | (inr e, w') => (inr e, w')
           end.

#[global] Instance M_ret : MRet M := @ret.
#[global] Instance M_bind : MBind M := fun A B k m => bind m k.

Definition raise {A} (e : exn) : M A := fun w => (inr e, w).

(** [try: m  except Exception as e: h e] *)
Definition try_except {A} (m : M A) (h : exn -> M A) : M A :=
  fun w => match m w with
           | (inr e, w') => h e w'
           | r => r
           end.

(** [try: m  finally: c] *)
Definition try_finally {A} (m : M A) (c : M unit) : M A :=
  fun w => match m w with
           | (r, w') => match c w' with
                        | (inl _, w'') => (r, w'')
                        | (inr e, w'') => (inr e, w'')
                        end
           end.

Definition lift {A} (r : A + exn) : M A := fun w => (r, w).

Definition print (e : event) : M unit :=
  fun w => (inl tt, World (files w) (dirs w) (console w ++ [e])).

Definition exists_ (p : path) : M bool :=
  fun w => (inl (bool_decide (is_Some (files w !! p))), w).

(** [PdfReader(str(p))] *)
Definition PdfReader (p : path) : M document :=
  fun w => match files w !! p with
           | None => (inr FileNotFoundError, w)
           | Some Garbage => (inr PdfReadError, w)
           | Some (PdfFile d) => (inl d, w)
           end.

(** [with open(p, "wb") as fp: writer.write(fp)] *)
Definition write_pdf (p : path) (wr : writer) : M unit :=
  fun w => (inl tt, World (<[p := PdfFile (written wr)]> (files w)) (dirs w) (console w)).

(** [shutil.copy2(src, dst)] *)
Definition copy2 (src dst : path) : M unit :=
  fun w => match files w !! src with
           | None => (inr FileNotFoundError, w)
           | Some f =>
               if decide (src = dst) then (inr SameFileError, w)
               else (inl tt, World (<[dst := f]> (files w)) (dirs w) (console w))
           end.

(** [p.unlink()] / [os.remove(p)] *)
Definition unlink (p : path) : M unit :=
  fun w => match files w !! p with
           | None => (inr FileNotFoundError, w)
           | Some _ => (inl tt, World (delete p (files w)) (dirs w) (console w))
           end.

(** [d.mkdir(parents=True, exist_ok=True)] / [os.makedirs(d)] *)
Definition mkdir (d : string) : M unit :=
  fun w => (inl tt, World (files w) ({[d]} ∪ dirs w) (console w)).

Definition isdir (d : string) : M bool :=
  fun w => (inl (bool_decide (d ∈ dirs w)), w).

(** The names of the files in directory [d], in the order the operating
    system lists them. *)
Definition listdir (d : string) (w : world) : list string :=
  omap (fun kv => if decide (fst (fst kv) = d) then Some (snd (fst kv)) else None)
       (map_to_list (files w)).

(** [d.glob('*.pdf')] *)
Definition glob_pdf (d : string) : M (list path) :=
  fun w => (inl (map (fun n => (d, n))
                     (filter (fun n => Names.ends_with ".pdf" n = true) (listdir d w))), w).

(** [for x in xs: body x] with the loop state passed along. *)
Fixpoint for_each {A S} (xs : list A) (body : A -> S -> M S) (s : S) : M S :=
  match xs with
  | [] => ret s
  | x :: r => body x s ≫= for_each r body
  end.

Definition when (b : bool) (m : M unit) : M unit := if b then m else ret tt.

(** [enumerate(l)] *)
Definition enumerate {A} (l : list A) : list (nat * A) :=
  zip (seq 0 (length l)) l.

End Env.

(** ** pdfinsert.py *)

Module pdfinsert.
Import Pdf Env.

Definition PROJECT_DIR : string := ".".
Definition INPUT_DIR : string := "./pdfs".
Definition OUTPUT_DIR : string := "./output".
Definition BACKUP_DIR : string := "./backup".
Definition MERGED_FILENAME : string := "merged_output.pdf".
Definition MERGED_FILE_PATH : path := (PROJECT_DIR, MERGED_FILENAME).

Definition CM_TO_POINTS : Q := 283464567 # 10000000.
Definition MARGIN_CM : Q := 3 # 2.
Definition TOP_MARGIN_PTS : Q := MARGIN_CM * CM_TO_POINTS.
Definition BOTTOM_MARGIN_PTS : Q := MARGIN_CM * CM_TO_POINTS.

(** *** The bookmark remapper *)

(** [reader] stands for [reader.get_page_number]; [st] is the target
    writer together with the console. *)
Fixpoint add_nested_outline_item (reader : Z -> option Z) (item : src_item)
    (target_parent : option oref) (page_idx_transform_func : Z -> Z)
    (st : writer * list event) : writer * list event :=
  match item with
  | SList items =>
      fold_left (fun st it => add_nested_outline_item reader it target_parent
                                page_idx_transform_func st) items st
  | SEntry title page_object children =>
      match reader page_object with
      | None => (fst st, snd st ++ [WarnBookmarkUnresolved title])
      | Some source_page_index =>
          let target_page_index := page_idx_transform_func source_page_index in
          let '(target_writer, new_item) :=
            add_outline_item (fst st) title target_page_index target_parent in
          fold_left (fun st it => add_nested_outline_item reader it (Some new_item)
                                    page_idx_transform_func st)
                    children (target_writer, snd st)
      end
  | SOther => (fst st, snd st ++ [WarnBookmarkAttribute])
  end.

Definition add_nested_outline (reader : Z -> option Z) (source_items : list src_item)
    (target_writer : writer) (target_parent : option oref)
    (page_idx_transform_func : Z -> Z) (log : list event) : writer * list event :=
  fold_left (fun st it => add_nested_outline_item reader it target_parent
                            page_idx_transform_func st)
            source_items (target_writer, log).

(** The same, on the console of the world. *)
Definition add_nested_outline_io (reader : Z -> option Z) (source_items : list src_item)
    (target_writer : writer) (target_parent : option oref)
    (page_idx_transform_func : Z -> Z) : M writer :=
  fun w =>
    let '(wr, log) := add_nested_outline reader source_items target_writer
                        target_parent page_idx_transform_func (console w) in
    (inl wr, World (files w) (dirs w) log).

(** *** Page numbers *)

Definition page_number_text (current_original_page_num original_total_pages : nat)
  : string :=
  pretty current_original_page_num +:+ " / " +:+ pretty original_total_pages.

Definition margin_bottom : Q := 30.
Definition margin_right : Q := 30.

(** The canvas drawn for the page at index [i]. *)
Definition overlay_page (font_name : string) (font_size : Q)
    (original_total_pages i : nat) (p : page) : page :=
  let current_original_page_num := (i / 2 + 1)%nat in
  let x_coordinate := (width p - margin_right)%Q in
  let y_coordinate := margin_bottom in
  Page (width p) (height p)
       (Canvas [DrawRightString x_coordinate y_coordinate
                  (page_number_text current_original_page_num original_total_pages)
                  font_name font_size])
       true.

Definition stamp_page (font_name : string) (font_size : Q) (input_name : string)
    (original_total_pages : nat) (ip : nat * page) (wr : writer) : M writer :=
  let '(i, p) := ip in
  p' ← try_except
         (lift (merge_page p (overlay_page font_name font_size original_total_pages i p)))
         (fun e => print (WarnOverlayFailed (i + 1) input_name);; ret p);
  ret (add_page wr p').

Definition add_page_numbers (input_pdf output_pdf : path) (font_name : string)
    (font_size : Q) (original_outline_struct : list src_item)
    (outline_source_reader : option document) : M (option path) :=
  try_except
    (reader ← PdfReader input_pdf;
     let total_pages_in_temp_file := length (pages reader) in
     let original_total_pages := (total_pages_in_temp_file / 2)%nat in
     (if negb (total_pages_in_temp_file mod 2 =? 0)%nat
      then print (WarnOddPages (path_name input_pdf) total_pages_in_temp_file
                    original_total_pages)
      else when ((original_total_pages =? 0)%nat && (0 <? total_pages_in_temp_file)%nat)
             (print (WarnZeroOriginal total_pages_in_temp_file)));;
     wr ← for_each (enumerate (pages reader))
            (stamp_page font_name font_size (path_name input_pdf) original_total_pages)
            new_writer;
     wr ← match original_outline_struct, outline_source_reader with
          | _ :: _, Some src =>
              print (InfoAddingOutline (path_name output_pdf));;
              add_nested_outline_io (get_page_number src) original_outline_struct
                wr None (fun orig_idx => orig_idx * 2)
          | _, _ => ret wr
          end;
     write_pdf output_pdf wr;;
     ret (Some output_pdf))
    (fun e =>
       print (ErrNumbering input_pdf output_pdf);;
       try_except
         (copy2 input_pdf output_pdf;;
          print (InfoCopiedIntermediate output_pdf))
         (fun copy_e => print ErrCopyIntermediate);;
       ret None).

(** *** One input file *)

Definition add_margin (original_page : page) : page + exn :=
  let original_width := width original_page in
  let original_height := height original_page in
  let new_height := (original_height + TOP_MARGIN_PTS + BOTTOM_MARGIN_PTS)%Q in
  let new_page_obj := blank_page original_width new_height in
  match merge_page new_page_obj original_page with
  | inl merged => add_transformation merged 1 1 0 BOTTOM_MARGIN_PTS
  | inr e => inr e
  end.

Definition add_blank (page_with_margin : page) (blank_writer : writer) : writer :=
  let blank_writer := add_page blank_writer page_with_margin in
  let w := width page_with_margin in
  add_page blank_writer (blank_page w w).

(** How control leaves the [try] block of [process_pdf]: through the early
    [return None], or at its end with [success] and [output_file]. *)
Inductive exit :=
| Returned (v : option path)
| Completed (success : bool) (output_file : option path).

Definition remove_temp_files (temp_files : list path) : M unit :=
  for_each temp_files
    (fun temp_file _ =>
       there ← exists_ temp_file;
       when there
         (try_except (unlink temp_file)
            (fun e => print (WarnTempNotRemoved (path_name temp_file)))))
    tt.

Definition process_pdf (input_file : path) (output_dir backup_dir : string)
  : M (option path) :=
  let filename := path_name input_file in
  let output_file := (output_dir, filename) in
  let backup_file := (backup_dir, filename) in
  let temp_margin_file := (output_dir, "temp_margin_" +:+ filename) in
  let temp_blank_file := (output_dir, "temp_blank_" +:+ filename) in
  x ← try_finally
        (try_except
           ((* 1. backup *)
            mkdir backup_dir;;
            copy2 input_file backup_file;;
            print (InfoProcessing input_file backup_file);;
            original_input_reader ← PdfReader input_file;
            let original_outline_structure := reader_outline original_input_reader in
            let original_page_count := length (pages original_input_reader) in
            if (original_page_count =? 0)%nat
            then print (WarnEmptyFile filename);; ret (Returned None)
            else
              (* 2. margins *)
              margin_writer ← for_each (pages original_input_reader)
                                (fun p wr => q ← lift (add_margin p); ret (add_page wr q))
                                new_writer;
              mkdir output_dir;;
              write_pdf temp_margin_file margin_writer;;
              (* 3. blank pages *)
              margin_reader ← PdfReader temp_margin_file;
              let pages_with_margins_count := length (pages margin_reader) in
              when (negb (pages_with_margins_count =? original_page_count)%nat)
                (print (WarnMarginCount original_page_count pages_with_margins_count
                          (path_name temp_margin_file)));;
              let blank_writer := foldl (fun wr p => add_blank p wr) new_writer
                                    (pages margin_reader) in
              write_pdf temp_blank_file blank_writer;;
              (* 4. page numbers and bookmarks *)
              processed_output_file ←
                add_page_numbers temp_blank_file output_file "Helvetica" 10
                  original_outline_structure (Some original_input_reader);
              match processed_output_file with
              | Some _ => print (InfoDone output_file);;
                          ret (Completed true (Some output_file))
              | None => print (ErrNoFinalFile filename);;
                        ret (Completed false None)
              end)
           (fun e =>
              print (ErrProcessing input_file e);;
              try_except
                (mkdir output_dir;;
                 let dest_path := (output_dir, filename) in
                 copy2 input_file dest_path;;
                 print (InfoCopiedOriginal dest_path))
                (fun copy_e => print ErrCopyOriginal);;
              ret (Completed false None)))
        (remove_temp_files [temp_margin_file; temp_blank_file]);
  match x with
  | Returned v => ret v
  | Completed success output_file => ret (if success then output_file else None)
  end.

(** *** Merging the per-file outputs *)

Definition sort_paths (ps : list path) : list path :=
  Names.stable_sort
    (fun a b => Names.key_ltb (Names.get_sort_key (path_name a))
                              (Names.get_sort_key (path_name b))) ps.

(** The loop state of the merge: the writer, the page offset and the
    number of files merged so far. *)
Record merge_state := MergeState {
  merged_writer : writer;
  current_page_in_merged_pdf : Z;
  files_merged_count : nat
}.

Definition merge_one (total_files_to_merge : nat) (ip : nat * path)
    (s : merge_state) : M merge_state :=
  let '(idx, processed_pdf_path) := ip in
  try_except
    (print (InfoReading (idx + 1) total_files_to_merge processed_pdf_path);;
     reader_processed ← PdfReader processed_pdf_path;
     let num_pages := length (pages reader_processed) in
     if (num_pages =? 0)%nat
     then print (InfoSkipEmpty (idx + 1) total_files_to_merge processed_pdf_path);;
          ret s
     else
       let bookmark_title := Names.stem (path_name processed_pdf_path) in
       let '(wr, parent_bookmark) :=
         add_outline_item (merged_writer s) bookmark_title
           (current_page_in_merged_pdf s) None in
       let processed_outline_data := reader_outline reader_processed in
       wr ← match processed_outline_data with
            | _ :: _ =>
                print InfoOutlineFound;;
                add_nested_outline_io (get_page_number reader_processed)
                  processed_outline_data wr (Some parent_bookmark)
                  (fun idx_in_processed =>
                     idx_in_processed + current_page_in_merged_pdf s)
            | [] => print (InfoNoOutline (path_name processed_pdf_path));; ret wr
            end;
       print (InfoAddingPages num_pages);;
       let wr := foldl add_page wr (pages reader_processed) in
       let page_increment := num_pages in
       let next := current_page_in_merged_pdf s + Z.of_nat page_increment in
       print (InfoMerged (idx + 1) total_files_to_merge
                (path_name processed_pdf_path) page_increment next);;
       ret (MergeState wr next (files_merged_count s + 1)))
    (fun e =>
       print (ErrMerging (idx + 1) total_files_to_merge processed_pdf_path e);;
       ret s).

Definition merge_pdfs_with_bookmarks (output_dir : string)
    (final_pdf_filename : string) : M unit :=
  print (InfoMergeStart output_dir);;
  found ← glob_pdf output_dir;
  let processed_pdf_files :=
    sort_paths (filter (fun f => Names.starts_with "temp_" (path_name f) = false) found) in
  let pdf_file_names := map path_name processed_pdf_files in
  match processed_pdf_files with
  | [] => print (WarnNothingToMerge output_dir)
  | _ :: _ =>
      let display_limit := 5%nat in
      let files_to_merge_display :=
        take display_limit pdf_file_names
        ++ (if (display_limit <? length pdf_file_names)%nat then ["..."] else []) in
      print (InfoMergeList (length processed_pdf_files) files_to_merge_display);;
      let total_files_to_merge := length processed_pdf_files in
      s ← for_each (enumerate processed_pdf_files) (merge_one total_files_to_merge)
            (MergeState new_writer 0 0);
      if current_page_in_merged_pdf s =? 0
      then print ErrNoPagesMerged
      else
        let final_pdf_path := (PROJECT_DIR, final_pdf_filename) in
        try_except
          (write_pdf final_pdf_path (merged_writer s);;
           print (InfoMergeDone final_pdf_path (files_merged_count s)
                    total_files_to_merge (current_page_in_merged_pdf s)))
          (fun e => print (ErrWriteFinal final_pdf_path))
  end.

(** *** The batch *)

Definition process_one (pdf_file : path) (acc : nat * list string)
  : M (nat * list string) :=
  let '(processed_files_count, failed_files) := acc in
  output_file_path ← process_pdf pdf_file OUTPUT_DIR BACKUP_DIR;
  match output_file_path with
  | Some p =>
      there ← exists_ p;
      ret (if there : bool
           then ((processed_files_count + 1)%nat, failed_files)
           else (processed_files_count, failed_files ++ [path_name pdf_file]))
  | None => ret (processed_files_count, failed_files ++ [path_name pdf_file])
  end.

Definition process_all_pdfs : M unit :=
  mkdir INPUT_DIR;; mkdir OUTPUT_DIR;; mkdir BACKUP_DIR;;
  print (InfoScan INPUT_DIR);;
  pdf_files ← glob_pdf INPUT_DIR;
  match pdf_files with
  | [] => print (WarnNoInput INPUT_DIR)
  | _ :: _ =>
      print (InfoFound (length pdf_files));;
      '(processed_files_count, failed_files) ← for_each pdf_files process_one (0%nat, []);
      print (InfoSummary processed_files_count (length failed_files));;
      when (negb (length failed_files =? 0)%nat) (print (ErrFailedList failed_files));;
      if (0 <? processed_files_count)%nat
      then merge_pdfs_with_bookmarks OUTPUT_DIR MERGED_FILENAME
      else print ErrSkipMerge
  end.

End pdfinsert.

(** ** pdf_fill/pdf_fill.py *)

Module pdf_fill.
Import Pdf Env.

(** reportlab's units and page size *)
Definition inch : Q := 72.
Definition cm : Q := inch / (254 # 100).
Definition mm : Q := cm * (1 # 10).
Definition A4 : Q * Q := (210 * mm, 297 * mm)%Q.

Definition TOP_MARGIN_RATIO : Q := 1 # 10.

Definition Qltb (a b : Q) : bool := negb (Qle_bool b a).

(** A path string of the script names the file [(dirname, basename)]. *)
Definition to_path (s : string) : path := (Names.dirname s, Names.basename s).

(** *** The page transformer *)

(** Lines 57-68: the scale and the vertical offset. *)
Definition placement (original_width original_height : Q) : (Q * Q * Q) + exn :=
  let '(a4_width, a4_height) := A4 in
  if Qeq_bool original_width 0 then inr ZeroDivisionError
  else
    let scale := (a4_width / original_width)%Q in
    let new_height := (original_height * scale)%Q in
    let top_margin := (a4_height * TOP_MARGIN_RATIO)%Q in
    let vertical_offset := (a4_height - new_height - top_margin)%Q in
    inl (scale, new_height, vertical_offset).

Definition resize_and_position_page (p : page) : page + exn :=
  match placement (width p) (height p) with
  | inr e => inr e
  | inl (scale, _, vertical_offset) =>
      match add_transformation p scale scale 0 vertical_offset with
      | inr e => inr e
      | inl q => inl (Page (fst A4) (snd A4) (body q) (parses q))
      end
  end.

Section WithFont.
(** The font registered at import time and reportlab's font metrics. *)
Variable FONT_NAME : string.
Variable stringWidth : string -> string -> Q -> Q.

(** *** The page-number stamper *)

Definition base_font_size : Q := 10.
Definition min_font_size_part1 : Q := 7.
Definition y_position : Q := 7 * mm.
Definition left_margin_part1 : Q := 10 * mm.
Definition right_margin_part2 : Q := 5 * mm.
Definition gap_between_parts : Q := 5 * mm.

(** The [while] loop of lines 173-176; [fuel] bounds its iterations. *)
Fixpoint shrink (fuel : nat) (page_text_part1 : string)
    (max_allowed_width_for_part1 current_font_size_part1 : Q) : Q :=
  match fuel with
  | O => current_font_size_part1
  | S fuel' =>
      let text_width_part1 :=
        stringWidth page_text_part1 FONT_NAME current_font_size_part1 in
      if Qltb max_allowed_width_for_part1 text_width_part1
         && Qltb min_font_size_part1 current_font_size_part1
      then shrink fuel' page_text_part1 max_allowed_width_for_part1
             (current_font_size_part1 - (1 # 2))%Q
      else current_font_size_part1
  end.

(** From 10pt down to 7pt in steps of 0.5pt. *)
Definition shrink_steps : nat := 6.

(** Lines 146-188: the canvas with the label, and the warning if any. *)
Definition draw_label (page_text_part1 page_text_part2 : string)
  : page * list event :=
  let text_width_part2 := stringWidth page_text_part2 FONT_NAME base_font_size in
  let x_position_part2 := (fst A4 - text_width_part2 - right_margin_part2)%Q in
  let '(ops1, log) :=
    if String.eqb page_text_part1 "" then ([], [])
    else
      let max_allowed_width_for_part1 :=
        ((x_position_part2 - gap_between_parts) - left_margin_part1)%Q in
      let current_font_size_part1 :=
        shrink shrink_steps page_text_part1 max_allowed_width_for_part1
          base_font_size in
      let text_width_part1 :=
        stringWidth page_text_part1 FONT_NAME current_font_size_part1 in
      ([DrawString left_margin_part1 y_position page_text_part1 FONT_NAME
          current_font_size_part1],
       if Qltb max_allowed_width_for_part1 text_width_part1
          && Qle_bool current_font_size_part1 min_font_size_part1
       then [WarnLabelTooLong min_font_size_part1 page_text_part1] else [])
  in
  (Page (fst A4) (snd A4)
     (Canvas (ops1 ++ [DrawString x_position_part2 y_position page_text_part2
                         FONT_NAME base_font_size]))
     true,
   log).

(** The metadata cursor of merge mode. *)
Record cursor := Cursor {
  file_info_iter : list (string * nat);
  current_file_name : option string;
  current_file_total_pages : nat;
  current_original_file_global_start_idx : nat
}.

(** The [while] loop of lines 118-125. *)
Fixpoint advance (global_page_idx : nat) (iter : list (string * nat))
    (name : option string) (total start : nat) : cursor * list event :=
  match name with
  | None => (Cursor iter name total start, [])
  | Some _ =>
      if (start + total <=? global_page_idx)%nat
      then
        match iter with
        | [] => (Cursor [] None 0 (start + total),
                 [WarnMetadataExhausted (global_page_idx + 1)])
        | (n, c) :: rest => advance global_page_idx rest (Some n) c (start + total)
        end
      else (Cursor iter name total start, [])
  end.

Definition part2_text (global_page_idx total_global_pages : nat) : string :=
  "[ " +:+ pretty (global_page_idx + 1)%nat +:+ "/" +:+ pretty total_global_pages
  +:+ " ]".

Definition part1_text (name : string) (page_in_original_file total : nat) : string :=
  "[ " +:+ name +:+ " " +:+ pretty page_in_original_file +:+ "/" +:+ pretty total
  +:+ " ]".

(** One round of the [for] loop of lines 113-195. *)
Definition number_page (merge_mode : bool) (total_global_pages : nat)
    (global_page_idx : nat) (s : cursor * writer) : M (cursor * writer) :=
  let '(c, wr) := s in
  let '(c, warn) :=
    if merge_mode
    then advance global_page_idx (file_info_iter c) (current_file_name c)
           (current_file_total_pages c) (current_original_file_global_start_idx c)
    else (c, []) in
  for_each warn (fun e _ => print e) tt;;
  let page_in_original_file :=
    if merge_mode
    then match current_file_name c with
         | Some _ => (global_page_idx - current_original_file_global_start_idx c + 1)%nat
         | None => (global_page_idx + 1)%nat
         end
    else (global_page_idx + 1)%nat in
  let page_text_part2 := part2_text global_page_idx total_global_pages in
  page_text_part1 ←
    match current_file_name c with
    | Some name =>
        if String.eqb name "" || (current_file_total_pages c =? 0)%nat
        then print (WarnSimplifiedLabel (global_page_idx + 1));; ret ""
        else ret (part1_text name page_in_original_file (current_file_total_pages c))
    | None => print (WarnSimplifiedLabel (global_page_idx + 1));; ret ""
    end;
  let '(watermark_page, log) := draw_label page_text_part1 page_text_part2 in
  for_each log (fun e _ => print e) tt;;
  match wpages wr !! global_page_idx with
  | None => raise IndexError
  | Some page_to_modify =>
      merged ← lift (merge_page page_to_modify watermark_page);
      ret (c, Writer (<[global_page_idx := merged]> (wpages wr)) (woutline wr))
  end.

Definition add_page_numbers (wr : writer) (total_global_pages : nat)
    (input_files_metadata : list (string * nat)) (single_file_name : string)
  : M writer :=
  match input_files_metadata with
  | (name, count) :: rest =>
      s ← for_each (seq 0 total_global_pages) (number_page true total_global_pages)
            (Cursor rest (Some name) count 0, wr);
      ret (snd s)
  | [] =>
      if String.eqb single_file_name ""
      then print WarnNoMetadata;; ret wr
      else
        s ← for_each (seq 0 total_global_pages) (number_page false total_global_pages)
              (Cursor [] (Some single_file_name) total_global_pages 0, wr);
        ret (snd s)
  end.

(** *** One file *)

Definition base_name_of (p : string) : string :=
  Names.splitext_root (Names.basename p).

Definition process_pdf (input_path output_path : string) (add_nums : bool)
  : M string :=
  reader ← PdfReader (to_path input_path);
  wr ← for_each (pages reader)
         (fun p wr => modified_page ← lift (resize_and_position_page p);
                      ret (add_page wr modified_page))
         new_writer;
  wr ← (if add_nums
        then add_page_numbers wr (length (pages reader)) [] (base_name_of input_path)
        else ret wr);
  write_pdf (to_path output_path) wr;;
  ret output_path.

(** *** Merging *)

(** The locals of [merge_pdfs] that its first loop fills. *)
Record prepared := Prepared {
  total_pages : nat;
  page_counts : list nat;
  processed_files : list string
}.

(** A loop whose state survives an exception, as the locals of a Python
    function do: the state reached is returned along with the error. *)
Fixpoint for_each_keep {A S} (xs : list A)
    (body : A -> S -> world -> (S * option exn) * world)
    (s : S) (w : world) : (S * option exn) * world :=
  match xs with
  | [] => ((s, None), w)
  | x :: r =>
      match body x s w with
      | ((s', None), w') => for_each_keep r body s' w'
      | stopped => stopped
      end
  end.

(** One round of the loop of lines 227-235. *)
Definition prepare_one (pdf_file : string) (s : prepared)
  : world -> (prepared * option exn) * world :=
  fun w =>
    let tmp_output := "tmp_" +:+ Names.basename pdf_file in
    match process_pdf pdf_file tmp_output false w with
    | (inr e, w1) => ((s, Some e), w1)
    | (inl _, w1) =>
        let s1 := Prepared (total_pages s) (page_counts s)
                    (processed_files s ++ [tmp_output]) in
        match PdfReader (to_path tmp_output) w1 with
        | (inr e, w2) => ((s1, Some e), w2)
        | (inl reader_temp, w2) =>
            let page_count := length (pages reader_temp) in
            ((Prepared (total_pages s + page_count)
                (page_counts s ++ [page_count]) (processed_files s1), None), w2)
        end
    end.

(** One round of the loop of lines 239-247. *)
Definition append_file (input_files : list string) (counts : list nat)
    (ip : nat * string) (s : writer * Z) : M (writer * Z) :=
  let '(i, processed_file_path) := ip in
  let '(wr, current_page) := s in
  match input_files !! i with
  | None => raise IndexError
  | Some input_file =>
      let bookmark_name := base_name_of input_file in
      let wr := fst (add_outline_item wr bookmark_name current_page None) in
      reader_processed ← PdfReader (to_path processed_file_path);
      let wr := foldl add_page wr (pages reader_processed) in
      match counts !! i with
      | None => raise IndexError
      | Some count => ret (wr, current_page + Z.of_nat count)
      end
  end.

Definition remove_processed (to_remove : list string) : M unit :=
  for_each to_remove
    (fun pf_path _ =>
       there ← exists_ (to_path pf_path);
       when there
         (try_except (unlink (to_path pf_path))
            (fun e => print (WarnTempNotRemoved pf_path))))
    tt.

Definition merge_pdfs (input_files : list string) (output_path : string) : M unit :=
  fun w =>
    let '((prep, err), w1) :=
      for_each_keep input_files prepare_one (Prepared 0 [] []) w in
    let '(r, w2) :=
      match err with
      | Some e => (inr e, w1)
      | None =>
          (s ← for_each (enumerate (processed_files prep))
                 (append_file input_files (page_counts prep)) (new_writer, 0);
           let files_metadata :=
             zip (map base_name_of input_files) (page_counts prep) in
           wr ← add_page_numbers (fst s) (total_pages prep) files_metadata "";
           write_pdf (to_path output_path) wr) w1
      end in
    (* finally *)
    match remove_processed (processed_files prep) w2 with
    | (inl _, w3) => (r, w3)
    | (inr e, w3) => (inr e, w3)
    end.

(** *** The command line *)

Record arguments := Arguments {
  input : string;
  output : option string;
  no_merge : bool
}.

Definition path_exists (s : string) : M bool :=
  d ← isdir (Names.rstrip_slash s);
  f ← exists_ (to_path s);
  ret (d || f).

(** [sorted(glob.glob(os.path.join(d, "*.pdf")))]; [glob] leaves out
    names that start with a dot. *)
Definition sorted_glob (d : string) : M (list string) :=
  fun w =>
    (inl (Names.sorted
            (map (Names.join d)
               (filter (fun n => Names.ends_with ".pdf" n = true
                                 /\ Names.starts_with "." n = false)
                  (listdir (Names.rstrip_slash d) w)))), w).

(** Lines 279-293. *)
Definition find_input_files (args : arguments) : M (option (list string)) :=
  is_dir ← isdir (Names.rstrip_slash (input args));
  if is_dir : bool
  then
    input_files ← sorted_glob (input args);
    match input_files with
    | [] => print (ErrNoPdfInDir (input args));; ret None
    | _ :: _ => print (InfoFoundFiles (length input_files));; ret (Some input_files)
    end
  else
    there ← exists_ (to_path (input args));
    if negb there then print (ErrInputMissing (to_path (input args)));; ret None
    else if negb (Names.ends_with ".pdf" (input args)) then print ErrNotPdf;; ret None
    else print (InfoSingleFile (to_path (input args)));; ret (Some [input args]).

Definition processed_name (input_file : string) : string :=
  base_name_of input_file +:+ "_processed.pdf".

Definition main (args : arguments) : M unit :=
  found ← find_input_files args;
  match found with
  | None => ret tt
  | Some input_files =>
      let single := (length input_files =? 1)%nat in
      let output_path :=
        match output args with
        | None =>
            if single && negb (no_merge args)
            then "./output/" +:+ processed_name (default "" (head input_files))
            else "./output/"
        | Some o => o
        end in
      let output_dir :=
        if Names.ends_with ".pdf" output_path
        then Names.dirname output_path else output_path in
      there ← path_exists output_dir;
      when (negb (String.eqb output_dir "") && negb there)
        (mkdir (Names.rstrip_slash output_dir);; print (InfoCreatedDir output_dir));;
      if no_merge args || single
      then
        for_each input_files
          (fun input_file _ =>
             let output_file :=
               if Names.ends_with "/" output_path
               then Names.join output_path (processed_name input_file)
               else if single then output_path
               else Names.rstrip_slash output_path +:+ "/"
                    +:+ processed_name input_file in
             print (InfoWorking (Names.basename input_file));;
             process_pdf input_file output_file true;;
             print (InfoWritten (Names.basename output_file)))
          tt
      else
        let output_file :=
          if Names.ends_with "/" output_path
          then let folder_name := Names.basename (Names.rstrip_slash (input args)) in
               Names.join output_path (folder_name +:+ "_merged.pdf")
          else output_path in
        print (InfoMerging (length input_files));;
        merge_pdfs input_files output_file;;
        print (InfoMergedTo (to_path output_file));;
        print (InfoBookmarks (length input_files))
  end.

End WithFont.
End pdf_fill.

Module Demo.
Import Pdf Env.

Definition pg (id : N) : page := Page 612 792 (Stream id) true.
Definition bad_pg (id : N) : page := Page 612 792 (Stream id) false.

Definition doc1 : document := Document [pg 1; pg 2] [Node "Intro" 0 [Node "Sub" 1 []]].
Definition doc2 : document := Document [pg 3] [].
Definition doc_bad : document := Document [bad_pg 4] [].

Definition fs0 : gmap path file :=
  <[ (pdfinsert.INPUT_DIR, "2-b.pdf") := PdfFile doc2 ]>
  (<[ (pdfinsert.INPUT_DIR, "10-a.pdf") := PdfFile doc1 ]>
  (<[ (pdfinsert.INPUT_DIR, "3-c.pdf") := PdfFile doc_bad ]> ∅)).

(** A directory for [pdf_fill], with the names of the spec's example. *)
Definition reports : world :=
  World (<[ ("./PDFS", "2-report.pdf") := PdfFile doc2 ]>
         (<[ ("./PDFS", "10-report.pdf") := PdfFile doc1 ]>
         (<[ ("./PDFS", "1-report.pdf") := PdfFile doc2 ]> ∅)))
        {[ "./PDFS" ]} [].

(** Font metrics for the examples: every glyph is 0.6 em wide. *)
Definition demo_width (text font : string) (size : Q) : Q :=
  (size * (6 # 10) * inject_Z (Z.of_nat (String.length text)))%Q.
End Demo.

(** * Definitions used to state the properties *)

Module Remap.
Import Pdf Env.

(** The walk as the spec words it, as a function from trees to trees: an
    entry whose page resolves becomes an entry at the mapped index with its
    remapped children beneath it; an entry whose page does not resolve is
    left out; the entries of a nested list are taken in place. *)
Fixpoint remap_item (reader : Z -> option Z) (page_index_map : Z -> Z)
    (item : src_item) : list onode :=
  match item with
  | SList items => concat (map (remap_item reader page_index_map) items)
  | SEntry title page_object children =>
      match reader page_object with
      | None => []
      | Some i =>
          [Node title (page_index_map i)
             (concat (map (remap_item reader page_index_map) children))]
      end
  | SOther => []
  end.

Definition remap (reader : Z -> option Z) (page_index_map : Z -> Z)
    (items : list src_item) : list onode :=
  concat (map (remap_item reader page_index_map) items).

(** The diagnostics of the walk, in the order of the walk. *)
Fixpoint diagnostics_item (reader : Z -> option Z) (item : src_item) : list event :=
  match item with
  | SList items => concat (map (diagnostics_item reader) items)
  | SEntry title page_object children =>
      match reader page_object with
      | None => [WarnBookmarkUnresolved title]
      | Some _ => concat (map (diagnostics_item reader) children)
      end
  | SOther => [WarnBookmarkAttribute]
  end.

Definition diagnostics (reader : Z -> option Z) (items : list src_item) : list event :=
  concat (map (diagnostics_item reader) items).

(** [path] leads to an item of the outline [f] (the empty path to its root). *)
Fixpoint valid_ref (path : oref) (f : list onode) : Prop :=
  match path with
  | [] => True
  | i :: rest =>
      match f !! i with
      | Some (Node _ _ ch) => valid_ref rest ch
      | None => False
      end
  end.

(** The titles of all entries of an outline, at every depth. *)
Fixpoint titles_of (n : onode) : list string :=
  match n with
  | Node t _ ch => t :: concat (map titles_of ch)
  end.

Definition all_titles (f : list onode) : list string := concat (map titles_of f).

End Remap.

Module Spec.
Import Pdf Env.

(** The page at index [i] after stamping: with the overlay merged in, or as
    it was when the merge fails. *)
Definition stamped (font_name : string) (font_size : Q) (original_total_pages : nat)
    (i : nat) (p : page) : page :=
  match merge_page p (pdfinsert.overlay_page font_name font_size original_total_pages i p) with
  | inl q => q
  | inr _ => p
  end.

Fixpoint stamped_from (font_name : string) (font_size : Q) (original_total_pages : nat)
    (k : nat) (ps : list page) : list page :=
  match ps with
  | [] => []
  | p :: r => stamped font_name font_size original_total_pages k p
              :: stamped_from font_name font_size original_total_pages (S k) r
  end.

Fixpoint overlay_warnings (name : string) (k : nat) (ps : list page) : list event :=
  match ps with
  | [] => []
  | p :: r => (if parses p then [] else [WarnOverlayFailed (k + 1) name])
              ++ overlay_warnings name (S k) r
  end.

(** What [pdfinsert.add_page_numbers] writes for the readable document [d],
    and what it prints on the way. *)
Definition numbered_outline (items : list src_item) (src : option document)
  : list onode :=
  match items, src with
  | _ :: _, Some s => Remap.remap (get_page_number s) (fun i => i * 2) items
  | _, _ => []
  end.

Definition numbered (font_name : string) (font_size : Q) (items : list src_item)
    (src : option document) (d : document) : document :=
  Document (stamped_from font_name font_size (length (pages d) / 2) 0 (pages d))
           (numbered_outline items src).

Definition parity_warning (name : string) (total : nat) : list event :=
  if negb (total mod 2 =? 0)%nat then [WarnOddPages name total (total / 2)]
  else if ((total / 2 =? 0)%nat && (0 <? total)%nat) then [WarnZeroOriginal total]
  else [].

Definition numbering_log (input_pdf output_pdf : path) (items : list src_item)
    (src : option document) (d : document) : list event :=
  parity_warning (path_name input_pdf) (length (pages d))
  ++ overlay_warnings (path_name input_pdf) 0 (pages d)
  ++ match items, src with
     | _ :: _, Some s =>
         InfoAddingOutline (path_name output_pdf)
         :: Remap.diagnostics (get_page_number s) items
     | _, _ => []
     end.
End Spec.

Module PerFile.
Import Pdf Env.

(** A page with the margins of step 2, and the pages of step 3. *)
Definition with_margin (p : page) : page :=
  Page (width p) (height p + pdfinsert.TOP_MARGIN_PTS + pdfinsert.BOTTOM_MARGIN_PTS)%Q
       (Transformed 1 1 0 pdfinsert.BOTTOM_MARGIN_PTS (Merged Blank (body p))) true.

Definition with_blanks (ps : list page) : list page :=
  concat (map (fun p => [p; blank_page (width p) (width p)]) ps).

Definition intermediate (d : document) : document :=
  Document (with_blanks (map with_margin (pages d))) [].

(** The per-file output for a document that goes through all four steps. *)
Definition processed (d : document) : document :=
  Spec.numbered "Helvetica" 10 (reader_outline d) (Some d) (intermediate d).

(** [d] goes through: it has pages and the content of each can be parsed. *)
Definition processable (d : document) : Prop :=
  pages d <> [] /\ Forall (fun p => parses p = true) (pages d).

End PerFile.

Module Merged.
Import Pdf Env.

(** What one file contributes to the merge: nothing if it cannot be read or
    has no pages; otherwise its pages, and a top-level entry with its own
    outline beneath it, shifted by the current offset. *)
Definition merge_step (fs : gmap path file) (s : pdfinsert.merge_state) (p : path)
  : pdfinsert.merge_state :=
  match fs !! p with
  | Some (PdfFile d) =>
      if (length (pages d) =? 0)%nat then s
      else
        let cur := pdfinsert.current_page_in_merged_pdf s in
        pdfinsert.MergeState
          (Writer (wpages (pdfinsert.merged_writer s) ++ pages d)
             (woutline (pdfinsert.merged_writer s)
              ++ [Node (Names.stem (path_name p)) cur
                    (Remap.remap (get_page_number d) (fun i => i + cur)
                       (reader_outline d))]))
          (cur + Z.of_nat (length (pages d)))
          (pdfinsert.files_merged_count s + 1)
  | _ => s
  end.

(** The files the merge step considers, in merge order. *)
Definition candidates (output_dir : string) (w : world) : list path :=
  pdfinsert.sort_paths
    (filter (fun f => Names.starts_with "temp_" (path_name f) = false)
       (map (fun n => (output_dir, n))
          (filter (fun n => Names.ends_with ".pdf" n = true) (listdir output_dir w)))).

Definition merged (output_dir : string) (w : world) : pdfinsert.merge_state :=
  foldl (merge_step (files w)) (pdfinsert.MergeState new_writer 0 0)
    (candidates output_dir w).

(** The file system after the merge, and the last message of the merge. *)
Definition files_after (output_dir final_pdf_filename : string) (w : world)
  : gmap path file :=
  match candidates output_dir w with
  | [] => files w
  | _ :: _ =>
      let s := merged output_dir w in
      if pdfinsert.current_page_in_merged_pdf s =? 0 then files w
      else <[(pdfinsert.PROJECT_DIR, final_pdf_filename)
             := PdfFile (written (pdfinsert.merged_writer s))]> (files w)
  end.

Definition last_message (output_dir final_pdf_filename : string) (w : world) : event :=
  match candidates output_dir w with
  | [] => WarnNothingToMerge output_dir
  | _ :: _ =>
      let s := merged output_dir w in
      if pdfinsert.current_page_in_merged_pdf s =? 0 then ErrNoPagesMerged
      else InfoMergeDone (pdfinsert.PROJECT_DIR, final_pdf_filename)
             (pdfinsert.files_merged_count s) (length (candidates output_dir w))
             (pdfinsert.current_page_in_merged_pdf s)
  end.

(** The first-page offsets of the documents [ds] merged from offset [k]. *)
Fixpoint offsets (k : Z) (ds : list document) : list Z :=
  match ds with
  | [] => []
  | d :: r => k :: offsets (k + Z.of_nat (length (pages d))) r
  end.

End Merged.

Module Filled.
Import Pdf Env.

(** A page that [resize_and_position_page] accepts. *)
Definition fits (p : page) : Prop := Qeq_bool (width p) 0 = false /\ parses p = true.

Definition resized (p : page) : page :=
  match pdf_fill.resize_and_position_page p with
  | inl q => q
  | inr _ => p
  end.




(** The outline [merge_pdfs] builds: one childless entry per input file. *)
Definition entries (inputs : list string) (offs : list Z) : list onode :=
  zip_with (fun f off => Node (pdf_fill.base_name_of f) off []) inputs offs.

End Filled.

Module Batch.
Import Pdf Env.

(** The three ways [process_pdf] deals with an input file that exists. *)
Definition succeeds (f : file) : bool :=
  match f with
  | PdfFile d => negb (length (pages d) =? 0)%nat && forallb parses (pages d)
  | Garbage => false
  end.

Definition raises (f : file) : option exn :=
  match f with
  | Garbage => Some PdfReadError
  | PdfFile d =>
      if negb (length (pages d) =? 0)%nat && negb (forallb parses (pages d))
      then Some ContentStreamError else None
  end.

(** What ends up at the output path: the processed document, the fallback
    copy of the original, or nothing for a file without pages. *)
Definition output_of (f : file) : option file :=
  match f with
  | PdfFile d =>
      if (length (pages d) =? 0)%nat then None
      else if forallb parses (pages d) then Some (PdfFile (PerFile.processed d))
      else Some f
  | Garbage => Some Garbage
  end.

(** The files after [process_pdf] has dealt with the input named [n]. *)
Definition step (fs : gmap path file) (n : string) : gmap path file :=
  match fs !! (pdfinsert.INPUT_DIR, n) with
  | Some f =>
      let with_backup := <[(pdfinsert.BACKUP_DIR, n) := f]> fs in
      delete (pdfinsert.OUTPUT_DIR, "temp_blank_" +:+ n)
        (delete (pdfinsert.OUTPUT_DIR, "temp_margin_" +:+ n)
           (match output_of f with
            | Some o => <[(pdfinsert.OUTPUT_DIR, n) := o]> with_backup
            | None => with_backup
            end))
  | None => fs
  end.

(** The tally of the loop. *)
Definition tally (fs : gmap path file) (acc : nat * list string) (n : string)
  : nat * list string :=
  match fs !! (pdfinsert.INPUT_DIR, n) with
  | Some f => if succeeds f then ((fst acc + 1)%nat, snd acc) else (fst acc, snd acc ++ [n])
  | None => (fst acc, snd acc ++ [n])
  end.

End Batch.

(** ** The shrink loop of the two-segment label *)

Section ShrinkLoop.
Import pdf_fill.
Variable FONT_NAME : string.
Variable stringWidth : string -> string -> Q -> Q.

(** The font size after [k] steps of 0.5pt. *)
Fixpoint steps_down (k : nat) (size : Q) : Q :=
  match k with
  | O => size
  | S k' => steps_down k' (size - (1 # 2))%Q
  end.

(** The loop guard: the text is too wide and the size is above the floor. *)
Definition must_shrink (text : string) (max_allowed size : Q) : Prop :=
  (max_allowed < stringWidth text FONT_NAME size)%Q /\ (min_font_size_part1 < size)%Q.

End ShrinkLoop.

(** ** Footprints of the computations on the file store *)

Section Footprints.
Import Pdf Env.

Definition page_count (d : document) : nat := length (pages d).

(** A computation that leaves the files as they are. *)
Definition same_files {A} (m : M A) : Prop :=
  forall w, files (snd (m w)) = files w.

(** A computation that writes one PDF file at [p] when it returns and
    nothing when it raises. *)
Definition writes_at {A} (p : path) (m : M A) : Prop :=
  forall w,
    match m w with
    | (inl _, w') => exists d, files w' = <[p := PdfFile d]> (files w)
    | (inr _, w') => files w' = files w
    end.

(** The paths [process_pdf] works with are pairwise different when the input
    lies outside the output and backup directories. *)
Definition separate_dirs (input_file : path) (output_dir backup_dir : string) : Prop :=
  fst input_file <> output_dir /\ fst input_file <> backup_dir
  /\ output_dir <> backup_dir.

Definition tmp_of (pdf_file : string) : string := "tmp_" +:+ Names.basename pdf_file.

(** Outside the registered temporary files the first loop of [merge_pdfs]
    changes nothing. *)
Definition only_registered (fs0 : gmap path file) (s : pdf_fill.prepared) (w : world)
  : Prop :=
  forall p, p ∉ map pdf_fill.to_path (pdf_fill.processed_files s) ->
            files w !! p = fs0 !! p.

End Footprints.


(** ** Source outlines *)

Module Source.
Import Pdf Env.

(** The titles of the entries of a source outline, in the order of the
    walk: an entry, then the entries beneath it. *)
Fixpoint entry_titles (item : src_item) : list string :=
  match item with
  | SList items => concat (map entry_titles items)
  | SEntry title _ children => title :: concat (map entry_titles children)
  | SOther => []
  end.

Definition titles (items : list src_item) : list string :=
  concat (map entry_titles items).

(** A source outline without its nested lists: the entries of a list
    stand where the list stood, at every depth. *)
Fixpoint flatten_item (item : src_item) : list src_item :=
  match item with
  | SList items => concat (map flatten_item items)
  | SEntry title page_object children =>
      [SEntry title page_object (concat (map flatten_item children))]
  | SOther => [SOther]
  end.

Definition flatten (items : list src_item) : list src_item :=
  concat (map flatten_item items).

(** An outline with every target sent through [f]. *)
Fixpoint retarget (f : Z -> Z) (n : onode) : onode :=
  match n with
  | Node t p ch => Node t (f p) (map (retarget f) ch)
  end.

(** Every entry of the outline, at every depth, targets one of the
    [page_count] pages. *)
Fixpoint targets_in_range (page_count : nat) (n : onode) : Prop :=
  match n with
  | Node _ p ch =>
      (0 <= p < Z.of_nat page_count)
      /\ foldr (fun c acc => targets_in_range page_count c /\ acc) True ch
  end.

End Source.

(** ** What the files of the output directory contribute to the merge *)

Module Candidate.
Import Pdf Env.

(** The document a candidate of the merge contributes: none when the file
    cannot be read or has no pages. *)
Definition usable (fs : gmap path file) (p : path) : option document :=
  match fs !! p with
  | Some (PdfFile d) => if (length (pages d) =? 0)%nat then None else Some d
  | _ => None
  end.

(** The top-level entries for the files [pds] merged from page [k] on: the
    stem of the file name, the first page of the file in the merged
    document, and beneath it the file's own outline moved by that offset. *)
Fixpoint entries (k : Z) (pds : list (path * document)) : list onode :=
  match pds with
  | [] => []
  | (p, d) :: r =>
      Node (Names.stem (path_name p)) k
        (Remap.remap (get_page_number d) (fun i => i + k) (reader_outline d))
      :: entries (k + Z.of_nat (length (pages d))) r
  end.

End Candidate.

(** An output directory with a file that cannot be read. *)
Definition output_with_garbage : Env.world :=
  Env.World (<[ (pdfinsert.OUTPUT_DIR, "2-b.pdf") := Env.PdfFile Demo.doc2 ]>
             (<[ (pdfinsert.OUTPUT_DIR, "10-c.pdf") := Env.Garbage ]>
              (<[ (pdfinsert.OUTPUT_DIR, "1-a.pdf") := Env.PdfFile Demo.doc1 ]> ∅)))
            ∅ [].

(** A batch of two files that go through. *)
Definition good_batch : Env.world :=
  Env.World (<[ (pdfinsert.INPUT_DIR, "2-b.pdf") := Env.PdfFile Demo.doc2 ]>
             (<[ (pdfinsert.INPUT_DIR, "10-a.pdf") := Env.PdfFile Demo.doc1 ]> ∅))
            ∅ [].

(** ** The labels of [pdf_fill] *)

Module Label.
Import Pdf Env.

(** The file that holds page [g] of the merged document according to the
    metadata: its name, the number of the page within the file, counted from
    1, and the page count of the file. *)
Fixpoint locate (metadata : list (string * nat)) (g : nat)
  : option (string * nat * nat) :=
  match metadata with
  | [] => None
  | (name, count) :: rest =>
      if (g <? count)%nat then Some (name, (g + 1)%nat, count)
      else locate rest (g - count)
  end.

(** The first segment of the label of page [g] in merge mode. *)
Definition merge_part1 (metadata : list (string * nat)) (g : nat) : string :=
  match locate metadata g with
  | Some (name, j, count) => pdf_fill.part1_text name j count
  | None => ""
  end.

Section WithFont.
Variable FONT_NAME : string.
Variable stringWidth : string -> string -> Q -> Q.

(** Page [g] with its label merged in. *)
Definition stamped (part1 : nat -> string) (total g : nat) (p : page) : page :=
  Page (width p) (height p)
    (Merged (body p)
       (body (fst (pdf_fill.draw_label FONT_NAME stringWidth (part1 g)
                     (pdf_fill.part2_text g total)))))
    true.

Fixpoint stamped_from (part1 : nat -> string) (total k : nat) (ps : list page)
  : list page :=
  match ps with
  | [] => []
  | p :: r => stamped part1 total k p :: stamped_from part1 total (S k) r
  end.

(** The warnings about labels that do not fit, page by page. *)
Fixpoint warnings_from (part1 : nat -> string) (total k : nat) (ps : list page)
  : list event :=
  match ps with
  | [] => []
  | p :: r =>
      snd (pdf_fill.draw_label FONT_NAME stringWidth (part1 k)
             (pdf_fill.part2_text k total))
      ++ warnings_from part1 total (S k) r
  end.

End WithFont.
End Label.

(** ** The files of [pdf_fill] with [--no-merge] *)

Module Separate.
Import Pdf Env.

Section WithFont.
Variable FONT_NAME : string.
Variable stringWidth : string -> string -> Q -> Q.

(** The document [process_pdf] writes for [d] with page numbers under the
    name [name]. *)
Definition numbered (name : string) (d : document) : document :=
  let n := length (pages d) in
  Document (Label.stamped_from FONT_NAME stringWidth
              (fun g => pdf_fill.part1_text name (g + 1)%nat n) n 0
              (map Filled.resized (pages d))) [].

(** Where the loop of [main] writes the output of [input_file] when the
    output path is the default directory. *)
Definition output_of (input_file : string) : path :=
  ("./output", pdf_fill.processed_name input_file).

(** The files after the loop of [main] over [inputs]. *)
Definition written (fs : gmap path file) (inputs : list string) (ds : list document)
  : gmap path file :=
  foldl (fun m fd => <[output_of (fst fd)
                       := PdfFile (numbered (pdf_fill.base_name_of (fst fd)) (snd fd))]> m)
        fs (zip inputs ds).

End WithFont.
End Separate.

(** Unfolds the monad of [Env] in a goal. *)
Ltac run :=
  cbv beta iota zeta delta
    [mbind Env.M_bind Env.bind mret Env.M_ret Env.ret Env.raise Env.try_except
     Env.try_finally Env.lift Env.print Env.when
     Env.exists_ Env.mkdir Env.isdir Env.write_pdf fst snd].

(** * Properties *)

(** ** File names *)

Example sort_key_demo :
  Names.sort_by_key ["2-report.pdf"; "10-report.pdf"; "1-report.pdf"; "b.pdf"; "a.pdf"]
  = ["1-report.pdf"; "2-report.pdf"; "10-report.pdf"; "a.pdf"; "b.pdf"].
Proof. reflexivity. Qed.

Example stem_demo :
  Names.stem "10-report.pdf" = "10-report" /\ Names.stem ".pdf" = ".pdf"
  /\ Names.stem "a.b.pdf" = "a.b".
Proof. repeat split. Qed.

Example path_demo :
  Names.basename "./PDFS/a.pdf" = "a.pdf" /\ Names.dirname "./PDFS/a.pdf" = "./PDFS"
  /\ Names.dirname "tmp_a.pdf" = "" /\ Names.join "./output/" "x.pdf" = "./output/x.pdf"
  /\ Names.join "./PDFS" "x.pdf" = "./PDFS/x.pdf" /\ Names.rstrip_slash "./output//" = "./output"
  /\ Names.splitext_root "a.b.pdf" = "a.b" /\ Names.splitext_root "..pdf" = "..pdf".
Proof. repeat split. Qed.

(** ** Sorting *)

Section SortFacts.
Context {A : Type} (ltb : A -> A -> bool).

(** [le a b]: [b] is not smaller than [a]. *)
Let le (a b : A) : Prop := ltb b a = false.

Hypothesis ltb_asym : forall a b, ltb a b = true -> ltb b a = false.
Hypothesis le_trans : forall a b c, le a b -> le b c -> le a c.

Lemma insert_sorted_perm (x : A) (l : list A) :
  Permutation (x :: l) (Names.insert_sorted ltb x l).
Proof.
  induction l as [|y r IH]; simpl; [done|].
  destruct (ltb y x); [|done].
  rewrite perm_swap. by constructor.
Qed.

Lemma stable_sort_perm (l : list A) : Permutation l (Names.stable_sort ltb l).
Proof.
  induction l as [|x l IH]; simpl; [done|].
  etrans; [|apply insert_sorted_perm]. by constructor.
Qed.

Lemma insert_sorted_sorted (x : A) (l : list A) :
  StronglySorted le l -> StronglySorted le (Names.insert_sorted ltb x l).
Proof.
  induction 1 as [|y r Hr IH Hy]; simpl.
  - repeat constructor.
  - destruct (ltb y x) eqn:E.
    + constructor; [done|].
      rewrite <- (insert_sorted_perm x r).
      constructor; [by apply ltb_asym | done].
    + constructor; [by constructor|].
      constructor; [done|].
      eapply Forall_impl; [exact Hy|]. intros z Hz. by eapply le_trans.
Qed.

Lemma stable_sort_sorted (l : list A) : StronglySorted le (Names.stable_sort ltb l).
Proof.
  induction l as [|x l IH]; simpl; [constructor | by apply insert_sorted_sorted].
Qed.

Lemma strongly_sorted_lookup (l : list A) (i j : nat) (a b : A) :
  StronglySorted le l -> (i < j)%nat -> l !! i = Some a -> l !! j = Some b -> le a b.
Proof.
  intros Hs. revert i j. induction Hs as [|y r Hr IH Hy]; intros i j Hij Hi Hj.
  - by rewrite lookup_nil in Hi.
  - destruct j as [|j]; [lia|]. destruct i as [|i]; simpl in *.
    + injection Hi as <-. rewrite Forall_forall in Hy.
      apply Hy. by eapply list_elem_of_lookup_2.
    + eapply IH; [|done..]. lia.
Qed.

End SortFacts.

Section StringOrder.

Lemma str_compare_refl (s : string) : String.compare s s = Eq.
Proof.
  induction s as [|a s IH]; simpl; [done|].
  unfold Ascii.compare. by rewrite N.compare_refl.
Qed.

Lemma ascii_compare_trans_lt (a b c : ascii) :
  Ascii.compare a b = Lt -> Ascii.compare b c = Lt -> Ascii.compare a c = Lt.
Proof.
  unfold Ascii.compare. rewrite !N.compare_lt_iff. lia.
Qed.

Lemma str_compare_trans_lt (s t u : string) :
  String.compare s t = Lt -> String.compare t u = Lt -> String.compare s u = Lt.
Proof.
  revert t u. induction s as [|a s IH]; intros [|b t] [|c u]; simpl; try done.
  destruct (Ascii.compare a b) eqn:Eab; try done.
  - apply Ascii.compare_eq_iff in Eab as ->.
    destruct (Ascii.compare b c); try done. apply IH.
  - intros _. destruct (Ascii.compare b c) eqn:Ebc; try done.
    + apply Ascii.compare_eq_iff in Ebc as <-. by rewrite Eab.
    + intros _. by rewrite (ascii_compare_trans_lt a b c).
Qed.

Lemma str_ltb_asym (s t : string) : Names.str_ltb s t = true -> Names.str_ltb t s = false.
Proof.
  unfold Names.str_ltb. rewrite (String.compare_antisym s t).
  by destruct (String.compare t s).
Qed.

Lemma str_ltb_irrefl (s : string) : Names.str_ltb s s = false.
Proof. unfold Names.str_ltb. by rewrite str_compare_refl. Qed.

Lemma str_ltb_trans (s t u : string) :
  Names.str_ltb s t = true -> Names.str_ltb t u = true -> Names.str_ltb s u = true.
Proof.
  unfold Names.str_ltb. intros H1 H2.
  rewrite (str_compare_trans_lt s t u); [done| |].
  - by destruct (String.compare s t).
  - by destruct (String.compare t u).
Qed.

(** Two names are equal or one is smaller. *)
Lemma str_ltb_total (s t : string) :
  Names.str_ltb s t = true \/ s = t \/ Names.str_ltb t s = true.
Proof.
  unfold Names.str_ltb. rewrite (String.compare_antisym t s).
  destruct (String.compare s t) eqn:E; simpl; auto.
  apply String.compare_eq_iff in E. auto.
Qed.

Lemma str_not_ltb_trans (a b c : string) :
  Names.str_ltb b a = false -> Names.str_ltb c b = false -> Names.str_ltb c a = false.
Proof.
  intros H1 H2. destruct (Names.str_ltb c a) eqn:E; [|done].
  destruct (str_ltb_total b a) as [H|[->|H]]; [congruence|congruence|].
  by rewrite (str_ltb_trans c a b) in H2.
Qed.

Lemma key_ltb_asym (k1 k2 : Names.rank * string) :
  Names.key_ltb k1 k2 = true -> Names.key_ltb k2 k1 = false.
Proof.
  destruct k1 as [[m|] s], k2 as [[n|] t]; unfold Names.key_ltb; simpl; try done.
  - rewrite (Z.eqb_sym n m). destruct (Z.eqb_spec m n); [apply str_ltb_asym|lia].
  - apply str_ltb_asym.
Qed.

Lemma key_not_ltb_trans (k1 k2 k3 : Names.rank * string) :
  Names.key_ltb k2 k1 = false -> Names.key_ltb k3 k2 = false ->
  Names.key_ltb k3 k1 = false.
Proof.
  destruct k1 as [[m|] s], k2 as [[n|] t], k3 as [[o|] u];
    unfold Names.key_ltb; simpl; try done.
  - destruct (Z.eqb_spec n m), (Z.eqb_spec o n), (Z.eqb_spec o m);
      try lia; try apply str_not_ltb_trans; intros; try lia; done.
  - apply str_not_ltb_trans.
Qed.

End StringOrder.

Section MergeOrder.
Import Names Env.

Lemma sort_paths_sorted (ps : list path) :
  StronglySorted
    (fun a b => key_ltb (get_sort_key (path_name b)) (get_sort_key (path_name a)) = false)
    (pdfinsert.sort_paths ps).
Proof.
  apply (stable_sort_sorted
           (fun a b => key_ltb (get_sort_key (path_name a)) (get_sort_key (path_name b)))).
  - intros a b. apply key_ltb_asym.
  - intros a b c. apply key_not_ltb_trans.
Qed.

Lemma sorted_sorted (l : list string) :
  StronglySorted (fun a b => str_ltb b a = false) (Names.sorted l).
Proof.
  apply (stable_sort_sorted str_ltb).
  - apply str_ltb_asym.
  - apply str_not_ltb_trans.
Qed.

(** What "not smaller" means on the keys, in terms of the numeric prefix. *)
Lemma key_order_prefix (x y : string) :
  key_ltb (get_sort_key y) (get_sort_key x) = false ->
  (forall m n, numeric_prefix x = Some m -> numeric_prefix y = Some n ->
               m <= n /\ (m = n -> str_leb x y = true))
  /\ (numeric_prefix x = None -> numeric_prefix y = None /\ str_leb x y = true).
Proof.
  unfold get_sort_key, key_ltb, str_leb.
  destruct (numeric_prefix x) as [m|], (numeric_prefix y) as [n|]; simpl; intros H.
  - split; [|done]. intros m' n' [= <-] [= <-].
    destruct (Z.eqb_spec n m) as [Heq|Hne].
    + split; [lia|]. intros _. by rewrite H.
    + apply Z.ltb_ge in H. split; lia.
  - split; [done|done].
  - done.
  - split; [done|]. intros _. split; [done|]. by rewrite H.
Qed.

(** C3 (amended).  The merge step of [pdfinsert] orders the per-file outputs
    by the key of [get_sort_key]: the sorted list is a rearrangement of the
    files found, and whenever [a] comes before [b] in it, either both names
    have a numeric prefix (digits after optional leading white space) and the
    value of [a]'s is at most that of [b]'s, equal values being ordered
    lexically by the full name, or [b] has no numeric prefix; a name without
    numeric prefix is only followed by such names, in lexical order.  The
    order [pdf_fill]'s [main] hands to its merge is the plain lexical order of
    the path strings. *)
Theorem merge_order_numeric_prefix :
  (forall ps : list path, Permutation ps (pdfinsert.sort_paths ps))
  /\ (forall (ps : list path) (i j : nat) (a b : path),
        (i < j)%nat ->
        pdfinsert.sort_paths ps !! i = Some a ->
        pdfinsert.sort_paths ps !! j = Some b ->
        (forall m n,
            numeric_prefix (path_name a) = Some m ->
            numeric_prefix (path_name b) = Some n ->
            m <= n /\ (m = n -> str_leb (path_name a) (path_name b) = true))
        /\ (numeric_prefix (path_name a) = None ->
            numeric_prefix (path_name b) = None
            /\ str_leb (path_name a) (path_name b) = true))
  /\ (forall (d : string) (w : world) (l : list string) (i j : nat) (a b : string),
        fst (pdf_fill.sorted_glob d w) = inl l ->
        (i < j)%nat -> l !! i = Some a -> l !! j = Some b ->
        str_leb a b = true).
Proof.
  split; [|split].
  - intros ps. apply stable_sort_perm.
  - intros ps i j a b Hij Ha Hb.
    apply key_order_prefix.
    exact (strongly_sorted_lookup _ _ i j a b (sort_paths_sorted ps) Hij Ha Hb).
  - intros d w l i j a b [= <-] Hij Ha Hb.
    unfold str_leb.
    by rewrite (strongly_sorted_lookup _ _ i j a b (sorted_sorted _) Hij Ha Hb).
Qed.

Lemma merge_order_numeric_prefix_witness :
  (forall m n,
      numeric_prefix "2-report.pdf" = Some m ->
      numeric_prefix "10-report.pdf" = Some n ->
      m <= n /\ (m = n -> str_leb "2-report.pdf" "10-report.pdf" = true))
  /\ str_leb "./PDFS/10-report.pdf" "./PDFS/2-report.pdf" = true.
Proof.
  destruct merge_order_numeric_prefix as (_ & Hins & Hfill).
  split.
  - apply (Hins [(pdfinsert.OUTPUT_DIR, "2-report.pdf");
                 (pdfinsert.OUTPUT_DIR, "10-report.pdf");
                 (pdfinsert.OUTPUT_DIR, "1-report.pdf")]
                1%nat 2%nat
                (pdfinsert.OUTPUT_DIR, "2-report.pdf")
                (pdfinsert.OUTPUT_DIR, "10-report.pdf"));
      [lia | reflexivity | reflexivity].
  - apply (Hfill "./PDFS" Demo.reports
                  ["./PDFS/1-report.pdf"; "./PDFS/10-report.pdf"; "./PDFS/2-report.pdf"]
                  1%nat 2%nat);
      [vm_compute; reflexivity | lia | reflexivity | reflexivity].
Defined.

(** C3 as stated fails twice.  On the spec's own three names, the order in
    which [pdf_fill] merges is the lexical one, 1, 10, 2.  And in [pdfinsert]
    a name that does not begin with a digit, [" 3.pdf"], is ordered among the
    numerically prefixed names, before ["5.pdf"]. *)
Lemma merge_order_counterexample :
  fst (pdf_fill.sorted_glob "./PDFS" Demo.reports)
  = inl ["./PDFS/1-report.pdf"; "./PDFS/10-report.pdf"; "./PDFS/2-report.pdf"]
  /\ take_digits " 3.pdf" = []
  /\ take_digits "5.pdf" <> []
  /\ pdfinsert.sort_paths [(pdfinsert.OUTPUT_DIR, "5.pdf"); (pdfinsert.OUTPUT_DIR, " 3.pdf")]
     = [(pdfinsert.OUTPUT_DIR, " 3.pdf"); (pdfinsert.OUTPUT_DIR, "5.pdf")].
Proof. repeat split; try (vm_compute; reflexivity). vm_compute. discriminate. Qed.

End MergeOrder.

(** ** The page transformer *)

Section PageTransformer.
Import Pdf pdf_fill.






End PageTransformer.

(** ** The page-number stamper of [pdf_fill] *)

Section Stamper.
Import Pdf Env pdf_fill.

Variable FONT_NAME : string.
Variable stringWidth : string -> string -> Q -> Q.

Lemma Qltb_lt (a b : Q) : Qltb a b = true <-> (a < b)%Q.
Proof.
  unfold Qltb. rewrite negb_true_iff, <- not_true_iff_false, Qle_bool_iff.
  split; [apply Qnot_le_lt | apply Qlt_not_le].
Qed.

Lemma Qltb_ge (a b : Q) : Qltb a b = false <-> (b <= a)%Q.
Proof. unfold Qltb. by rewrite negb_false_iff, Qle_bool_iff. Qed.

Lemma shrink_spec (fuel : nat) (text : string) (max_allowed size : Q) :
  exists k : nat,
    (k <= fuel)%nat
    /\ shrink FONT_NAME stringWidth fuel text max_allowed size = steps_down k size
    /\ (forall j, (j < k)%nat -> must_shrink FONT_NAME stringWidth text max_allowed (steps_down j size))
    /\ (k = fuel \/ ~ must_shrink FONT_NAME stringWidth text max_allowed (steps_down k size)).
Proof.
  revert size. induction fuel as [|fuel IH]; intros size.
  - exists 0%nat. split_and!; [lia | done | intros; lia | by left].
  - simpl.
    destruct (Qltb max_allowed (stringWidth text FONT_NAME size)
              && Qltb min_font_size_part1 size) eqn:E.
    + apply andb_true_iff in E as [E1%Qltb_lt E2%Qltb_lt].
      destruct (IH (size - (1 # 2))%Q) as (k & Hk & Heq & Hbefore & Hend).
      exists (S k). split_and!; [lia | done | | ].
      * intros [|j] Hj; simpl; [done | apply Hbefore; lia].
      * destruct Hend as [->|Hend]; [by left | by right].
    + exists 0%nat. split_and!; [lia | done | intros; lia |].
      right. intros [H1%Qltb_lt H2%Qltb_lt]. simpl in *.
      rewrite H1, H2 in E. done.
Qed.

(** Six steps of 0.5pt lead from the base size to the floor. *)
Lemma steps_down_floor :
  (steps_down shrink_steps base_font_size == min_font_size_part1)%Q.
Proof. by vm_compute. Qed.

(** C5.  For a two-segment label the second segment is placed first, at the
    base size, with its right end at the right margin.  The first segment
    starts at the base size and takes a number [k] of 0.5pt steps down, each
    taken because it was wider than the available width (start of the second
    segment minus gap and left margin) at a size above the 7pt floor.  When
    the loop stops, either the first segment is not too wide and nothing is
    logged, or the size has reached the floor and the warning is logged; both
    segments are drawn in each case. *)
Theorem label_shrinks_to_fit (page_text_part1 page_text_part2 : string)
    (Htwo : page_text_part1 <> "") :
  let text_width_part2 := stringWidth page_text_part2 FONT_NAME base_font_size in
  let x_position_part2 := (fst A4 - text_width_part2 - right_margin_part2)%Q in
  let available := (x_position_part2 - gap_between_parts - left_margin_part1)%Q in
  exists k : nat,
    let size1 := steps_down k base_font_size in
    (k <= shrink_steps)%nat
    /\ (forall j, (j < k)%nat ->
          (available < stringWidth page_text_part1 FONT_NAME (steps_down j base_font_size))%Q
          /\ (min_font_size_part1 < steps_down j base_font_size)%Q)
    /\ body (fst (draw_label FONT_NAME stringWidth page_text_part1 page_text_part2))
       = Canvas [DrawString left_margin_part1 y_position page_text_part1 FONT_NAME size1;
                 DrawString x_position_part2 y_position page_text_part2 FONT_NAME
                   base_font_size]
    /\ (((stringWidth page_text_part1 FONT_NAME size1 <= available)%Q
         /\ snd (draw_label FONT_NAME stringWidth page_text_part1 page_text_part2) = [])
        \/ ((size1 == min_font_size_part1)%Q
            /\ (available < stringWidth page_text_part1 FONT_NAME size1)%Q
            /\ snd (draw_label FONT_NAME stringWidth page_text_part1 page_text_part2)
               = [WarnLabelTooLong min_font_size_part1 page_text_part1])).
Proof.
  intros w2 x2 available.
  destruct (shrink_spec shrink_steps page_text_part1 available base_font_size)
    as (k & Hk & Heq & Hbefore & Hend).
  exists k. simpl.
  unfold draw_label. fold w2. fold x2. fold available.
  destruct (String.eqb_spec page_text_part1 "") as [|_]; [done|].
  rewrite Heq. simpl.
  split_and!; [done | exact Hbefore | done |].
  destruct (Qltb available (stringWidth page_text_part1 FONT_NAME
                              (steps_down k base_font_size))) eqn:Ew; simpl.
  - apply Qltb_lt in Ew. right.
    assert (steps_down k base_font_size <= min_font_size_part1)%Q as Hle.
    { destruct Hend as [->|Hend].
      - rewrite steps_down_floor. apply Qle_refl.
      - apply Qnot_lt_le. intros Hlt. apply Hend. by split. }
    apply Qle_bool_iff in Hle as Hb. rewrite Hb.
    split_and!; [|done|done].
    apply Qle_antisym; [done|].
    destruct k as [|k]; [by vm_compute|].
    (* the size before the last step was above the floor by a full step *)
    clear -Hk. unfold shrink_steps in Hk.
    do 6 (destruct k as [|k]; [by vm_compute|]). lia.
  - apply Qltb_ge in Ew. by left.
Qed.

End Stamper.

Lemma label_shrinks_to_fit_witness :
  exists k : nat,
    Pdf.body (fst (pdf_fill.draw_label "Helvetica" Demo.demo_width
                     "[ a-very-long-file-name-that-does-not-fit-on-one-line-at-all-because-it-goes-on-and-on 1/2 ]"
                     "[ 1/4 ]"))
    = Pdf.Canvas
        [Pdf.DrawString pdf_fill.left_margin_part1 pdf_fill.y_position
           "[ a-very-long-file-name-that-does-not-fit-on-one-line-at-all-because-it-goes-on-and-on 1/2 ]"
           "Helvetica" (steps_down k pdf_fill.base_font_size);
         Pdf.DrawString
           (fst pdf_fill.A4 - Demo.demo_width "[ 1/4 ]" "Helvetica" pdf_fill.base_font_size
            - pdf_fill.right_margin_part2)%Q
           pdf_fill.y_position "[ 1/4 ]" "Helvetica" pdf_fill.base_font_size].
Proof.
  destruct (label_shrinks_to_fit "Helvetica" Demo.demo_width
              "[ a-very-long-file-name-that-does-not-fit-on-one-line-at-all-because-it-goes-on-and-on 1/2 ]"
              "[ 1/4 ]")
    as (k & _ & _ & Hbody & _).
  - discriminate.
  - exists k. exact Hbody.
Defined.

(** ** The bookmark remapper *)

Section SrcItemInduction.
Import Pdf.
Variable P : src_item -> Prop.
Hypothesis HList : forall items, Forall P items -> P (SList items).
Hypothesis HEntry : forall title page_object children,
  Forall P children -> P (SEntry title page_object children).
Hypothesis HOther : P SOther.

Lemma src_item_nested_ind (item : src_item) : P item.
Proof.
  revert item.
  refine (fix rec (item : src_item) : P item :=
            match item with
            | SList items => HList items _
            | SEntry title page_object children => HEntry title page_object children _
            | SOther => HOther
            end).
  - refine ((fix go (l : list src_item) : Forall P l :=
               match l with
               | [] => @List.Forall_nil _ P
               | x :: r => @List.Forall_cons _ P x r (rec x) (go r)
               end) items).
  - refine ((fix go (l : list src_item) : Forall P l :=
               match l with
               | [] => @List.Forall_nil _ P
               | x :: r => @List.Forall_cons _ P x r (rec x) (go r)
               end) children).
Qed.
End SrcItemInduction.

Section Grafting.
Import Pdf Remap.

Lemma graft_nil (path : oref) (f : list onode) : graft path [] f = f.
Proof.
  revert f. induction path as [|i rest IH]; intros f; simpl.
  - by rewrite app_nil_r.
  - destruct (f !! i) as [[t p ch]|] eqn:E; [|done].
    rewrite IH. by apply list_insert_id.
Qed.

Lemma graft_app (path : oref) (a b : list onode) (f : list onode) :
  graft path (a ++ b) f = graft path b (graft path a f).
Proof.
  revert f. induction path as [|i rest IH]; intros f; simpl.
  - by rewrite app_assoc.
  - destruct (f !! i) as [[t p ch]|] eqn:E; [|by rewrite E].
    rewrite list_lookup_insert_eq by (by eapply lookup_lt_Some).
    by rewrite list_insert_insert_eq, IH.
Qed.

Lemma graft_valid (path : oref) (ns : list onode) (f : list onode) :
  valid_ref path f -> valid_ref path (graft path ns f).
Proof.
  revert f. induction path as [|i rest IH]; intros f; simpl; [done|].
  destruct (f !! i) as [[t p ch]|] eqn:E; [|done].
  intros Hv. rewrite list_lookup_insert_eq by (by eapply lookup_lt_Some).
  by apply IH.
Qed.

Lemma graft_new_valid (path : oref) (n : onode) (f : list onode) :
  valid_ref path f ->
  valid_ref (path ++ [length (children_at path f)]) (graft path [n] f).
Proof.
  revert f. induction path as [|i rest IH]; intros f; simpl.
  - intros _. rewrite lookup_app_r by lia. rewrite Nat.sub_diag. simpl.
    by destruct n.
  - destruct (f !! i) as [[t p ch]|] eqn:E; [|done].
    intros Hv. rewrite list_lookup_insert_eq by (by eapply lookup_lt_Some).
    by apply IH.
Qed.

(** Filling a fresh item with children afterwards is the same as adding it
    with its children. *)
Lemma graft_under_new (path : oref) (title : string) (target : Z)
    (ns : list onode) (f : list onode) :
  valid_ref path f ->
  graft (path ++ [length (children_at path f)]) ns (graft path [Node title target []] f)
  = graft path [Node title target ns] f.
Proof.
  revert f. induction path as [|i rest IH]; intros f; simpl.
  - intros _. rewrite lookup_app_r by lia. rewrite Nat.sub_diag. simpl.
    rewrite insert_app_r_alt by lia. by rewrite Nat.sub_diag.
  - destruct (f !! i) as [[t p ch]|] eqn:E; [|done].
    intros Hv. rewrite list_lookup_insert_eq by (by eapply lookup_lt_Some).
    by rewrite list_insert_insert_eq, IH.
Qed.

Lemma children_at_graft (path : oref) (ns : list onode) (f : list onode) :
  valid_ref path f -> children_at path (graft path ns f) = children_at path f ++ ns.
Proof.
  revert f. induction path as [|i rest IH]; intros f; simpl; [done|].
  destruct (f !! i) as [[t p ch]|] eqn:E; [|done].
  intros Hv. rewrite list_lookup_insert_eq by (by eapply lookup_lt_Some).
  by apply IH.
Qed.

(** Grafting below an item leaves the titles and targets of the top level
    as they are. *)
Lemma top_level_graft_below (i : nat) (rest : oref) (ns : list onode) (f : list onode) :
  top_level (graft (i :: rest) ns f) = top_level f.
Proof.
  simpl. destruct (f !! i) as [[t p ch]|] eqn:E; [|done].
  unfold top_level. rewrite list_fmap_insert. simpl.
  apply list_insert_id. by rewrite list_lookup_fmap, E.
Qed.

End Grafting.

Section Remapper.
Import Pdf Env Remap.

Variable reader : Z -> option Z.
Variable page_idx_transform_func : Z -> Z.

Abbreviation add_item := (pdfinsert.add_nested_outline_item reader).
Abbreviation walk := (pdfinsert.add_nested_outline reader).

(** A [for] loop over items does to the outline what the items do one after
    the other. *)
Lemma walk_items (items : list src_item) :
  Forall (fun item =>
            forall (parent : option oref) (wr : writer) (log : list event),
              valid_ref (default [] parent) (woutline wr) ->
              add_item item parent page_idx_transform_func (wr, log)
              = (Writer (wpages wr)
                   (graft (default [] parent)
                      (remap_item reader page_idx_transform_func item) (woutline wr)),
                 log ++ diagnostics_item reader item)) items ->
  forall (parent : option oref) (wr : writer) (log : list event),
    valid_ref (default [] parent) (woutline wr) ->
    fold_left (fun st it => add_item it parent page_idx_transform_func st) items (wr, log)
    = (Writer (wpages wr)
         (graft (default [] parent) (remap reader page_idx_transform_func items)
            (woutline wr)),
       log ++ diagnostics reader items).
Proof.
  induction 1 as [|item items Hitem _ IH]; intros parent wr log Hv; simpl.
  - unfold remap, diagnostics. simpl. rewrite graft_nil, app_nil_r. by destruct wr.
  - rewrite Hitem by done. rewrite IH by (by apply graft_valid).
    unfold remap, diagnostics. simpl. by rewrite graft_app, app_assoc.
Qed.

Lemma walk_item (item : src_item) :
  forall (parent : option oref) (wr : writer) (log : list event),
    valid_ref (default [] parent) (woutline wr) ->
    add_item item parent page_idx_transform_func (wr, log)
    = (Writer (wpages wr)
         (graft (default [] parent)
            (remap_item reader page_idx_transform_func item) (woutline wr)),
       log ++ diagnostics_item reader item).
Proof.
  induction item as [items IH|title page_object children IH|] using src_item_nested_ind;
    intros parent wr log Hv; simpl.
  - by apply walk_items.
  - destruct (reader page_object) as [i|]; simpl.
    + rewrite (walk_items children IH (Some _)); simpl.
      * by rewrite graft_under_new.
      * by apply graft_new_valid.
    + rewrite graft_nil. by destruct wr.
  - rewrite graft_nil. by destruct wr.
Qed.

Lemma walk_spec (items : list src_item) (parent : option oref) (wr : writer)
    (log : list event) :
  valid_ref (default [] parent) (woutline wr) ->
  walk items wr parent page_idx_transform_func log
  = (Writer (wpages wr)
       (graft (default [] parent) (remap reader page_idx_transform_func items)
          (woutline wr)),
     log ++ diagnostics reader items).
Proof.
  intros Hv. apply walk_items; [|done].
  apply Forall_forall. intros item _. apply walk_item.
Qed.

(** The console only grows, by the diagnostics of the items, and what is
    already on it has no influence on the writer. *)
Lemma walk_items_log (items : list src_item) :
  Forall (fun item =>
            forall (parent : option oref) (wr : writer) (log : list event),
              add_item item parent page_idx_transform_func (wr, log)
              = (fst (add_item item parent page_idx_transform_func (wr, [])),
                 log ++ diagnostics_item reader item)) items ->
  forall (parent : option oref) (wr : writer) (log : list event),
    fold_left (fun st it => add_item it parent page_idx_transform_func st) items (wr, log)
    = (fst (fold_left (fun st it => add_item it parent page_idx_transform_func st)
              items (wr, [])),
       log ++ diagnostics reader items).
Proof.
  induction 1 as [|item items Hitem _ IH]; intros parent wr log; simpl.
  - unfold diagnostics. simpl. by rewrite app_nil_r.
  - rewrite Hitem. rewrite IH.
    rewrite (Hitem parent wr []). rewrite (IH parent _ ([] ++ _)). simpl.
    unfold diagnostics. simpl. by rewrite app_assoc.
Qed.

Lemma walk_item_log (item : src_item) :
  forall (parent : option oref) (wr : writer) (log : list event),
    add_item item parent page_idx_transform_func (wr, log)
    = (fst (add_item item parent page_idx_transform_func (wr, [])),
       log ++ diagnostics_item reader item).
Proof.
  induction item as [items IH|title page_object children IH|] using src_item_nested_ind;
    intros parent wr log; simpl.
  - by apply walk_items_log.
  - destruct (reader page_object) as [i|]; simpl; [|done].
    rewrite (walk_items_log children IH (Some _) _ log).
    by rewrite (walk_items_log children IH (Some _) _ []).
  - done.
Qed.

Lemma walk_log (items : list src_item) (parent : option oref) (wr : writer)
    (log : list event) :
  walk items wr parent page_idx_transform_func log
  = (fst (walk items wr parent page_idx_transform_func []),
     log ++ diagnostics reader items).
Proof.
  apply walk_items_log. apply Forall_forall. intros item _. apply walk_item_log.
Qed.

(** C6.  The walk adds, as the last children of the destination parent and
    in source order, one entry per source entry whose page resolves, at the
    index the caller's map gives for the resolved index, with the entry's own
    children remapped beneath it; an entry whose page does not resolve is
    left out and a diagnostic with its title is logged, and the walk goes on
    with the entries that follow.  Nothing else in the writer changes. *)
Theorem remapper_transplants_outline (source_items : list src_item)
    (target_writer : writer) (target_parent : option oref) (log : list event)
    (Hparent : valid_ref (default [] target_parent) (woutline target_writer)) :
  let result := walk source_items target_writer target_parent
                  page_idx_transform_func log in
  result
  = (Writer (wpages target_writer)
       (graft (default [] target_parent)
          (remap reader page_idx_transform_func source_items)
          (woutline target_writer)),
     log ++ diagnostics reader source_items)
  /\ children_at (default [] target_parent) (woutline (fst result))
     = children_at (default [] target_parent) (woutline target_writer)
       ++ remap reader page_idx_transform_func source_items
  /\ (forall before title page_object children after,
        source_items = before ++ SEntry title page_object children :: after ->
        match reader page_object with
        | None =>
            WarnBookmarkUnresolved title ∈ snd result
            /\ remap reader page_idx_transform_func source_items
               = remap reader page_idx_transform_func before
                 ++ remap reader page_idx_transform_func after
        | Some i =>
            remap reader page_idx_transform_func source_items
            = remap reader page_idx_transform_func before
              ++ Node title (page_idx_transform_func i)
                   (remap reader page_idx_transform_func children)
              :: remap reader page_idx_transform_func after
        end).
Proof.
  intros result. unfold result. rewrite walk_spec by done. simpl.
  split_and!; [done | by apply children_at_graft |].
  intros before title page_object children after ->.
  unfold remap, diagnostics. rewrite !map_app, !concat_app. simpl.
  destruct (reader page_object) as [i|]; [done|].
  split; [|done]. set_solver.
Qed.

End Remapper.

Lemma remapper_transplants_outline_witness :
  fst (pdfinsert.add_nested_outline (Pdf.get_page_number Demo.doc1)
         [Pdf.SEntry "A" 0 [Pdf.SEntry "A1" 1 []];
          Pdf.SEntry "gone" 7 [Pdf.SEntry "lost" 0 []];
          Pdf.SEntry "B" 1 []]
         (Pdf.Writer [] [Pdf.Node "file" 0 []]) (Some [0%nat]) (fun i => i * 2) [])
  = Pdf.Writer [] [Pdf.Node "file" 0
                     [Pdf.Node "A" 0 [Pdf.Node "A1" 2 []]; Pdf.Node "B" 2 []]].
Proof.
  destruct (remapper_transplants_outline (Pdf.get_page_number Demo.doc1)
              (fun i => i * 2)
              [Pdf.SEntry "A" 0 [Pdf.SEntry "A1" 1 []];
               Pdf.SEntry "gone" 7 [Pdf.SEntry "lost" 0 []];
               Pdf.SEntry "B" 1 []]
              (Pdf.Writer [] [Pdf.Node "file" 0 []]) (Some [0%nat]) [])
    as (H & _ & _).
  - exact I.
  - rewrite H. reflexivity.
Defined.

(** C10.  An entry whose page does not resolve is dropped with everything
    in its [children]: the writer ends up as if the entry had not been in the
    list at all, whatever its subtree holds, and the diagnostic for the entry
    is the only trace of it on the console. *)
Theorem unresolved_entry_drops_subtree (reader : Z -> option Z)
    (page_idx_transform_func : Z -> Z)
    (before after children : list Pdf.src_item) (title : string) (page_object : Z)
    (target_writer : Pdf.writer) (target_parent : option Pdf.oref)
    (log : list Env.event)
    (Hfail : reader page_object = None) :
  fst (pdfinsert.add_nested_outline reader
         (before ++ Pdf.SEntry title page_object children :: after)
         target_writer target_parent page_idx_transform_func log)
  = fst (pdfinsert.add_nested_outline reader (before ++ after)
           target_writer target_parent page_idx_transform_func log)
  /\ snd (pdfinsert.add_nested_outline reader
            (before ++ Pdf.SEntry title page_object children :: after)
            target_writer target_parent page_idx_transform_func log)
     = log ++ Remap.diagnostics reader before
       ++ Env.WarnBookmarkUnresolved title :: Remap.diagnostics reader after
  /\ Remap.remap_item reader page_idx_transform_func
       (Pdf.SEntry title page_object children) = [].
Proof.
  unfold pdfinsert.add_nested_outline. rewrite !fold_left_app. simpl.
  rewrite Hfail.
  pose proof (walk_log reader page_idx_transform_func) as Hlog.
  unfold pdfinsert.add_nested_outline in Hlog.
  destruct (fold_left _ before (target_writer, log)) as [wr1 log1] eqn:E1.
  pose proof (Hlog before target_parent target_writer log) as Hb.
  rewrite E1 in Hb. injection Hb as _ ->. simpl.
  rewrite (Hlog after target_parent wr1 (_ ++ [_])).
  rewrite (Hlog after target_parent wr1 (_ ++ _)). simpl.
  split_and!; [done | by rewrite <- !app_assoc | done].
Qed.

Lemma unresolved_entry_drops_subtree_witness :
  fst (pdfinsert.add_nested_outline (Pdf.get_page_number Demo.doc1)
         ([Pdf.SEntry "A" 0 []]
          ++ Pdf.SEntry "gone" 7 [Pdf.SEntry "lost" 0 [Pdf.SEntry "deeper" 1 []]]
          :: [Pdf.SEntry "B" 1 []])
         Pdf.new_writer None (fun i => i * 2) [])
  = fst (pdfinsert.add_nested_outline (Pdf.get_page_number Demo.doc1)
           ([Pdf.SEntry "A" 0 []] ++ [Pdf.SEntry "B" 1 []])
           Pdf.new_writer None (fun i => i * 2) []).
Proof.
  apply (unresolved_entry_drops_subtree (Pdf.get_page_number Demo.doc1)
           (fun i => i * 2) [Pdf.SEntry "A" 0 []] [Pdf.SEntry "B" 1 []]
           [Pdf.SEntry "lost" 0 [Pdf.SEntry "deeper" 1 []]] "gone" 7
           Pdf.new_writer None []).
  reflexivity.
Defined.

Section Run.
Import Pdf Env.

Lemma bind_ok {A B} (m : M A) (k : A -> M B) (w w' : world) (a : A) :
  m w = (inl a, w') -> (m ≫= k) w = k a w'.
Proof. intros H. run. by rewrite H. Qed.

Lemma bind_err {A B} (m : M A) (k : A -> M B) (w w' : world) (e : exn) :
  m w = (inr e, w') -> (m ≫= k) w = (inr e, w').
Proof. intros H. run. by rewrite H. Qed.

Lemma for_each_cons_ok {A S} (x : A) (r : list A) (body : A -> S -> M S)
    (s s' : S) (w w' : world) :
  body x s w = (inl s', w') -> for_each (x :: r) body s w = for_each r body s' w'.
Proof. intros H. simpl. by apply bind_ok. Qed.

Lemma for_each_cons_err {A S} (x : A) (r : list A) (body : A -> S -> M S)
    (s : S) (w w' : world) (e : exn) :
  body x s w = (inr e, w') -> for_each (x :: r) body s w = (inr e, w').
Proof. intros H. simpl. by apply bind_err. Qed.

Lemma stamp_page_run font_name font_size name total (i : nat) (p : page)
    (wr : writer) (w : world) :
  pdfinsert.stamp_page font_name font_size name total (i, p) wr w
  = (inl (add_page wr (Spec.stamped font_name font_size total i p)),
     World (files w) (dirs w)
       (console w ++ (if parses p then [] else [WarnOverlayFailed (i + 1) name]))).
Proof.
  unfold pdfinsert.stamp_page, Spec.stamped, merge_page. run.
  destruct (parses p); simpl; [|done].
  rewrite app_nil_r. by destruct w.
Qed.

Lemma stamp_loop font_name font_size name total (ps : list page) (k : nat)
    (wr : writer) (w : world) :
  for_each (zip (seq k (length ps)) ps)
    (pdfinsert.stamp_page font_name font_size name total) wr w
  = (inl (Writer (wpages wr ++ Spec.stamped_from font_name font_size total k ps)
            (woutline wr)),
     World (files w) (dirs w) (console w ++ Spec.overlay_warnings name k ps)).
Proof.
  revert k wr w. induction ps as [|p ps IH]; intros k wr w.
  - simpl. run. rewrite !app_nil_r. by destruct wr, w.
  - cbn [length seq zip_with].
    erewrite for_each_cons_ok by apply stamp_page_run.
    rewrite IH. simpl. by rewrite <- !app_assoc.
Qed.

Lemma add_nested_outline_io_run (reader : Z -> option Z) (items : list src_item)
    (wr : writer) (parent : option oref) (f : Z -> Z) (w : world) :
  Remap.valid_ref (default [] parent) (woutline wr) ->
  pdfinsert.add_nested_outline_io reader items wr parent f w
  = (inl (Writer (wpages wr)
            (graft (default [] parent) (Remap.remap reader f items) (woutline wr))),
     World (files w) (dirs w) (console w ++ Remap.diagnostics reader items)).
Proof.
  intros Hv. unfold pdfinsert.add_nested_outline_io. by rewrite walk_spec.
Qed.

Lemma PdfReader_ok (p : path) (d : document) (w : world) :
  files w !! p = Some (PdfFile d) -> PdfReader p w = (inl d, w).
Proof. intros H. unfold PdfReader. by rewrite H. Qed.

Lemma add_page_numbers_ok (input_pdf output_pdf : path) (font_name : string)
    (font_size : Q) (items : list src_item) (src : option document)
    (w : world) (d : document) :
  files w !! input_pdf = Some (PdfFile d) ->
  pdfinsert.add_page_numbers input_pdf output_pdf font_name font_size items src w
  = (inl (Some output_pdf),
     World (<[output_pdf := PdfFile (Spec.numbered font_name font_size items src d)]>
              (files w))
           (dirs w)
           (console w ++ Spec.numbering_log input_pdf output_pdf items src d)).
Proof.
  intros Hfile. unfold pdfinsert.add_page_numbers, try_except.
  erewrite bind_ok by (by apply PdfReader_ok).
  erewrite bind_ok; cycle 1.
  { instantiate (1 := World (files w) (dirs w)
                        (console w ++ Spec.parity_warning (path_name input_pdf)
                                        (length (pages d)))).
    instantiate (1 := tt). unfold Spec.parity_warning.
    destruct (negb _); [done|]. destruct (_ && _); run; [done|].
    rewrite app_nil_r. by destruct w. }
  erewrite bind_ok by apply stamp_loop. simpl.
  unfold Spec.numbered, Spec.numbering_log, Spec.numbered_outline.
  destruct items as [|item items], src as [s|]; run; simpl;
    rewrite ?app_nil_r, ?app_assoc; try done.
  rewrite add_nested_outline_io_run by done. simpl.
  by rewrite <- !app_assoc.
Qed.
End Run.

(** ** Page numbers of [pdfinsert] *)

Section PageNumbers.
Import Pdf Env.

Lemma stamped_from_lookup font_name font_size total (ps : list page) (k i : nat) :
  Spec.stamped_from font_name font_size total k ps !! i
  = Spec.stamped font_name font_size total (k + i) <$> ps !! i.
Proof.
  revert k i. induction ps as [|p ps IH]; intros k [|i]; simpl; try done.
  - by rewrite Nat.add_0_r.
  - rewrite IH. by rewrite Nat.add_succ_r.
Qed.

Lemma stamped_from_length font_name font_size total (ps : list page) (k : nat) :
  length (Spec.stamped_from font_name font_size total k ps) = length ps.
Proof. revert k. induction ps as [|p ps IH]; intros k; simpl; [done | by rewrite IH]. Qed.

Lemma overlay_warnings_elem (name : string) (ps : list page) (k i : nat) (p : page) :
  ps !! i = Some p -> parses p = false ->
  WarnOverlayFailed (k + i + 1) name ∈ Spec.overlay_warnings name k ps.
Proof.
  revert k i. induction ps as [|q ps IH]; intros k [|i]; simpl; try done.
  - intros [= ->] ->. rewrite Nat.add_0_r. set_solver.
  - intros Hi Hp. apply elem_of_app. right.
    replace (k + S i + 1)%nat with (S k + i + 1)%nat by lia. by apply IH.
Qed.

(** C7.  Given a readable intermediate file with an odd number of pages,
    the numbering stage returns normally with the output path, having logged
    the odd-page warning; the total it prints is [total // 2], and the canvas
    drawn for the page at index [i] carries ["(i // 2 + 1) / (total // 2)"] at
    the bottom right.  Every page is written out: with that canvas merged in,
    or, if merging fails, as it was, with a warning. *)
Theorem odd_page_count_is_numbered (input_pdf output_pdf : path) (font_name : string)
    (font_size : Q) (original_outline_struct : list src_item)
    (outline_source_reader : option document) (w : world) (d : document)
    (Hfile : files w !! input_pdf = Some (PdfFile d))
    (Hodd : (length (pages d) mod 2 = 1)%nat) :
  let total := length (pages d) in
  let original_total_pages := (total / 2)%nat in
  exists (w' : world) (d' : document),
    pdfinsert.add_page_numbers input_pdf output_pdf font_name font_size
      original_outline_struct outline_source_reader w = (inl (Some output_pdf), w')
    /\ WarnOddPages (path_name input_pdf) total original_total_pages ∈ console w'
    /\ files w' !! output_pdf = Some (PdfFile d')
    /\ length (pages d') = total
    /\ forall (i : nat) (p : page),
         pages d !! i = Some p ->
         let label :=
           DrawRightString (width p - 30) 30
             (pretty (i / 2 + 1)%nat +:+ " / " +:+ pretty original_total_pages)
             font_name font_size in
         pdfinsert.overlay_page font_name font_size original_total_pages i p
         = Page (width p) (height p) (Canvas [label]) true
         /\ (parses p = true ->
             pages d' !! i
             = Some (Page (width p) (height p) (Merged (body p) (Canvas [label])) true))
         /\ (parses p = false ->
             pages d' !! i = Some p
             /\ WarnOverlayFailed (i + 1) (path_name input_pdf) ∈ console w').
Proof.
  intros total original_total_pages.
  eexists _, _. split; [by apply add_page_numbers_ok|]. cbn [files console].
  split_and!.
  - unfold Spec.numbering_log, Spec.parity_warning. rewrite Hodd.
    cbn [Nat.eqb negb]. set_solver.
  - by rewrite lookup_insert_eq.
  - apply stamped_from_length.
  - intros i p Hp. cbn [pages Spec.numbered]. split_and!.
    + done.
    + intros Hparses. rewrite stamped_from_lookup, Hp. simpl.
      unfold Spec.stamped, merge_page. by rewrite Hparses.
    + intros Hparses. split.
      * rewrite stamped_from_lookup, Hp. simpl.
        unfold Spec.stamped, merge_page. by rewrite Hparses.
      * unfold Spec.numbering_log. rewrite !elem_of_app. right. right. left.
        by apply (overlay_warnings_elem _ _ 0 i p).
Qed.

End PageNumbers.

Lemma odd_page_count_is_numbered_witness :
  exists (w' : Env.world) (d' : Pdf.document),
    pdfinsert.add_page_numbers ("./output", "temp_blank_x.pdf") ("./output", "x.pdf")
      "Helvetica" 10 [] None
      (Env.World {[ ("./output", "temp_blank_x.pdf")
                    := Env.PdfFile (Pdf.Document [Demo.pg 1; Demo.pg 2; Demo.pg 3] []) ]}
                 ∅ [])
    = (inl (Some ("./output", "x.pdf")), w')
    /\ Env.WarnOddPages "temp_blank_x.pdf" 3 1 ∈ Env.console w'
    /\ Env.files w' !! ("./output", "x.pdf") = Some (Env.PdfFile d')
    /\ length (Pdf.pages d') = 3%nat.
Proof.
  destruct (odd_page_count_is_numbered ("./output", "temp_blank_x.pdf")
              ("./output", "x.pdf") "Helvetica" 10 [] None
              (Env.World {[ ("./output", "temp_blank_x.pdf")
                            := Env.PdfFile (Pdf.Document [Demo.pg 1; Demo.pg 2; Demo.pg 3] []) ]}
                         ∅ [])
              (Pdf.Document [Demo.pg 1; Demo.pg 2; Demo.pg 3] []))
    as (w' & d' & Hrun & Hwarn & Hout & Hlen & _).
  - by vm_compute.
  - reflexivity.
  - exists w', d'. split_and!; done.
Defined.

Example odd_page_labels :
  Pdf.top_level [] = [] /\
  map (fun p => Pdf.body p)
      (Spec.stamped_from "Helvetica" 10 1 0 [Demo.pg 1; Demo.pg 2; Demo.pg 3])
  = [Pdf.Merged (Pdf.Stream 1) (Pdf.Canvas [Pdf.DrawRightString (612 - 30) 30 "1 / 1" "Helvetica" 10]);
     Pdf.Merged (Pdf.Stream 2) (Pdf.Canvas [Pdf.DrawRightString (612 - 30) 30 "1 / 1" "Helvetica" 10]);
     Pdf.Merged (Pdf.Stream 3) (Pdf.Canvas [Pdf.DrawRightString (612 - 30) 30 "2 / 1" "Helvetica" 10])].
Proof. split; reflexivity. Qed.
Section ProcessPdf.
Import Pdf Env.

Lemma remove_if_exists (p : path) (h : exn -> M unit) (w : world) :
  (there ← exists_ p; when there (try_except (unlink p) h)) w
  = (inl tt, World (delete p (files w)) (dirs w) (console w)).
Proof.
  run. unfold unlink.
  destruct (files w !! p) as [f|] eqn:E.
  - rewrite bool_decide_eq_true_2 by done. by rewrite E.
  - rewrite bool_decide_eq_false_2 by (by intros [? ?]).
    rewrite delete_id by done. by destruct w.
Qed.

Lemma remove_temp_files_run (a b : path) (w : world) :
  pdfinsert.remove_temp_files [a; b] w
  = (inl tt, World (delete b (delete a (files w))) (dirs w) (console w)).
Proof.
  unfold pdfinsert.remove_temp_files. cbn [for_each].
  erewrite bind_ok by apply remove_if_exists.
  erewrite bind_ok by apply remove_if_exists.
  done.
Qed.

(** Whatever happens in the [try] block, the [finally] block has removed the
    two temporary files when [process_pdf] returns. *)
Lemma process_pdf_removes_temp (input_file : path) (output_dir backup_dir : string)
    (w : world) :
  let w' := snd (pdfinsert.process_pdf input_file output_dir backup_dir w) in
  files w' !! (output_dir, "temp_margin_" +:+ path_name input_file) = None
  /\ files w' !! (output_dir, "temp_blank_" +:+ path_name input_file) = None.
Proof.
  unfold pdfinsert.process_pdf.
  set (body := try_except _ _).
  set (tm := (output_dir, _)). set (tb := (output_dir, _)).
  cbv beta iota zeta delta [mbind M_bind bind try_finally].
  destruct (body w) as [r w1]. rewrite remove_temp_files_run.
  assert (tm <> tb) as Hne by (unfold tm, tb; intros [=]).
  destruct r as [[v|success output_file]|e]; cbn [snd files mret M_ret ret];
    by rewrite lookup_delete_eq, lookup_delete_ne, lookup_delete_eq.
Qed.
End ProcessPdf.

Section ProcessPdf2.
Import Pdf Env.

Lemma add_margin_ok (p : page) :
  parses p = true -> pdfinsert.add_margin p = inl (PerFile.with_margin p).
Proof.
  intros Hp. unfold pdfinsert.add_margin, merge_page, add_transformation. simpl.
  by rewrite Hp.
Qed.

Lemma add_margin_err (p : page) :
  parses p = false -> pdfinsert.add_margin p = inr ContentStreamError.
Proof.
  intros Hp. unfold pdfinsert.add_margin, merge_page. simpl. by rewrite Hp.
Qed.

Lemma margin_loop_ok (ps : list page) (wr : writer) (w : world) :
  Forall (fun p => parses p = true) ps ->
  for_each ps (fun p wr => q ← lift (pdfinsert.add_margin p); mret (add_page wr q)) wr w
  = (inl (Writer (wpages wr ++ map PerFile.with_margin ps) (woutline wr)), w).
Proof.
  intros H. revert wr. induction H as [|p ps Hp _ IH]; intros wr.
  - simpl. run. rewrite app_nil_r. by destruct wr.
  - erewrite for_each_cons_ok; cycle 1.
    { run. by rewrite add_margin_ok. }
    rewrite IH. simpl. by rewrite <- app_assoc.
Qed.

Lemma margin_loop_err (ps : list page) (wr : writer) (w : world) :
  Exists (fun p => parses p = false) ps ->
  for_each ps (fun p wr => q ← lift (pdfinsert.add_margin p); mret (add_page wr q)) wr w
  = (inr ContentStreamError, w).
Proof.
  intros H. revert wr. induction ps as [|p ps IH]; intros wr.
  - by apply Exists_nil in H.
  - destruct (parses p) eqn:Hp.
    + erewrite for_each_cons_ok; cycle 1.
      { run. by rewrite add_margin_ok. }
      apply IH. apply Exists_cons in H as [H|H]; [congruence|done].
    + erewrite for_each_cons_err; [done|]. run. by rewrite add_margin_err.
Qed.

Lemma blank_loop (ps : list page) (wr : writer) :
  foldl (fun wr p => pdfinsert.add_blank p wr) wr ps
  = Writer (wpages wr ++ PerFile.with_blanks ps) (woutline wr).
Proof.
  revert wr. induction ps as [|p ps IH]; intros wr; simpl.
  - unfold PerFile.with_blanks. simpl. rewrite app_nil_r. by destruct wr.
  - rewrite IH. unfold PerFile.with_blanks. simpl. by rewrite <- !app_assoc.
Qed.

Lemma copy2_ok (src dst : path) (f : file) (w : world) :
  files w !! src = Some f -> src <> dst ->
  copy2 src dst w = (inl tt, World (<[dst := f]> (files w)) (dirs w) (console w)).
Proof. intros H Hne. unfold copy2. rewrite H. by rewrite decide_False. Qed.

Lemma string_length_append (a b : string) :
  String.length (a +:+ b) = (String.length a + String.length b)%nat.
Proof. induction a as [|c a IH]; simpl; [done | by rewrite IH]. Qed.

Lemma temp_name_differs (pre name : string) : pre <> "" -> pre +:+ name <> name.
Proof.
  intros Hpre Heq. apply (f_equal String.length) in Heq.
  rewrite string_length_append in Heq. destruct pre; [done|]. simpl in Heq. lia.
Qed.

Lemma process_pdf_good (input_file : path) (output_dir backup_dir : string)
    (w : world) (d : document) :
  separate_dirs input_file output_dir backup_dir ->
  files w !! input_file = Some (PdfFile d) ->
  PerFile.processable d ->
  let filename := path_name input_file in
  let output_file := (output_dir, filename) in
  let backup_file := (backup_dir, filename) in
  let temp_margin_file := (output_dir, "temp_margin_" +:+ filename) in
  let temp_blank_file := (output_dir, "temp_blank_" +:+ filename) in
  exists ds,
    pdfinsert.process_pdf input_file output_dir backup_dir w
    = (inl (Some output_file),
       World (delete temp_blank_file
                (delete temp_margin_file
                   (<[output_file := PdfFile (PerFile.processed d)]>
                      (<[backup_file := PdfFile d]> (files w)))))
             ds
             (console w
              ++ InfoProcessing input_file backup_file
                 :: Spec.numbering_log temp_blank_file output_file (reader_outline d)
                      (Some d) (PerFile.intermediate d)
              ++ [InfoDone output_file])).
Proof.
  intros (Hio & Hib & Hob) Hfile [Hne Hparse]. intros.
  destruct input_file as [idir name]. simpl in *.
  unfold pdfinsert.process_pdf. cbn [path_name snd].
  fold filename output_file backup_file temp_margin_file temp_blank_file.
  unfold try_finally.
  set (body := try_except _ _).
  assert (exists ds, body w = (inl (pdfinsert.Completed true (Some output_file)),
              World (<[output_file := PdfFile (PerFile.processed d)]>
                      (<[temp_blank_file := PdfFile (PerFile.intermediate d)]>
                         (<[temp_margin_file :=
                              PdfFile (Document (map PerFile.with_margin (pages d)) [])]>
                            (<[backup_file := PdfFile d]> (files w)))))
                    ds
                    (console w
                     ++ InfoProcessing (idir, name) backup_file
                        :: Spec.numbering_log temp_blank_file output_file
                             (reader_outline d) (Some d) (PerFile.intermediate d)
                     ++ [InfoDone output_file]))) as [ds Hbody].
    { unfold body, try_except.
      eexists.
      erewrite bind_ok by (by run).
      erewrite bind_ok; cycle 1.
      { apply copy2_ok; [done|]. unfold backup_file. congruence. }
      erewrite bind_ok by (by run).
      erewrite bind_ok; cycle 1.
      { apply PdfReader_ok. cbn [files]. rewrite lookup_insert_ne; [done|].
        unfold backup_file. congruence. }
      destruct (length (pages d) =? 0)%nat eqn:El.
      { apply Nat.eqb_eq in El. by destruct (pages d). }
      erewrite bind_ok by (by apply margin_loop_ok).
      erewrite bind_ok by (by run).
      erewrite bind_ok by (by run).
      erewrite bind_ok; cycle 1.
      { apply PdfReader_ok. cbn [files]. by rewrite lookup_insert_eq. }
      cbn [pages written wpages new_writer app].
      rewrite length_map, Nat.eqb_refl. cbn [negb when].
      erewrite bind_ok by (by run).
      rewrite blank_loop.
      erewrite bind_ok by (by run).
      erewrite bind_ok; cycle 1.
      { apply add_page_numbers_ok. cbn [files written wpages woutline new_writer app].
        by rewrite lookup_insert_eq. }
      run. cbn [files dirs console]. rewrite <- !app_assoc. reflexivity. }
  exists ds.
  erewrite bind_ok; cycle 1.
  { rewrite Hbody. rewrite remove_temp_files_run. reflexivity. }
  run. cbn [files console dirs]. f_equal. f_equal.
  apply map_eq. intros k.
  assert (temp_margin_file <> temp_blank_file) by (unfold temp_margin_file, temp_blank_file; intros [=]).
  assert (temp_margin_file <> output_file).
  { unfold temp_margin_file, output_file. intros [= E]. by apply temp_name_differs in E. }
  assert (temp_blank_file <> output_file).
  { unfold temp_blank_file, output_file. intros [= E]. by apply temp_name_differs in E. }
  destruct (decide (k = temp_blank_file)) as [->|]; [by rewrite !lookup_delete_eq|].
  rewrite !(lookup_delete_ne _ temp_blank_file) by done.
  destruct (decide (k = temp_margin_file)) as [->|]; [by rewrite !lookup_delete_eq|].
  rewrite !(lookup_delete_ne _ temp_margin_file) by done.
  destruct (decide (k = output_file)) as [->|]; [by rewrite !lookup_insert_eq|].
  rewrite !(lookup_insert_ne _ output_file) by done.
  rewrite !(lookup_insert_ne _ temp_blank_file) by done.
  by rewrite !(lookup_insert_ne _ temp_margin_file) by done.
Qed.

Lemma process_pdf_raises (input_file : path) (output_dir backup_dir : string)
    (w : world) (f : file) (e : exn) :
  separate_dirs input_file output_dir backup_dir ->
  files w !! input_file = Some f ->
  (f = Garbage /\ e = PdfReadError
   \/ exists d, f = PdfFile d /\ pages d <> [] /\ e = ContentStreamError
                /\ Exists (fun p => parses p = false) (pages d)) ->
  let filename := path_name input_file in
  let output_file := (output_dir, filename) in
  let backup_file := (backup_dir, filename) in
  let temp_margin_file := (output_dir, "temp_margin_" +:+ filename) in
  let temp_blank_file := (output_dir, "temp_blank_" +:+ filename) in
  exists ds,
    pdfinsert.process_pdf input_file output_dir backup_dir w
    = (inl None,
       World (delete temp_blank_file
                (delete temp_margin_file
                   (<[output_file := f]> (<[backup_file := f]> (files w)))))
             ds
             (console w
              ++ [InfoProcessing input_file backup_file;
                  ErrProcessing input_file e;
                  InfoCopiedOriginal output_file])).
Proof.
  intros (Hio & Hib & Hob) Hfile Hcase. intros.
  destruct input_file as [idir name]. simpl in *.
  unfold pdfinsert.process_pdf. cbn [path_name snd].
  fold filename output_file backup_file temp_margin_file temp_blank_file.
  unfold try_finally.
  set (body := try_except _ _).
  assert (exists ds, body w = (inl (pdfinsert.Completed false None),
            World (<[output_file := f]> (<[backup_file := f]> (files w)))
                  ds
                  (console w
                   ++ [InfoProcessing (idir, name) backup_file;
                       ErrProcessing (idir, name) e;
                       InfoCopiedOriginal output_file]))) as [ds Hbody].
  { unfold body.
    set (attempt := mkdir backup_dir ≫= _).
    assert (attempt w
            = (inr e, World (<[backup_file := f]> (files w)) ({[backup_dir]} ∪ dirs w)
                        (console w ++ [InfoProcessing (idir, name) backup_file])))
      as Hattempt.
    { unfold attempt.
      erewrite bind_ok by (by run).
      erewrite bind_ok; cycle 1.
      { apply copy2_ok; [done|]. unfold backup_file. congruence. }
      erewrite bind_ok by (by run).
      destruct Hcase as [[-> ->]|(d & -> & Hne & -> & Hbad)].
      - erewrite bind_err; [done|]. unfold PdfReader. cbn [files].
        rewrite lookup_insert_ne by (unfold backup_file; congruence).
        unfold filename. by rewrite Hfile.
      - erewrite bind_ok; cycle 1.
        { apply PdfReader_ok. cbn [files]. rewrite lookup_insert_ne; [done|].
          unfold backup_file. congruence. }
        destruct (length (pages d) =? 0)%nat eqn:El.
        { apply Nat.eqb_eq in El. by destruct (pages d). }
        erewrite bind_err; [done|]. by apply margin_loop_err. }
    unfold try_except at 1. rewrite Hattempt.
    eexists.
    erewrite bind_ok by (by run).
    erewrite bind_ok; cycle 1.
    { unfold try_except.
      erewrite bind_ok by (by run).
      erewrite bind_ok; cycle 1.
      { apply copy2_ok.
        - cbn [files]. rewrite lookup_insert_ne; [done|]. unfold backup_file. congruence.
        - unfold output_file. congruence. }
      run. reflexivity. }
    run. cbn [files dirs console]. rewrite <- !app_assoc. reflexivity. }
  exists ds.
  erewrite bind_ok; cycle 1.
  { rewrite Hbody. rewrite remove_temp_files_run. reflexivity. }
  by run.
Qed.

Lemma process_pdf_empty (input_file : path) (output_dir backup_dir : string)
    (w : world) (d : document) :
  separate_dirs input_file output_dir backup_dir ->
  files w !! input_file = Some (PdfFile d) ->
  pages d = [] ->
  let filename := path_name input_file in
  let backup_file := (backup_dir, filename) in
  let temp_margin_file := (output_dir, "temp_margin_" +:+ filename) in
  let temp_blank_file := (output_dir, "temp_blank_" +:+ filename) in
  exists ds,
    pdfinsert.process_pdf input_file output_dir backup_dir w
    = (inl None,
       World (delete temp_blank_file
                (delete temp_margin_file (<[backup_file := PdfFile d]> (files w))))
             ds
             (console w
              ++ [InfoProcessing input_file backup_file; WarnEmptyFile filename])).
Proof.
  intros (Hio & Hib & Hob) Hfile Hempty. intros.
  destruct input_file as [idir name]. simpl in *.
  unfold pdfinsert.process_pdf. cbn [path_name snd].
  fold filename backup_file temp_margin_file temp_blank_file.
  unfold try_finally.
  set (body := try_except _ _).
  assert (body w = (inl (pdfinsert.Returned None),
            World (<[backup_file := PdfFile d]> (files w)) ({[backup_dir]} ∪ dirs w)
                  (console w
                   ++ [InfoProcessing (idir, name) backup_file;
                       WarnEmptyFile filename]))) as Hbody.
  { unfold body, try_except.
    erewrite bind_ok by (by run).
    erewrite bind_ok; cycle 1.
    { apply copy2_ok; [done|]. unfold backup_file. congruence. }
    erewrite bind_ok by (by run).
    erewrite bind_ok; cycle 1.
    { apply PdfReader_ok. cbn [files]. rewrite lookup_insert_ne; [done|].
      unfold backup_file. congruence. }
    rewrite Hempty. cbn [length Nat.eqb].
    run. cbn [files dirs console]. rewrite <- !app_assoc. reflexivity. }
  eexists.
  erewrite bind_ok; cycle 1.
  { rewrite Hbody. rewrite remove_temp_files_run. reflexivity. }
  by run.
Qed.
End ProcessPdf2.

Section MergeLoop.
Import Pdf Env.

Lemma foldl_add_page (ps : list page) (wr : writer) :
  foldl add_page wr ps = Writer (wpages wr ++ ps) (woutline wr).
Proof.
  revert wr. induction ps as [|p ps IH]; intros wr; simpl.
  - rewrite app_nil_r. by destruct wr.
  - rewrite IH. simpl. by rewrite <- app_assoc.
Qed.

Lemma graft_under_new_root (title : string) (target : Z) (ns f : list onode) :
  graft [length f] ns (graft [] [Node title target []] f)
  = f ++ [Node title target ns].
Proof. by apply (graft_under_new [] title target ns f). Qed.

Lemma new_root_valid (n : onode) (f : list onode) :
  Remap.valid_ref [length f] (f ++ [n]).
Proof. by apply (graft_new_valid [] n f). Qed.

Lemma merge_one_run (total idx : nat) (p : path) (s : pdfinsert.merge_state) (w : world) :
  exists log,
    pdfinsert.merge_one total (idx, p) s w
    = (inl (Merged.merge_step (files w) s p),
       World (files w) (dirs w) (console w ++ log)).
Proof.
  unfold pdfinsert.merge_one, Merged.merge_step, try_except.
  erewrite bind_ok by (by run).
  destruct (files w !! p) as [[|d]|] eqn:Ep.
  - erewrite bind_err; cycle 1.
    { unfold PdfReader. cbn [files]. by rewrite Ep. }
    run. cbn [files dirs console]. rewrite <- app_assoc. by eexists.
  - erewrite bind_ok by (by apply PdfReader_ok).
    destruct (length (pages d) =? 0)%nat eqn:Epages.
    + run. cbn [files dirs console]. rewrite <- app_assoc. by eexists.
    + unfold add_outline_item. cbn [default app].
      destruct (reader_outline d) as [|it its] eqn:Eo.
      * erewrite bind_ok by (by run).
        erewrite bind_ok by (by run).
        rewrite foldl_add_page.
        run. cbn [files dirs console wpages woutline children_at graft].
        unfold Remap.remap. cbn [map concat].
        rewrite <- !app_assoc. by eexists.
      * rewrite <- Eo. clear Eo it its.
        erewrite bind_ok; cycle 1.
        { erewrite bind_ok by (by run).
          apply add_nested_outline_io_run.
          cbn [default woutline children_at graft]. apply new_root_valid. }
        erewrite bind_ok by (by run).
        rewrite foldl_add_page.
        run. cbn [files dirs console wpages woutline default children_at].
        unfold id. rewrite graft_under_new_root.
        rewrite <- !app_assoc. by eexists.
  - erewrite bind_err; cycle 1.
    { unfold PdfReader. cbn [files]. by rewrite Ep. }
    run. cbn [files dirs console]. rewrite <- app_assoc. by eexists.
Qed.

Lemma merge_loop (total : nat) (ps : list path) (k : nat) (s : pdfinsert.merge_state)
    (w : world) :
  exists log,
    for_each (zip (seq k (length ps)) ps) (pdfinsert.merge_one total) s w
    = (inl (foldl (Merged.merge_step (files w)) s ps),
       World (files w) (dirs w) (console w ++ log)).
Proof.
  revert k s w. induction ps as [|p ps IH]; intros k s w.
  - exists []. simpl. run. rewrite app_nil_r. by destruct w.
  - cbn [length seq zip_with foldl].
    destruct (merge_one_run total k p s w) as [log1 H1].
    erewrite for_each_cons_ok by exact H1.
    destruct (IH (S k) (Merged.merge_step (files w) s p)
                (World (files w) (dirs w) (console w ++ log1))) as [log2 H2].
    exists (log1 ++ log2). rewrite H2. cbn [files dirs console].
    by rewrite <- app_assoc.
Qed.

Lemma merge_run (output_dir final_pdf_filename : string) (w : world) :
  exists log,
    pdfinsert.merge_pdfs_with_bookmarks output_dir final_pdf_filename w
    = (inl tt,
       World (Merged.files_after output_dir final_pdf_filename w) (dirs w)
             (console w ++ log
              ++ [Merged.last_message output_dir final_pdf_filename w])).
Proof.
  unfold pdfinsert.merge_pdfs_with_bookmarks.
  erewrite bind_ok by (by run).
  erewrite bind_ok by (by unfold glob_pdf).
  unfold Merged.files_after, Merged.last_message, Merged.merged, Merged.candidates.
  change (listdir output_dir {| files := files w; dirs := dirs w;
            console := console w ++ [InfoMergeStart output_dir] |})
    with (listdir output_dir w).
  set (cs := pdfinsert.sort_paths _).
  destruct cs as [|c cs'] eqn:Ec.
  - run. cbn [files dirs console]. exists [InfoMergeStart output_dir].
    by rewrite <- app_assoc.
  - rewrite <- Ec. clear Ec c cs'.
    erewrite bind_ok by (by run).
    destruct (merge_loop (length cs) cs 0 (pdfinsert.MergeState new_writer 0 0)
                (World (files w) (dirs w)
                   ((console w ++ [InfoMergeStart output_dir])
                    ++ [InfoMergeList (length cs)
                          (take 5 (map path_name cs)
                           ++ (if (5 <? length (map path_name cs))%nat
                               then ["..."] else []))])))
      as [log Hloop].
    cbn [files] in Hloop.
    erewrite bind_ok by exact Hloop.
    eexists (InfoMergeStart output_dir :: InfoMergeList _ _ :: log).
    destruct (_ =? 0).
    + run. cbn [files dirs console]. by rewrite <- !app_assoc.
    + unfold try_except. run. cbn [files dirs console]. by rewrite <- !app_assoc.
Qed.
End MergeLoop.

Section MergeFacts.
Import Pdf Env.

Lemma offsets_lookup (ds : list document) (k : Z) (i : nat) (d : document) :
  ds !! i = Some d ->
  Merged.offsets k ds !! i = Some (k + Z.of_nat (sum_list (map page_count (take i ds)))).
Proof.
  revert k i. induction ds as [|d0 ds IH]; intros k [|i]; simpl; try done.
  - intros _. f_equal. lia.
  - intros Hi. rewrite (IH _ _ Hi). f_equal. unfold page_count at 2. lia.
Qed.


(** Merging readable, non-empty files: one top-level entry per file, the
    pages of the files one after the other. *)
Lemma merge_readable (fs : gmap path file) (ps : list path) (ds : list document)
    (s : pdfinsert.merge_state) :
  Forall2 (fun p d => fs !! p = Some (PdfFile d) /\ pages d <> []) ps ds ->
  let s' := foldl (Merged.merge_step fs) s ps in
  top_level (woutline (pdfinsert.merged_writer s'))
  = top_level (woutline (pdfinsert.merged_writer s))
    ++ zip (map (fun p => Names.stem (path_name p)) ps)
           (Merged.offsets (pdfinsert.current_page_in_merged_pdf s) ds)
  /\ wpages (pdfinsert.merged_writer s')
     = wpages (pdfinsert.merged_writer s) ++ concat (map pages ds)
  /\ pdfinsert.current_page_in_merged_pdf s'
     = pdfinsert.current_page_in_merged_pdf s
       + Z.of_nat (sum_list (map page_count ds)).
Proof.
  intros H. revert s. induction H as [|p d ps ds [Hp Hd] _ IH]; intros s; simpl.
  - rewrite !app_nil_r. split_and!; [done | done | lia].
  - destruct (IH (Merged.merge_step fs s p)) as (Ho & Hpg & Hc).
    rewrite Ho, Hpg, Hc. unfold Merged.merge_step. rewrite Hp.
    destruct (length (pages d) =? 0)%nat eqn:El.
    { apply Nat.eqb_eq in El. by destruct (pages d). }
    cbn [pdfinsert.merged_writer pdfinsert.current_page_in_merged_pdf woutline wpages].
    unfold top_level. rewrite map_app. cbn [map].
    rewrite <- !app_assoc. split_and!; [done | done |].
    unfold page_count at 2. lia.
Qed.

(** Files that cannot be read or have no pages leave the merge where it is. *)
Lemma merge_nothing (fs : gmap path file) (ps : list path) (s : pdfinsert.merge_state) :
  Forall (fun p => forall d, fs !! p = Some (PdfFile d) -> pages d = []) ps ->
  foldl (Merged.merge_step fs) s ps = s.
Proof.
  induction 1 as [|p ps Hp _ IH]; simpl; [done|].
  rewrite <- IH at 2. f_equal. unfold Merged.merge_step.
  destruct (fs !! p) as [[|d]|] eqn:E; try done.
  by rewrite (Hp d eq_refl).
Qed.

End MergeFacts.

(** ** Fatal conditions *)

Section Fatal.
Import Pdf Env.

(** C9.  When no input PDF is found, [process_all_pdfs] of [pdfinsert] and
    [main] of [pdf_fill] print their diagnostic and return with the files as
    they were; when the merge of [pdfinsert] has merged no page (there is no
    candidate, or every candidate is unreadable or empty), it prints its
    diagnostic and creates no merged file. *)
Theorem fatal_conditions_write_nothing :
  (forall w : world,
      filter (fun n => Names.ends_with ".pdf" n = true) (listdir pdfinsert.INPUT_DIR w) = [] ->
      exists w',
        pdfinsert.process_all_pdfs w = (inl tt, w')
        /\ files w' = files w
        /\ console w'
           = console w ++ [InfoScan pdfinsert.INPUT_DIR; WarnNoInput pdfinsert.INPUT_DIR])
  /\ (forall (output_dir final_pdf_filename : string) (w : world),
        Forall (fun p => forall d, files w !! p = Some (PdfFile d) -> pages d = [])
               (Merged.candidates output_dir w) ->
        exists w' log,
          pdfinsert.merge_pdfs_with_bookmarks output_dir final_pdf_filename w = (inl tt, w')
          /\ files w' = files w
          /\ console w'
             = console w ++ log
               ++ [match Merged.candidates output_dir w with
                   | [] => WarnNothingToMerge output_dir
                   | _ :: _ => ErrNoPagesMerged
                   end])
  /\ (forall (FONT_NAME : string) (stringWidth : string -> string -> Q -> Q)
             (args : pdf_fill.arguments) (w : world),
        Names.rstrip_slash (pdf_fill.input args) ∈ dirs w ->
        filter (fun n => Names.ends_with ".pdf" n = true /\ Names.starts_with "." n = false)
               (listdir (Names.rstrip_slash (pdf_fill.input args)) w) = [] ->
        pdf_fill.main FONT_NAME stringWidth args w
        = (inl tt, World (files w) (dirs w)
                     (console w ++ [ErrNoPdfInDir (pdf_fill.input args)]))).
Proof.
  split_and!.
  - intros w Hnone. unfold pdfinsert.process_all_pdfs.
    do 4 (erewrite bind_ok by (by run)).
    erewrite bind_ok by (by unfold glob_pdf).
    unfold listdir in *. cbn [files] in *. rewrite Hnone. cbn [map].
    run. eexists. split_and!; [done | done |].
    cbn [console]. by rewrite <- app_assoc.
  - intros output_dir final_pdf_filename w Hnone.
    destruct (merge_run output_dir final_pdf_filename w) as [log Hrun].
    eexists _, log. split; [exact Hrun|]. cbn [files console].
    unfold Merged.files_after, Merged.last_message, Merged.merged.
    rewrite merge_nothing by done.
    destruct (Merged.candidates output_dir w); done.
  - intros FONT_NAME stringWidth args w Hdir Hnone.
    unfold pdf_fill.main, pdf_fill.find_input_files.
    erewrite bind_ok; cycle 1.
    { erewrite bind_ok; cycle 1.
      { unfold isdir. by rewrite bool_decide_eq_true_2. }
      cbv beta iota.
      erewrite bind_ok; cycle 1.
      { unfold pdf_fill.sorted_glob. by rewrite Hnone. }
      cbn [map Names.sorted Names.stable_sort foldr].
      by run. }
    by run.
Qed.

End Fatal.

Lemma fatal_conditions_write_nothing_witness :
  (exists w',
      pdfinsert.process_all_pdfs
        (Env.World {[ (pdfinsert.INPUT_DIR, "notes.txt") := Env.Garbage ]} ∅ [])
      = (inl tt, w')
      /\ Env.files w' = {[ (pdfinsert.INPUT_DIR, "notes.txt") := Env.Garbage ]})
  /\ (exists w' log,
        pdfinsert.merge_pdfs_with_bookmarks pdfinsert.OUTPUT_DIR pdfinsert.MERGED_FILENAME
          (Env.World {[ (pdfinsert.OUTPUT_DIR, "1-a.pdf") := Env.Garbage ]} ∅ [])
        = (inl tt, w')
        /\ Env.files w' = {[ (pdfinsert.OUTPUT_DIR, "1-a.pdf") := Env.Garbage ]}
        /\ Env.console w' = [] ++ log ++ [Env.ErrNoPagesMerged])
  /\ pdf_fill.main "Helvetica" Demo.demo_width (pdf_fill.Arguments "./PDFS" None false)
       (Env.World {[ ("./PDFS", "notes.txt") := Env.Garbage ]} {[ "./PDFS" ]} [])
     = (inl tt, Env.World {[ ("./PDFS", "notes.txt") := Env.Garbage ]} {[ "./PDFS" ]}
                  [Env.ErrNoPdfInDir "./PDFS"]).
Proof.
  destruct fatal_conditions_write_nothing as (Hall & Hmerge & Hfill).
  split; [|split].
  - destruct (Hall (Env.World {[ (pdfinsert.INPUT_DIR, "notes.txt") := Env.Garbage ]} ∅ []))
      as (w' & Hrun & Hfiles & _); [vm_compute; reflexivity|].
    exists w'. split; [exact Hrun | exact Hfiles].
  - destruct (Hmerge pdfinsert.OUTPUT_DIR pdfinsert.MERGED_FILENAME
                (Env.World {[ (pdfinsert.OUTPUT_DIR, "1-a.pdf") := Env.Garbage ]} ∅ []))
      as (w' & log & Hrun & Hfiles & Hlog).
    + vm_compute. constructor; [|constructor]. intros d Hd. discriminate Hd.
    + exists w', log. split; [exact Hrun | split; [exact Hfiles | exact Hlog]].
  - rewrite (Hfill "Helvetica" Demo.demo_width (pdf_fill.Arguments "./PDFS" None false)
               (Env.World {[ ("./PDFS", "notes.txt") := Env.Garbage ]} {[ "./PDFS" ]} [])).
    + reflexivity.
    + vm_compute. reflexivity.
    + vm_compute. reflexivity.
Defined.
(** ** Temporary files *)

Section SameFiles.
Import Pdf Env.

Lemma same_files_ret {A} (a : A) : same_files (mret a).
Proof. by intros w. Qed.

Lemma same_files_raise {A} (e : exn) : same_files (@raise A e).
Proof. by intros w. Qed.

Lemma same_files_lift {A} (r : A + exn) : same_files (lift r).
Proof. by intros w. Qed.

Lemma same_files_print (e : event) : same_files (print e).
Proof. by intros w. Qed.

Lemma same_files_PdfReader (p : path) : same_files (PdfReader p).
Proof. intros w. unfold PdfReader. by destruct (files w !! p) as [[|d]|]. Qed.

Lemma same_files_bind {A B} (m : M A) (k : A -> M B) :
  same_files m -> (forall a, same_files (k a)) -> same_files (m ≫= k).
Proof.
  intros Hm Hk w. specialize (Hm w). unfold mbind, M_bind, bind.
  destruct (m w) as [[a|e] w1]; cbn [snd] in *; [|done].
  by rewrite Hk.
Qed.

Lemma same_files_for_each {A S} (xs : list A) (body : A -> S -> M S) (s : S) :
  (forall x s, same_files (body x s)) -> same_files (for_each xs body s).
Proof.
  intros Hbody. revert s. induction xs as [|x xs IH]; intros s; cbn [for_each].
  - apply same_files_ret.
  - apply same_files_bind; [apply Hbody | apply IH].
Qed.

Lemma same_files_when (b : bool) (m : M unit) : same_files m -> same_files (when b m).
Proof. destruct b; [done | intros _; apply same_files_ret]. Qed.

Lemma writes_at_bind {A B} (p : path) (m : M A) (k : A -> M B) :
  same_files m -> (forall a, writes_at p (k a)) -> writes_at p (m ≫= k).
Proof.
  intros Hm Hk w. specialize (Hm w). unfold mbind, M_bind, bind.
  destruct (m w) as [[a|e] w1]; cbn [snd] in *; [|done].
  specialize (Hk a w1). destruct (k a w1) as [[b|e] w2]; by rewrite <- Hm.
Qed.

Lemma writes_at_write {A} (p : path) (wr : writer) (a : A) :
  writes_at p (write_pdf p wr ≫= fun _ => mret a).
Proof. intros w. run. cbn [files]. by eexists. Qed.

End SameFiles.

Section DeleteAll.
Import Pdf Env.

Lemma lookup_foldl_delete (l : list string) (m : gmap path file) (p : path) :
  foldl (fun m pf => delete (pdf_fill.to_path pf) m) m l !! p
  = if decide (p ∈ map pdf_fill.to_path l) then None else m !! p.
Proof.
  revert m. induction l as [|pf l IH]; intros m; cbn [foldl map].
  - rewrite decide_False; [done | set_solver].
  - rewrite IH. destruct (decide (p = pdf_fill.to_path pf)) as [->|Hne].
    + rewrite lookup_delete_eq. rewrite (decide_True (P := _ ∈ _ :: _)) by set_solver.
      by destruct (decide _).
    + rewrite lookup_delete_ne by done.
      destruct (decide (p ∈ map pdf_fill.to_path l)).
      * by rewrite decide_True by set_solver.
      * by rewrite decide_False by set_solver.
Qed.

End DeleteAll.

Section FillCleanup.
Import Pdf Env.
Variable FONT_NAME : string.
Variable stringWidth : string -> string -> Q -> Q.

Lemma number_page_same_files (merge_mode : bool) (total idx : nat)
    (s : pdf_fill.cursor * writer) :
  same_files (pdf_fill.number_page FONT_NAME stringWidth merge_mode total idx s).
Proof.
  unfold pdf_fill.number_page. destruct s as [c wr].
  destruct (if merge_mode then _ else _) as [c' warn].
  apply same_files_bind.
  { apply same_files_for_each. intros. apply same_files_print. }
  intros _. apply same_files_bind.
  { destruct (pdf_fill.current_file_name c') as [name|].
    - destruct (_ || _); [|apply same_files_ret].
      apply same_files_bind; [apply same_files_print | intros; apply same_files_ret].
    - apply same_files_bind; [apply same_files_print | intros; apply same_files_ret]. }
  intros part1. destruct (pdf_fill.draw_label _ _ _ _) as [wm log].
  apply same_files_bind.
  { apply same_files_for_each. intros. apply same_files_print. }
  intros _. destruct (wpages wr !! idx); [|apply same_files_raise].
  apply same_files_bind; [apply same_files_lift | intros; apply same_files_ret].
Qed.

Lemma add_page_numbers_same_files (wr : writer) (total : nat)
    (metadata : list (string * nat)) (single : string) :
  same_files (pdf_fill.add_page_numbers FONT_NAME stringWidth wr total metadata single).
Proof.
  unfold pdf_fill.add_page_numbers. destruct metadata as [|[name count] rest].
  - destruct (String.eqb single "").
    + apply same_files_bind; [apply same_files_print | intros; apply same_files_ret].
    + apply same_files_bind; [|intros; apply same_files_ret].
      apply same_files_for_each. intros. apply number_page_same_files.
  - apply same_files_bind; [|intros; apply same_files_ret].
    apply same_files_for_each. intros. apply number_page_same_files.
Qed.

(** [process_pdf] either raises with the files untouched or returns having
    written exactly its output. *)
Lemma process_pdf_files (input_path output_path : string) (add_nums : bool) :
  writes_at (pdf_fill.to_path output_path)
    (pdf_fill.process_pdf FONT_NAME stringWidth input_path output_path add_nums).
Proof.
  unfold pdf_fill.process_pdf.
  apply writes_at_bind; [apply same_files_PdfReader|]. intros reader.
  apply writes_at_bind.
  { apply same_files_for_each. intros p wr.
    apply same_files_bind; [apply same_files_lift | intros; apply same_files_ret]. }
  intros wr. apply writes_at_bind.
  { destruct add_nums; [apply add_page_numbers_same_files | apply same_files_ret]. }
  intros wr'. apply writes_at_write.
Qed.

Lemma prepare_one_registered (fs0 : gmap path file) (pdf_file : string)
    (s : pdf_fill.prepared) (w : world) :
  only_registered fs0 s w ->
  let r := pdf_fill.prepare_one FONT_NAME stringWidth pdf_file s w in
  only_registered fs0 (fst (fst r)) (snd r)
  /\ (snd (fst r) = None ->
      pdf_fill.processed_files (fst (fst r))
      = pdf_fill.processed_files s ++ [tmp_of pdf_file]).
Proof.
  intros Hinv. unfold pdf_fill.prepare_one. fold (tmp_of pdf_file).
  pose proof (process_pdf_files pdf_file (tmp_of pdf_file) false w) as Hp.
  destruct (pdf_fill.process_pdf _ _ _ _ _ w) as [[out|e] w1]; cbn [fst snd].
  - destruct Hp as [d Hd].
    assert (only_registered fs0
              (pdf_fill.Prepared (pdf_fill.total_pages s) (pdf_fill.page_counts s)
                 (pdf_fill.processed_files s ++ [tmp_of pdf_file])) w1) as Hinv1.
    { intros p Hp. cbn [pdf_fill.processed_files] in Hp.
      rewrite map_app, elem_of_app in Hp. cbn [map] in Hp.
      rewrite Hd. rewrite lookup_insert_ne by set_solver.
      apply Hinv. set_solver. }
    pose proof (same_files_PdfReader (pdf_fill.to_path (tmp_of pdf_file)) w1) as Hr.
    destruct (PdfReader _ w1) as [[rd|e] w2]; cbn [fst snd] in *.
    + split; [|done]. intros p Hp. rewrite Hr. by apply Hinv1.
    + split; [|done]. intros p Hp. rewrite Hr. by apply Hinv1.
  - split; [|done]. intros p Hp'. rewrite Hp. by apply Hinv.
Qed.

Lemma prepare_loop_registered (fs0 : gmap path file) (input_files : list string)
    (s : pdf_fill.prepared) (w : world) :
  only_registered fs0 s w ->
  let r := pdf_fill.for_each_keep input_files
             (pdf_fill.prepare_one FONT_NAME stringWidth) s w in
  only_registered fs0 (fst (fst r)) (snd r)
  /\ (snd (fst r) = None ->
      pdf_fill.processed_files (fst (fst r))
      = pdf_fill.processed_files s ++ map tmp_of input_files).
Proof.
  revert s w. induction input_files as [|f fs IH]; intros s w Hinv; cbn [pdf_fill.for_each_keep].
  - cbn [fst snd map]. by rewrite app_nil_r.
  - destruct (prepare_one_registered fs0 f s w Hinv) as [H1 H2].
    destruct (pdf_fill.prepare_one _ _ f s w) as [[s1 [e|]] w1]; cbn [fst snd] in *.
    + done.
    + destruct (IH s1 w1 H1) as [H3 H4]. split; [done|].
      intros Hnone. rewrite (H4 Hnone), (H2 eq_refl). cbn [map].
      by rewrite <- app_assoc.
Qed.

Lemma remove_processed_run (to_remove : list string) (w : world) :
  pdf_fill.remove_processed to_remove w
  = (inl tt,
     World (foldl (fun m pf => delete (pdf_fill.to_path pf) m) (files w) to_remove)
           (dirs w) (console w)).
Proof.
  unfold pdf_fill.remove_processed. revert w.
  induction to_remove as [|pf l IH]; intros w; cbn [for_each foldl].
  - by destruct w.
  - erewrite bind_ok by apply remove_if_exists. by rewrite IH.
Qed.

Lemma append_file_same_files (input_files : list string) (counts : list nat)
    (ip : nat * string) (s : writer * Z) :
  same_files (pdf_fill.append_file input_files counts ip s).
Proof.
  unfold pdf_fill.append_file. destruct ip as [i pf], s as [wr cur].
  destruct (input_files !! i); [|apply same_files_raise].
  apply same_files_bind; [apply same_files_PdfReader|]. intros rd.
  destruct (counts !! i); [apply same_files_ret | apply same_files_raise].
Qed.

(** When [merge_pdfs] is over, whether it returned or raised, no file other
    than the merged output is new or changed; the temporary files that were
    written are gone. *)
Lemma merge_pdfs_leaves_no_temp (input_files : list string) (output_path : string)
    (w : world) :
  let r := pdf_fill.merge_pdfs FONT_NAME stringWidth input_files output_path w in
  (forall p, p <> pdf_fill.to_path output_path ->
             files (snd r) !! p = files w !! p \/ files (snd r) !! p = None)
  /\ (forall u, fst r = inl u ->
      forall f, f ∈ input_files -> files (snd r) !! pdf_fill.to_path (tmp_of f) = None).
Proof.
  unfold pdf_fill.merge_pdfs.
  destruct (prepare_loop_registered (files w) input_files (pdf_fill.Prepared 0 [] []) w)
    as [Hreg Hall]; [done|].
  destruct (pdf_fill.for_each_keep _ _ _ w) as [[prep err] w1]. cbn [fst snd] in *.
  set (rest := for_each _ _ _ ≫= _).
  assert (writes_at (pdf_fill.to_path output_path) rest) as Hrest.
  { unfold rest. apply writes_at_bind.
    { apply same_files_for_each. intros. apply append_file_same_files. }
    intros s. apply writes_at_bind; [apply add_page_numbers_same_files|].
    intros wr. intros w0. run. cbn [files]. by eexists. }
  assert (exists r2 w2,
            (match err with Some e => (inr e, w1) | None => rest w1 end) = (r2, w2)
            /\ (forall p, p <> pdf_fill.to_path output_path ->
                          files w2 !! p = files w1 !! p)
            /\ (err <> None -> exists e, r2 = inr e)) as (r2 & w2 & -> & Hw2 & Herr).
  { destruct err as [e|].
    - eexists _, _. split; [done|]. split; [done|]. intros _. by eexists.
    - specialize (Hrest w1). destruct (rest w1) as [[u|e] w2].
      + destruct Hrest as [d Hd]. eexists _, _. split; [done|]. split; [|done].
        intros p Hp. rewrite Hd. by rewrite lookup_insert_ne.
      + eexists _, _. split; [done|]. split; [|done]. intros p _. by rewrite Hrest. }
  rewrite remove_processed_run. cbn [fst snd files].
  split.
  - intros p Hp. rewrite lookup_foldl_delete.
    destruct (decide _) as [Hin|Hout]; [by right|].
    left. rewrite Hw2 by done. by apply Hreg.
  - intros u [= ->] f Hf. rewrite lookup_foldl_delete.
    rewrite decide_True; [done|].
    destruct err as [e|]; [destruct Herr as [? ?]; done|].
    rewrite (Hall eq_refl). cbn [app].
    apply (list_elem_of_fmap_2 pdf_fill.to_path).
    by apply (list_elem_of_fmap_2 tmp_of).
Qed.
End FillCleanup.

(** C8.  When [process_pdf] of [pdfinsert] is over, on whichever path, its
    two temporary files do not exist.  When [merge_pdfs] of [pdf_fill] is
    over, whether it returned or raised, the only file that is new or changed
    is the merged output: the per-file temporary outputs it wrote are gone,
    and after a normal return none of them exists. *)
Theorem temporary_files_are_removed :
  (forall (input_file : Env.path) (output_dir backup_dir : string) (w : Env.world),
      let w' := snd (pdfinsert.process_pdf input_file output_dir backup_dir w) in
      Env.files w' !! (output_dir, "temp_margin_" +:+ Env.path_name input_file) = None
      /\ Env.files w' !! (output_dir, "temp_blank_" +:+ Env.path_name input_file) = None)
  /\ (forall (FONT_NAME : string) (stringWidth : string -> string -> Q -> Q)
             (input_files : list string) (output_path : string) (w : Env.world),
        let r := pdf_fill.merge_pdfs FONT_NAME stringWidth input_files output_path w in
        (forall p, p <> pdf_fill.to_path output_path ->
                   Env.files (snd r) !! p = Env.files w !! p
                   \/ Env.files (snd r) !! p = None)
        /\ (forall u, fst r = inl u ->
            forall f, f ∈ input_files ->
                      Env.files (snd r)
                      !! pdf_fill.to_path ("tmp_" +:+ Names.basename f) = None)).
Proof.
  split.
  - apply process_pdf_removes_temp.
  - intros. apply merge_pdfs_leaves_no_temp.
Qed.

Lemma temporary_files_are_removed_witness :
  Env.files (snd (pdf_fill.merge_pdfs "Helvetica" Demo.demo_width
                    ["./PDFS/1-report.pdf"; "./PDFS/10-report.pdf"; "./PDFS/2-report.pdf"]
                    "./output/PDFS_merged.pdf" Demo.reports))
  !! pdf_fill.to_path ("tmp_" +:+ Names.basename "./PDFS/10-report.pdf") = None.
Proof.
  destruct temporary_files_are_removed as [_ Hfill].
  destruct (Hfill "Helvetica" Demo.demo_width
              ["./PDFS/1-report.pdf"; "./PDFS/10-report.pdf"; "./PDFS/2-report.pdf"]
              "./output/PDFS_merged.pdf" Demo.reports) as [_ Hgone].
  refine (Hgone tt _ "./PDFS/10-report.pdf" _).
  - vm_compute. reflexivity.
  - apply list_elem_of_In. right. left. reflexivity.
Defined.

(** ** The outline of the merged document *)

Section MergedOutline.
Import Pdf Env.


Lemma sum_pages_pos (ds : list document) :
  ds <> [] -> Forall (fun d => pages d <> []) ds ->
  (0 < sum_list (map page_count ds))%nat.
Proof.
  intros Hne H. destruct H as [|d ds Hd _]; [done|]. simpl.
  unfold page_count at 1. destruct (pages d); [done|]. simpl. lia.
Qed.

(** The merge of [pdfinsert] over readable, non-empty files. *)
Lemma pdfinsert_merged_outline (output_dir final_pdf_filename : string) (w : world)
    (ds : list document) :
  ds <> [] ->
  Forall2 (fun p d => files w !! p = Some (PdfFile d) /\ pages d <> [])
          (Merged.candidates output_dir w) ds ->
  exists m : document,
    files (snd (pdfinsert.merge_pdfs_with_bookmarks output_dir final_pdf_filename w))
      !! (pdfinsert.PROJECT_DIR, final_pdf_filename) = Some (PdfFile m)
    /\ top_level (outline m)
       = zip (map (fun p => Names.stem (path_name p)) (Merged.candidates output_dir w))
             (Merged.offsets 0 ds)
    /\ pages m = concat (map pages ds).
Proof.
  intros Hne Hall.
  destruct (merge_run output_dir final_pdf_filename w) as [log Hrun].
  rewrite Hrun. cbn [snd files].
  destruct (merge_readable (files w) _ ds (pdfinsert.MergeState new_writer 0 0) Hall)
    as (Ho & Hp & Hc).
  cbn [pdfinsert.merged_writer pdfinsert.current_page_in_merged_pdf
       new_writer woutline wpages top_level map app] in Ho, Hp, Hc.
  unfold Merged.files_after, Merged.merged.
  set (cs := Merged.candidates output_dir w) in *.
  assert (0 < sum_list (map page_count ds))%nat as Hpos.
  { apply sum_pages_pos; [done|].
    clear -Hall. induction Hall as [|? ? ? ? [_ ?] _ IH]; by constructor. }
  destruct cs as [|c cs'] eqn:Ec.
  { apply Forall2_nil_inv_l in Hall. done. }
  rewrite <- Ec in *. cbv zeta. rewrite Hc.
  destruct (Z.eqb_spec (0 + Z.of_nat (sum_list (map page_count ds))) 0) as [|_]; [lia|].
  eexists. rewrite lookup_insert_eq. split; [done|].
  cbn [written outline pages]. by split.
Qed.

End MergedOutline.

Section FillMerge.
Import Pdf Env.
Variable FONT_NAME : string.
Variable stringWidth : string -> string -> Q -> Q.

Lemma resize_fits (p : page) :
  Filled.fits p ->
  pdf_fill.resize_and_position_page p = inl (Filled.resized p)
  /\ parses (Filled.resized p) = true.
Proof.
  intros [Hw Hp]. unfold Filled.resized, pdf_fill.resize_and_position_page,
    pdf_fill.placement, add_transformation.
  cbn [pdf_fill.A4]. rewrite Hw, Hp. done.
Qed.

Lemma resize_loop (ps : list page) (wr : writer) (w : world) :
  Forall Filled.fits ps ->
  for_each ps
    (fun p wr => modified_page ← lift (pdf_fill.resize_and_position_page p);
                 mret (add_page wr modified_page)) wr w
  = (inl (Writer (wpages wr ++ map Filled.resized ps) (woutline wr)), w).
Proof.
  intros H. revert wr. induction H as [|p ps Hp _ IH]; intros wr.
  - simpl. run. rewrite app_nil_r. by destruct wr.
  - erewrite for_each_cons_ok; cycle 1.
    { run. by rewrite (proj1 (resize_fits p Hp)). }
    rewrite IH. simpl. by rewrite <- app_assoc.
Qed.




Lemma print_all (log : list event) (w : world) :
  for_each log (fun e _ => print e) tt w
  = (inl tt, World (files w) (dirs w) (console w ++ log)).
Proof.
  revert w. induction log as [|e log IH]; intros w; cbn [for_each].
  - rewrite app_nil_r. by destruct w.
  - erewrite bind_ok by (by run). rewrite IH. cbn [files dirs console].
    by rewrite <- app_assoc.
Qed.








End FillMerge.



(** ** The batch of [pdfinsert] *)

Section BatchLoop.
Import Pdf Env.

Lemma forallb_parses (ps : list page) :
  forallb parses ps = true <-> Forall (fun p => parses p = true) ps.
Proof. rewrite forallb_forall, Forall_forall. by setoid_rewrite list_elem_of_In. Qed.

Lemma not_forallb_parses (ps : list page) :
  forallb parses ps = false -> Exists (fun p => parses p = false) ps.
Proof.
  induction ps as [|p ps IH]; simpl; [done|].
  destruct (parses p) eqn:Hp; simpl; [|by left]. intros H. right. by apply IH.
Qed.

Lemma separate_batch_dirs (n : string) :
  separate_dirs (pdfinsert.INPUT_DIR, n) pdfinsert.OUTPUT_DIR pdfinsert.BACKUP_DIR.
Proof. by split_and!. Qed.

(** [process_pdf] on an input that exists, in terms of [Batch]. *)
Lemma process_pdf_step (n : string) (f : file) (w : world) :
  files w !! (pdfinsert.INPUT_DIR, n) = Some f ->
  exists ds log,
    pdfinsert.process_pdf (pdfinsert.INPUT_DIR, n) pdfinsert.OUTPUT_DIR
      pdfinsert.BACKUP_DIR w
    = (inl (if Batch.succeeds f then Some (pdfinsert.OUTPUT_DIR, n) else None),
       World (Batch.step (files w) n) ds (console w ++ log))
    /\ (forall e, Batch.raises f = Some e ->
          ErrProcessing (pdfinsert.INPUT_DIR, n) e ∈ log
          /\ InfoCopiedOriginal (pdfinsert.OUTPUT_DIR, n) ∈ log).
Proof.
  intros Hf. unfold Batch.step. rewrite Hf.
  destruct f as [|d].
  - destruct (process_pdf_raises (pdfinsert.INPUT_DIR, n) pdfinsert.OUTPUT_DIR
                pdfinsert.BACKUP_DIR w Garbage PdfReadError) as [ds H];
      [apply separate_batch_dirs | done | by left |].
    eexists _, _. split; [exact H|]. intros e [= <-]. set_solver.
  - cbn [Batch.succeeds Batch.raises Batch.output_of].
    destruct (length (pages d) =? 0)%nat eqn:El; cbn [negb andb].
    + apply Nat.eqb_eq in El.
      destruct (process_pdf_empty (pdfinsert.INPUT_DIR, n) pdfinsert.OUTPUT_DIR
                  pdfinsert.BACKUP_DIR w d) as [ds H];
        [apply separate_batch_dirs | done | by destruct (pages d) |].
      eexists _, _. split; [exact H|]. done.
    + apply Nat.eqb_neq in El.
      destruct (forallb parses (pages d)) eqn:Ep; cbn [negb].
      * destruct (process_pdf_good (pdfinsert.INPUT_DIR, n) pdfinsert.OUTPUT_DIR
                    pdfinsert.BACKUP_DIR w d) as [ds H];
          [apply separate_batch_dirs | done | |].
        { split; [by destruct (pages d) | by apply forallb_parses]. }
        eexists _, _. split; [exact H|]. done.
      * destruct (process_pdf_raises (pdfinsert.INPUT_DIR, n) pdfinsert.OUTPUT_DIR
                    pdfinsert.BACKUP_DIR w (PdfFile d) ContentStreamError) as [ds H];
          [apply separate_batch_dirs | done | |].
        { right. exists d. split_and!; [done | by destruct (pages d) | done |].
          by apply not_forallb_parses. }
        eexists _, _. split; [exact H|]. intros e [= <-]. set_solver.
Qed.

Lemma step_input (fs : gmap path file) (n m : string) :
  Batch.step fs n !! (pdfinsert.INPUT_DIR, m) = fs !! (pdfinsert.INPUT_DIR, m).
Proof.
  unfold Batch.step. destruct (fs !! (pdfinsert.INPUT_DIR, n)) as [f|]; [|done].
  rewrite !lookup_delete_ne by done.
  destruct (Batch.output_of f); by rewrite !lookup_insert_ne by done.
Qed.

Lemma tally_ext (fs1 fs2 : gmap path file) (acc : nat * list string) (ns : list string) :
  (forall m, fs1 !! (pdfinsert.INPUT_DIR, m) = fs2 !! (pdfinsert.INPUT_DIR, m)) ->
  foldl (Batch.tally fs1) acc ns = foldl (Batch.tally fs2) acc ns.
Proof.
  intros H. revert acc. induction ns as [|n ns IH]; intros acc; simpl; [done|].
  rewrite IH. unfold Batch.tally. by rewrite H.
Qed.

Lemma step_output_succeeds (fs : gmap path file) (n : string) (f : file) :
  fs !! (pdfinsert.INPUT_DIR, n) = Some f -> Batch.succeeds f = true ->
  is_Some (Batch.step fs n !! (pdfinsert.OUTPUT_DIR, n)).
Proof.
  intros Hf Hs. unfold Batch.step. rewrite Hf.
  rewrite !lookup_delete_ne; cycle 1.
  { intros [= E]. by apply temp_name_differs in E. }
  { intros [= E]. by apply temp_name_differs in E. }
  destruct f as [|d]; [done|]. cbn in *.
  apply andb_true_iff in Hs as [Hl Hp]. apply negb_true_iff in Hl. rewrite Hl, Hp.
  by rewrite lookup_insert_eq.
Qed.

Lemma process_one_run (n : string) (f : file) (acc : nat * list string) (w : world) :
  files w !! (pdfinsert.INPUT_DIR, n) = Some f ->
  exists ds log,
    pdfinsert.process_one (pdfinsert.INPUT_DIR, n) acc w
    = (inl (Batch.tally (files w) acc n),
       World (Batch.step (files w) n) ds (console w ++ log))
    /\ (forall e, Batch.raises f = Some e ->
          ErrProcessing (pdfinsert.INPUT_DIR, n) e ∈ log
          /\ InfoCopiedOriginal (pdfinsert.OUTPUT_DIR, n) ∈ log).
Proof.
  intros Hf. destruct (process_pdf_step n f w Hf) as (ds & log & Hrun & Hlog).
  exists ds, log. split; [|done].
  unfold pdfinsert.process_one, Batch.tally. destruct acc as [count failed].
  rewrite Hf. erewrite bind_ok by exact Hrun.
  destruct (Batch.succeeds f) eqn:Hs; [|by run].
  unfold exists_. run. cbn [files].
  by rewrite bool_decide_eq_true_2 by (by eapply step_output_succeeds).
Qed.

(** The loop of [process_all_pdfs] over inputs that exist. *)
Lemma batch_loop (ns : list string) (acc : nat * list string) (w : world) :
  Forall (fun n => is_Some (files w !! (pdfinsert.INPUT_DIR, n))) ns ->
  exists ds log,
    for_each (map (fun n => (pdfinsert.INPUT_DIR, n)) ns) pdfinsert.process_one acc w
    = (inl (foldl (Batch.tally (files w)) acc ns),
       World (foldl Batch.step (files w) ns) ds (console w ++ log))
    /\ (forall n f e, n ∈ ns -> files w !! (pdfinsert.INPUT_DIR, n) = Some f ->
          Batch.raises f = Some e ->
          ErrProcessing (pdfinsert.INPUT_DIR, n) e ∈ log
          /\ InfoCopiedOriginal (pdfinsert.OUTPUT_DIR, n) ∈ log).
Proof.
  intros H. revert acc w H. induction ns as [|n ns IH]; intros acc w H.
  - exists (dirs w), []. split; [|set_solver].
    cbn. rewrite app_nil_r. by destruct w.
  - apply Forall_cons in H as [[f Hf] Hrest].
    destruct (process_one_run n f acc w Hf) as (ds1 & log1 & H1 & Hlog1).
    destruct (IH (Batch.tally (files w) acc n)
                (World (Batch.step (files w) n) ds1 (console w ++ log1)))
      as (ds2 & log2 & H2 & Hlog2).
    { cbn [files]. eapply Forall_impl; [exact Hrest|]. intros m Hm.
      by rewrite step_input. }
    exists ds2, (log1 ++ log2). split.
    + cbn [map]. erewrite for_each_cons_ok by exact H1. rewrite H2.
      cbn [files console foldl]. rewrite <- app_assoc.
      by rewrite (tally_ext (Batch.step (files w) n) (files w)) by apply step_input.
    + intros m g e Hm Hg He. rewrite !elem_of_app.
      apply elem_of_cons in Hm as [->|Hm].
      * rewrite Hf in Hg. injection Hg as <-. destruct (Hlog1 e He). auto.
      * destruct (Hlog2 m g e Hm) as [? ?]; [cbn [files]; by rewrite step_input | done |].
        auto.
Qed.

Lemma temp_margin_is_temp (k : string) :
  Names.starts_with "temp_" ("temp_margin_" +:+ k) = true.
Proof. reflexivity. Qed.

Lemma temp_blank_is_temp (k : string) :
  Names.starts_with "temp_" ("temp_blank_" +:+ k) = true.
Proof. reflexivity. Qed.

Lemma step_output_preserve (fs : gmap path file) (k m : string) :
  m <> k -> Names.starts_with "temp_" m = false ->
  Batch.step fs k !! (pdfinsert.OUTPUT_DIR, m) = fs !! (pdfinsert.OUTPUT_DIR, m).
Proof.
  intros Hne Hm. unfold Batch.step.
  destruct (fs !! (pdfinsert.INPUT_DIR, k)) as [f|]; [|done].
  rewrite !lookup_delete_ne; cycle 1.
  { intros [= <-]. by rewrite temp_margin_is_temp in Hm. }
  { intros [= <-]. by rewrite temp_blank_is_temp in Hm. }
  destruct (Batch.output_of f).
  - rewrite lookup_insert_ne by congruence. by rewrite lookup_insert_ne.
  - by rewrite lookup_insert_ne.
Qed.

Lemma foldl_step_input (fs : gmap path file) (ns : list string) (m : string) :
  foldl Batch.step fs ns !! (pdfinsert.INPUT_DIR, m) = fs !! (pdfinsert.INPUT_DIR, m).
Proof.
  revert fs. induction ns as [|n ns IH]; intros fs; simpl; [done|].
  by rewrite IH, step_input.
Qed.

Lemma foldl_step_output_other (fs : gmap path file) (ns : list string) (m : string) :
  m ∉ ns -> Names.starts_with "temp_" m = false ->
  foldl Batch.step fs ns !! (pdfinsert.OUTPUT_DIR, m) = fs !! (pdfinsert.OUTPUT_DIR, m).
Proof.
  revert fs. induction ns as [|n ns IH]; intros fs Hm Ht; simpl; [done|].
  rewrite IH by set_solver. apply step_output_preserve; [set_solver | done].
Qed.

Lemma step_output_self (fs : gmap path file) (n : string) (f : file) :
  fs !! (pdfinsert.INPUT_DIR, n) = Some f ->
  Batch.step fs n !! (pdfinsert.OUTPUT_DIR, n)
  = match Batch.output_of f with
    | Some o => Some o
    | None => fs !! (pdfinsert.OUTPUT_DIR, n)
    end.
Proof.
  intros Hf. unfold Batch.step. rewrite Hf.
  rewrite !lookup_delete_ne; cycle 1.
  { intros [= E]. by apply temp_name_differs in E. }
  { intros [= E]. by apply temp_name_differs in E. }
  destruct (Batch.output_of f).
  - by rewrite lookup_insert_eq.
  - by rewrite lookup_insert_ne.
Qed.

Lemma foldl_step_output_self (fs : gmap path file) (ns : list string) (n : string)
    (f : file) :
  NoDup ns -> n ∈ ns -> Names.starts_with "temp_" n = false ->
  fs !! (pdfinsert.INPUT_DIR, n) = Some f ->
  foldl Batch.step fs ns !! (pdfinsert.OUTPUT_DIR, n)
  = match Batch.output_of f with
    | Some o => Some o
    | None => fs !! (pdfinsert.OUTPUT_DIR, n)
    end.
Proof.
  revert fs. induction ns as [|k ns IH]; intros fs Hnd Hn Ht Hf; [set_solver|].
  apply NoDup_cons in Hnd as [Hk Hnd]. simpl.
  destruct (decide (n = k)) as [->|Hne].
  - rewrite foldl_step_output_other by done. by apply step_output_self.
  - rewrite IH; [|done|set_solver|done|by rewrite step_input].
    by rewrite step_output_preserve.
Qed.

Lemma listdir_elem (d n : string) (w : world) :
  n ∈ listdir d w <-> is_Some (files w !! (d, n)).
Proof.
  unfold listdir. rewrite list_elem_of_omap. split.
  - intros ([[d' n'] f] & Hin & Heq). apply elem_of_map_to_list in Hin.
    cbn in Heq. destruct (decide (d' = d)) as [->|]; [|done].
    injection Heq as ->. by eexists.
  - intros [f Hf]. exists ((d, n), f). split; [by apply elem_of_map_to_list|].
    cbn. by rewrite decide_True.
Qed.

Lemma sort_paths_elem (p : path) (ps : list path) :
  p ∈ pdfinsert.sort_paths ps <-> p ∈ ps.
Proof.
  unfold pdfinsert.sort_paths. by rewrite <- (stable_sort_perm _ ps).
Qed.


Lemma listdir_NoDup (d : string) (w : world) : NoDup (listdir d w).
Proof.
  unfold listdir.
  pose proof (NoDup_fst_map_to_list (files w)) as Hnd.
  induction (map_to_list (files w)) as [|[[d' n] f] l IH]; [constructor|].
  cbn [map fst] in Hnd. apply NoDup_cons in Hnd as [Hnotin Hnd].
  cbn [omap list_omap fst snd].
  destruct (decide (d' = d)) as [->|]; [|by apply IH].
  apply NoDup_cons. split; [|by apply IH].
  intros ([[d2 n2] f2] & Hin & Heq)%list_elem_of_omap. cbn in Heq.
  destruct (decide (d2 = d)) as [->|]; [|done]. injection Heq as ->.
  apply Hnotin. apply list_elem_of_fmap. by exists ((d, n), f2).
Qed.



Lemma processable_succeeds (d : document) :
  PerFile.processable d ->
  Batch.succeeds (PdfFile d) = true
  /\ Batch.output_of (PdfFile d) = Some (PdfFile (PerFile.processed d)).
Proof.
  intros [Hne Hp]. apply forallb_parses in Hp. cbn. rewrite Hp.
  destruct (pages d); [done|]. done.
Qed.

Lemma tally_all_good (fs : gmap path file) (ns : list string) (acc : nat * list string) :
  Forall (fun n => exists f, fs !! (pdfinsert.INPUT_DIR, n) = Some f
                             /\ Batch.succeeds f = true) ns ->
  foldl (Batch.tally fs) acc ns = ((fst acc + length ns)%nat, snd acc).
Proof.
  intros H. revert acc. induction H as [|n ns (f & Hf & Hs) _ IH]; intros [c l]; simpl.
  - by rewrite Nat.add_0_r.
  - rewrite IH. unfold Batch.tally. rewrite Hf, Hs. simpl. f_equal. lia.
Qed.

End BatchLoop.

Section BatchTheorem.
Import Pdf Env.

Lemma listdir_files (d : string) (w : world) (ds : gset string) (c : list event) :
  listdir d (World (files w) ds c) = listdir d w.
Proof. reflexivity. Qed.

Lemma process_all_pdfs_found (w : world) (ns : list string) :
  ns = filter (fun n => Names.ends_with ".pdf" n = true) (listdir pdfinsert.INPUT_DIR w) ->
  ns <> [] ->
  pdfinsert.process_all_pdfs w
  = ('(processed_files_count, failed_files) ←
       for_each (map (fun n => (pdfinsert.INPUT_DIR, n)) ns) pdfinsert.process_one
         (0%nat, []);
     print (InfoSummary processed_files_count (length failed_files));;
     when (negb (length failed_files =? 0)%nat) (print (ErrFailedList failed_files));;
     if (0 <? processed_files_count)%nat
     then pdfinsert.merge_pdfs_with_bookmarks pdfinsert.OUTPUT_DIR pdfinsert.MERGED_FILENAME
     else print ErrSkipMerge)
      (World (files w)
         ({[pdfinsert.BACKUP_DIR]} ∪ ({[pdfinsert.OUTPUT_DIR]}
                                      ∪ ({[pdfinsert.INPUT_DIR]} ∪ dirs w)))
         ((console w ++ [InfoScan pdfinsert.INPUT_DIR]) ++ [InfoFound (length ns)])).
Proof.
  intros Hns Hne. unfold pdfinsert.process_all_pdfs.
  do 4 (erewrite bind_ok by (by run)).
  erewrite bind_ok by (by unfold glob_pdf).
  cbn [files dirs console]. rewrite listdir_files, <- Hns.
  destruct ns as [|n0 ns0]; [done|].
  cbn [map]. erewrite bind_ok by (by run).
  cbn [files dirs console length]. by rewrite length_map.
Qed.

End BatchTheorem.


(** * Further properties *)

(** ** The bookmark walk *)

Section WalkFacts.
Import Pdf Env.

Lemma silent_titles (reader : Z -> option Z) (f : Z -> Z) (item : src_item) :
  Remap.diagnostics_item reader item = [] ->
  Remap.all_titles (Remap.remap_item reader f item) = Source.entry_titles item.
Proof.
  induction item as [items IH|title page_object children IH|] using src_item_nested_ind;
    simpl.
  - intros Hd. unfold Remap.all_titles.
    induction IH as [|x r Hx _ IHr]; simpl in *; [done|].
    apply app_eq_nil in Hd as [Hd1 Hd2].
    rewrite map_app, concat_app. f_equal; [by apply Hx | by apply IHr].
  - destruct (reader page_object) as [i|]; [|done].
    intros Hd. unfold Remap.all_titles. simpl. rewrite app_nil_r. f_equal.
    induction IH as [|x r Hx _ IHr]; simpl in *; [done|].
    apply app_eq_nil in Hd as [Hd1 Hd2].
    rewrite map_app, concat_app. f_equal; [by apply Hx | by apply IHr].
  - done.
Qed.

Lemma silent_titles_list (reader : Z -> option Z) (f : Z -> Z) (items : list src_item) :
  Remap.diagnostics reader items = [] ->
  Remap.all_titles (Remap.remap reader f items) = Source.titles items.
Proof.
  unfold Remap.diagnostics, Remap.remap, Remap.all_titles, Source.titles.
  induction items as [|x r IH]; simpl; [done|].
  intros Hd. apply app_eq_nil in Hd as [Hd1 Hd2].
  rewrite map_app, concat_app. f_equal; [by apply silent_titles | by apply IH].
Qed.

Lemma walk_flat_items (reader : Z -> option Z) (f : Z -> Z) (items : list src_item) :
  Forall (fun item =>
            forall (parent : option oref) (st : writer * list event),
              pdfinsert.add_nested_outline_item reader item parent f st
              = fold_left (fun st it => pdfinsert.add_nested_outline_item reader it parent f st)
                  (Source.flatten_item item) st) items ->
  forall (parent : option oref) (st : writer * list event),
    fold_left (fun st it => pdfinsert.add_nested_outline_item reader it parent f st) items st
    = fold_left (fun st it => pdfinsert.add_nested_outline_item reader it parent f st)
        (Source.flatten items) st.
Proof.
  unfold Source.flatten.
  induction 1 as [|x r Hx _ IH]; intros parent st; simpl; [done|].
  by rewrite fold_left_app, <- Hx, IH.
Qed.

Lemma walk_flat_item (reader : Z -> option Z) (f : Z -> Z) (item : src_item) :
  forall (parent : option oref) (st : writer * list event),
    pdfinsert.add_nested_outline_item reader item parent f st
    = fold_left (fun st it => pdfinsert.add_nested_outline_item reader it parent f st)
        (Source.flatten_item item) st.
Proof.
  induction item as [items IH|title page_object children IH|] using src_item_nested_ind;
    intros parent st.
  - simpl. by apply walk_flat_items.
  - simpl. destruct (reader page_object) as [i|]; [|done].
    by apply walk_flat_items.
  - done.
Qed.

(** X1.  The walk does not see how the source outline nests its lists: the
    entries of a nested list are added in place, under the parent of the list
    itself, so an outline and the same outline with every nested list spliced
    into its surroundings give the same writer and the same log. *)
Theorem nested_lists_are_walked_in_place (reader : Z -> option Z)
    (page_idx_transform_func : Z -> Z) (target_writer : writer)
    (target_parent : option oref) (log : list event) :
  (forall source_items : list src_item,
      pdfinsert.add_nested_outline reader source_items target_writer target_parent
        page_idx_transform_func log
      = pdfinsert.add_nested_outline reader (Source.flatten source_items) target_writer
          target_parent page_idx_transform_func log)
  /\ (forall before inner after : list src_item,
        pdfinsert.add_nested_outline reader (before ++ SList inner :: after)
          target_writer target_parent page_idx_transform_func log
        = pdfinsert.add_nested_outline reader (before ++ inner ++ after)
            target_writer target_parent page_idx_transform_func log).
Proof.
  split.
  - intros source_items. unfold pdfinsert.add_nested_outline.
    apply walk_flat_items, Forall_forall. intros item _. apply walk_flat_item.
  - intros before inner after. unfold pdfinsert.add_nested_outline.
    rewrite !fold_left_app. reflexivity.
Qed.

(** X2.  A walk that prints no warning loses no bookmark: the items it adds
    beneath the parent carry the titles of all source entries, at every
    depth, in source order; the pages of the writer are not touched. *)
Theorem silent_walk_keeps_every_entry (reader : Z -> option Z)
    (page_idx_transform_func : Z -> Z) (source_items : list src_item)
    (target_writer : writer) (target_parent : option oref)
    (Hparent : Remap.valid_ref (default [] target_parent) (woutline target_writer))
    (Hsilent : snd (pdfinsert.add_nested_outline reader source_items target_writer
                      target_parent page_idx_transform_func []) = []) :
  let result := fst (pdfinsert.add_nested_outline reader source_items target_writer
                       target_parent page_idx_transform_func []) in
  exists added : list onode,
    children_at (default [] target_parent) (woutline result)
    = children_at (default [] target_parent) (woutline target_writer) ++ added
    /\ Remap.all_titles added = Source.titles source_items
    /\ wpages result = wpages target_writer.
Proof.
  rewrite walk_spec in Hsilent |- * by done. simpl in Hsilent. cbn [fst].
  exists (Remap.remap reader page_idx_transform_func source_items).
  split; [by apply children_at_graft|].
  split; [by apply silent_titles_list | done].
Qed.
End WalkFacts.

Lemma silent_walk_keeps_every_entry_witness :
  exists added : list Pdf.onode,
    Pdf.children_at [0%nat]
      (Pdf.woutline (fst (pdfinsert.add_nested_outline (Pdf.get_page_number Demo.doc1)
                            [Pdf.SEntry "A" 0 [Pdf.SEntry "A1" 1 []];
                             Pdf.SList [Pdf.SEntry "B" 1 []]]
                            (Pdf.Writer [] [Pdf.Node "file" 0 []]) (Some [0%nat])
                            (fun i => i * 2) [])))
    = [] ++ added
    /\ Remap.all_titles added = ["A"; "A1"; "B"].
Proof.
  destruct (silent_walk_keeps_every_entry (Pdf.get_page_number Demo.doc1)
              (fun i => i * 2)
              [Pdf.SEntry "A" 0 [Pdf.SEntry "A1" 1 []]; Pdf.SList [Pdf.SEntry "B" 1 []]]
              (Pdf.Writer [] [Pdf.Node "file" 0 []]) (Some [0%nat]))
    as (added & Hc & Ht & _).
  - simpl. exact I.
  - vm_compute. reflexivity.
  - exists added. split; [exact Hc | exact Ht].
Defined.

(** ** [pdfinsert.add_page_numbers] and [pdfinsert.process_pdf] *)

Section NumberingFailure.
Import Pdf Env.

(** X3.  When the intermediate file cannot be read, [add_page_numbers] does
    not raise: it returns [None], reports the error, and leaves a copy of the
    intermediate file at the output path when there is one to copy (and input
    and output are different paths); nothing else changes. *)
Theorem add_page_numbers_unreadable (input_pdf output_pdf : path) (font_name : string)
    (font_size : Q) (original_outline_struct : list src_item)
    (outline_source_reader : option document) (w : world)
    (Hbad : forall d, files w !! input_pdf <> Some (PdfFile d)) :
  pdfinsert.add_page_numbers input_pdf output_pdf font_name font_size
    original_outline_struct outline_source_reader w
  = (inl None,
     match files w !! input_pdf with
     | Some f =>
         if decide (input_pdf = output_pdf)
         then World (files w) (dirs w)
                (console w ++ [ErrNumbering input_pdf output_pdf; ErrCopyIntermediate])
         else World (<[output_pdf := f]> (files w)) (dirs w)
                (console w ++ [ErrNumbering input_pdf output_pdf;
                               InfoCopiedIntermediate output_pdf])
     | None => World (files w) (dirs w)
                 (console w ++ [ErrNumbering input_pdf output_pdf; ErrCopyIntermediate])
     end).
Proof.
  unfold pdfinsert.add_page_numbers, try_except at 1.
  assert (exists e, PdfReader input_pdf w = (inr e, w)) as [e He].
  { unfold PdfReader. destruct (files w !! input_pdf) as [[|d]|] eqn:E; eauto.
    by destruct (Hbad d). }
  erewrite bind_err by exact He.
  unfold copy2. run. cbn [files dirs console].
  destruct (files w !! input_pdf) as [f|];
    [destruct (decide (input_pdf = output_pdf))|];
    cbn [files dirs console]; by rewrite <- app_assoc.
Qed.
End NumberingFailure.

Lemma add_page_numbers_unreadable_witness :
  pdfinsert.add_page_numbers ("./output", "temp_blank_x.pdf") ("./output", "x.pdf")
    "Helvetica" 10 [] None
    (Env.World {[ ("./output", "temp_blank_x.pdf") := Env.Garbage ]} ∅ [])
  = (inl None,
     Env.World (<[ ("./output", "x.pdf") := Env.Garbage ]>
                  {[ ("./output", "temp_blank_x.pdf") := Env.Garbage ]}) ∅
       [Env.ErrNumbering ("./output", "temp_blank_x.pdf") ("./output", "x.pdf");
        Env.InfoCopiedIntermediate ("./output", "x.pdf")]).
Proof.
  rewrite (add_page_numbers_unreadable ("./output", "temp_blank_x.pdf")
             ("./output", "x.pdf") "Helvetica" 10 [] None
             (Env.World {[ ("./output", "temp_blank_x.pdf") := Env.Garbage ]} ∅ [])).
  - vm_compute. reflexivity.
  - intros d. vm_compute. discriminate.
Defined.

Section ProcessPdfOutput.
Import Pdf Env.

Lemma with_blanks_length (ps : list page) :
  length (PerFile.with_blanks ps) = (2 * length ps)%nat.
Proof.
  unfold PerFile.with_blanks. induction ps as [|p ps IH]; simpl in *; [done|].
  rewrite IH. lia.
Qed.

Lemma with_blanks_lookup (ps : list page) (k : nat) (p : page) :
  ps !! k = Some p ->
  PerFile.with_blanks ps !! (2 * k)%nat = Some p
  /\ PerFile.with_blanks ps !! (2 * k + 1)%nat = Some (blank_page (width p) (width p)).
Proof.
  unfold PerFile.with_blanks. revert k.
  induction ps as [|q ps IH]; intros k Hk; [done|].
  destruct k as [|k]; simpl in *.
  - by simplify_eq.
  - replace (k + S (k + 0))%nat with (S (2 * k)) by lia.
    replace (S (2 * k) + 1)%nat with (S (2 * k + 1)) by lia.
    simpl. by apply IH.
Qed.

Lemma half_even (k : nat) : (2 * k / 2 = k)%nat.
Proof. symmetry. apply (Nat.div_unique _ 2 k 0); lia. Qed.

Lemma half_odd (k : nat) : ((2 * k + 1) / 2 = k)%nat.
Proof. symmetry. apply (Nat.div_unique _ 2 k 1); lia. Qed.

Lemma remap_own_outline_node (page_count : nat) (reader : Z -> option Z) (f : Z -> Z)
    (n : onode) :
  (forall p, 0 <= p < Z.of_nat page_count -> reader p = Some p) ->
  Source.targets_in_range page_count n ->
  Remap.remap_item reader f (read_entry n) = [Source.retarget f n]
  /\ Remap.diagnostics_item reader (read_entry n) = [].
Proof.
  intros Hreader. revert n.
  fix rec 1. intros [t p ch] [Hp Hch]. simpl.
  rewrite (Hreader p Hp).
  assert (concat (map (Remap.remap_item reader f) (map read_entry ch))
          = map (Source.retarget f) ch
          /\ concat (map (Remap.diagnostics_item reader) (map read_entry ch)) = [])
    as [-> ->]; [|done].
  clear Hp. induction ch as [|c ch IH]; simpl in *; [done|].
  destruct Hch as [Hc Hch]. destruct (rec c Hc) as [-> ->].
  destruct (IH Hch) as [-> ->]. done.
Qed.

Lemma remap_own_outline (d : document) (f : Z -> Z) :
  Forall (Source.targets_in_range (length (pages d))) (outline d) ->
  Remap.remap (get_page_number d) f (reader_outline d)
  = map (Source.retarget f) (outline d)
  /\ Remap.diagnostics (get_page_number d) (reader_outline d) = [].
Proof.
  unfold Remap.remap, Remap.diagnostics, reader_outline.
  induction 1 as [|n ns Hn _ [IH1 IH2]]; simpl; [done|].
  destruct (remap_own_outline_node (length (pages d)) (get_page_number d) f n)
    as [-> ->]; [|done|].
  - intros p Hp. unfold get_page_number.
    destruct (Z.leb_spec 0 p), (Z.ltb_spec p (Z.of_nat (length (pages d)))); simpl;
      [done|lia..].
  - by rewrite IH1, IH2.
Qed.

Lemma processed_pages (d : document) (k : nat) (p : page) :
  pages d !! k = Some p ->
  let label := DrawRightString (width p - 30) 30
                 (pretty (k + 1)%nat +:+ " / " +:+ pretty (length (pages d)))
                 "Helvetica" 10 in
  pages (PerFile.processed d) !! (2 * k)%nat
  = Some (Page (width p)
            (height p + pdfinsert.TOP_MARGIN_PTS + pdfinsert.BOTTOM_MARGIN_PTS)
            (Merged (Transformed 1 1 0 pdfinsert.BOTTOM_MARGIN_PTS (Merged Blank (body p)))
               (Canvas [label]))
            true)
  /\ pages (PerFile.processed d) !! (2 * k + 1)%nat
     = Some (Page (width p) (width p) (Merged Blank (Canvas [label])) true).
Proof.
  intros Hk label. unfold PerFile.processed, Spec.numbered, PerFile.intermediate.
  cbn [pages]. rewrite !stamped_from_lookup, with_blanks_length, length_map, half_even.
  destruct (with_blanks_lookup (map PerFile.with_margin (pages d)) k (PerFile.with_margin p))
    as [-> ->]; [by rewrite list_lookup_fmap, Hk|].
  cbn [fmap option_fmap option_map Nat.add].
  unfold Spec.stamped, pdfinsert.overlay_page, pdfinsert.page_number_text, merge_page.
  cbn [parses PerFile.with_margin blank_page width height body andb].
  rewrite half_even, half_odd. done.
Qed.

(** X4.  What [process_pdf] writes for an input whose pages can all be
    worked on: twice as many pages as the input has; page [2k] is input page
    [k] on a sheet of the same width and 2 x 1.5cm more height, moved up by
    the bottom margin; page [2k+1] is a blank square of that width; both
    carry the label "k+1 / n" at the bottom right.  The outline is the
    input's outline walked with the page index doubled, so an entry that
    pointed at page [i] points at page [2i]. *)
Theorem process_pdf_output (input_file : path) (output_dir backup_dir : string)
    (w : world) (d : document)
    (Hdirs : separate_dirs input_file output_dir backup_dir)
    (Hfile : files w !! input_file = Some (PdfFile d))
    (Hgood : PerFile.processable d) :
  let output_file := (output_dir, path_name input_file) in
  exists (w' : world) (out : document),
    pdfinsert.process_pdf input_file output_dir backup_dir w = (inl (Some output_file), w')
    /\ files w' !! output_file = Some (PdfFile out)
    /\ length (pages out) = (2 * length (pages d))%nat
    /\ (forall (k : nat) (p : page),
          pages d !! k = Some p ->
          let label := DrawRightString (width p - 30) 30
                         (pretty (k + 1)%nat +:+ " / " +:+ pretty (length (pages d)))
                         "Helvetica" 10 in
          pages out !! (2 * k)%nat
          = Some (Page (width p)
                    (height p + pdfinsert.TOP_MARGIN_PTS + pdfinsert.BOTTOM_MARGIN_PTS)
                    (Merged (Transformed 1 1 0 pdfinsert.BOTTOM_MARGIN_PTS
                               (Merged Blank (body p)))
                       (Canvas [label]))
                    true)
          /\ pages out !! (2 * k + 1)%nat
             = Some (Page (width p) (width p) (Merged Blank (Canvas [label])) true))
    /\ outline out
       = Remap.remap (get_page_number d) (fun i => i * 2) (reader_outline d)
    /\ (Forall (Source.targets_in_range (length (pages d))) (outline d) ->
        outline out = map (Source.retarget (fun i => i * 2)) (outline d)).
Proof.
  intros output_file.
  destruct (process_pdf_good input_file output_dir backup_dir w d Hdirs Hfile Hgood)
    as [ds Hrun].
  eexists _, (PerFile.processed d). split; [exact Hrun|].
  assert (outline (PerFile.processed d)
          = Remap.remap (get_page_number d) (fun i => i * 2) (reader_outline d)) as Ho.
  { unfold PerFile.processed, Spec.numbered, Spec.numbered_outline. cbn [outline].
    by destruct (reader_outline d). }
  split_and!.
  - cbn [files].
    rewrite !lookup_delete_ne, lookup_insert_eq; [done| |].
    + unfold output_file. intros [= E]. by apply temp_name_differs in E.
    + unfold output_file. intros [= E]. by apply temp_name_differs in E.
  - unfold PerFile.processed, Spec.numbered, PerFile.intermediate. cbn [pages].
    by rewrite stamped_from_length, with_blanks_length, length_map.
  - intros k p Hk. by apply processed_pages.
  - exact Ho.
  - intros Hr. rewrite Ho. by apply remap_own_outline.
Qed.
End ProcessPdfOutput.

Section ProcessPdfSafety.
Import Pdf Env.

Lemma process_pdf_cases (input_file : path) (output_dir backup_dir : string)
    (w : world) (f : file) :
  separate_dirs input_file output_dir backup_dir ->
  files w !! input_file = Some f ->
  let filename := path_name input_file in
  let output_file := (output_dir, filename) in
  let backup_file := (backup_dir, filename) in
  let temp_margin_file := (output_dir, "temp_margin_" +:+ filename) in
  let temp_blank_file := (output_dir, "temp_blank_" +:+ filename) in
  exists ds log,
    pdfinsert.process_pdf input_file output_dir backup_dir w
    = (inl (if Batch.succeeds f then Some output_file else None),
       World (delete temp_blank_file
                (delete temp_margin_file
                   (match Batch.output_of f with
                    | Some o => <[output_file := o]> (<[backup_file := f]> (files w))
                    | None => <[backup_file := f]> (files w)
                    end)))
             ds (console w ++ log)).
Proof.
  intros Hdirs Hfile. intros.
  destruct f as [|d].
  - destruct (process_pdf_raises input_file output_dir backup_dir w Garbage PdfReadError
                Hdirs Hfile) as [ds ->]; [by left|].
    by eexists _, _.
  - simpl. destruct (length (pages d) =? 0)%nat eqn:El.
    + apply Nat.eqb_eq in El.
      destruct (process_pdf_empty input_file output_dir backup_dir w d Hdirs Hfile)
        as [ds ->]; [by destruct (pages d)|].
      by eexists _, _.
    + apply Nat.eqb_neq in El. simpl.
      destruct (forallb parses (pages d)) eqn:Ep.
      * destruct (process_pdf_good input_file output_dir backup_dir w d Hdirs Hfile)
          as [ds ->].
        { split; [by destruct (pages d) | by apply forallb_parses]. }
        by eexists _, _.
      * destruct (process_pdf_raises input_file output_dir backup_dir w (PdfFile d)
                    ContentStreamError Hdirs Hfile) as [ds ->].
        { right. exists d. split_and!; [done| by destruct (pages d) |done|].
          by apply not_forallb_parses. }
        by eexists _, _.
Qed.

(** X5.  [process_pdf] on an input that exists, with the input outside the
    output and backup directories: it returns (the output path exactly when
    the file has pages and all of them can be worked on), the input file is
    left as it was, the backup directory holds a copy of it, and no path
    other than the output file, the backup and the two temporary files is
    touched. *)
Theorem process_pdf_keeps_input (input_file : path) (output_dir backup_dir : string)
    (w : world) (f : file)
    (Hdirs : separate_dirs input_file output_dir backup_dir)
    (Hfile : files w !! input_file = Some f) :
  let filename := path_name input_file in
  let output_file := (output_dir, filename) in
  let backup_file := (backup_dir, filename) in
  let temp_margin_file := (output_dir, "temp_margin_" +:+ filename) in
  let temp_blank_file := (output_dir, "temp_blank_" +:+ filename) in
  exists (r : option path) (w' : world),
    pdfinsert.process_pdf input_file output_dir backup_dir w = (inl r, w')
    /\ r = (match f with
            | PdfFile d => if negb (length (pages d) =? 0)%nat && forallb parses (pages d)
                           then Some output_file else None
            | Garbage => None
            end)
    /\ files w' !! input_file = Some f
    /\ files w' !! backup_file = Some f
    /\ (forall p, p <> output_file -> p <> backup_file -> p <> temp_margin_file ->
                  p <> temp_blank_file -> files w' !! p = files w !! p).
Proof.
  intros.
  destruct (process_pdf_cases input_file output_dir backup_dir w f Hdirs Hfile)
    as (ds & log & Hrun).
  destruct Hdirs as (Hio & Hib & Hob).
  eexists _, _. split; [exact Hrun|].
  fold filename output_file backup_file temp_margin_file temp_blank_file.
  assert (input_file <> output_file) by (unfold output_file; intros E; by rewrite E in Hio).
  assert (input_file <> backup_file) by (unfold backup_file; intros E; by rewrite E in Hib).
  assert (input_file <> temp_margin_file)
    by (unfold temp_margin_file; intros E; by rewrite E in Hio).
  assert (input_file <> temp_blank_file)
    by (unfold temp_blank_file; intros E; by rewrite E in Hio).
  assert (backup_file <> output_file) by (unfold backup_file, output_file; congruence).
  assert (backup_file <> temp_margin_file)
    by (unfold backup_file, temp_margin_file; congruence).
  assert (backup_file <> temp_blank_file)
    by (unfold backup_file, temp_blank_file; congruence).
  cbn [files]. split_and!.
  - by destruct f.
  - rewrite !lookup_delete_ne by done.
    destruct (Batch.output_of f); by rewrite ?lookup_insert_ne by done.
  - rewrite !lookup_delete_ne by done.
    destruct (Batch.output_of f);
      by rewrite ?(lookup_insert_ne _ output_file) by done; rewrite lookup_insert_eq.
  - intros p ? ? ? ?. rewrite !lookup_delete_ne by done.
    destruct (Batch.output_of f); by rewrite ?lookup_insert_ne by done.
Qed.

Lemma handled_returns {A} (m : M A) (h : exn -> M A) :
  (forall e w, exists a w', h e w = (inl a, w')) ->
  forall w, exists a w', try_except m h w = (inl a, w').
Proof.
  intros Hh w. unfold try_except. destruct (m w) as [[a|e] w1]; [by eauto|apply Hh].
Qed.

Lemma process_pdf_missing (input_file : path) (output_dir backup_dir : string)
    (w : world) :
  files w !! input_file = None ->
  let filename := path_name input_file in
  pdfinsert.process_pdf input_file output_dir backup_dir w
  = (inl None,
     World (delete (output_dir, "temp_blank_" +:+ filename)
              (delete (output_dir, "temp_margin_" +:+ filename) (files w)))
           ({[output_dir]} ∪ ({[backup_dir]} ∪ dirs w))
           (console w ++ [ErrProcessing input_file FileNotFoundError; ErrCopyOriginal])).
Proof.
  intros Hfile filename. unfold pdfinsert.process_pdf. fold filename.
  unfold try_finally.
  set (body := try_except _ _).
  assert (body w = (inl (pdfinsert.Completed false None),
            World (files w) ({[output_dir]} ∪ ({[backup_dir]} ∪ dirs w))
              (console w ++ [ErrProcessing input_file FileNotFoundError; ErrCopyOriginal])))
    as Hbody.
  { unfold body.
    set (attempt := mkdir backup_dir ≫= _).
    assert (attempt w = (inr FileNotFoundError,
                         World (files w) ({[backup_dir]} ∪ dirs w) (console w)))
      as Hattempt.
    { unfold attempt.
      erewrite bind_ok by (by run).
      erewrite bind_err; [done|]. unfold copy2. cbn [files]. by rewrite Hfile. }
    unfold try_except at 1. rewrite Hattempt.
    erewrite bind_ok by (by run).
    erewrite bind_ok; cycle 1.
    { unfold try_except.
      erewrite bind_ok by (by run).
      erewrite bind_err; cycle 1.
      { unfold copy2. cbn [files]. by rewrite Hfile. }
      by run. }
    run. cbn [files dirs console]. by rewrite <- !app_assoc. }
  erewrite bind_ok; cycle 1.
  { rewrite Hbody. rewrite remove_temp_files_run. reflexivity. }
  by run.
Qed.

(** X6.  [process_pdf] never raises, whatever the paths and the state of the
    file system: every exception of the four steps is caught in the function.
    For an input that does not exist it reports the error twice (the copy of
    the original fails too), returns [None] and creates no file; stale
    temporary files of that name are removed. *)
Theorem process_pdf_never_raises (input_file : path) (output_dir backup_dir : string)
    (w : world) :
  (exists (r : option path) (w' : world),
      pdfinsert.process_pdf input_file output_dir backup_dir w = (inl r, w'))
  /\ (files w !! input_file = None ->
      exists w' : world,
        pdfinsert.process_pdf input_file output_dir backup_dir w = (inl None, w')
        /\ console w'
           = console w ++ [ErrProcessing input_file FileNotFoundError; ErrCopyOriginal]
        /\ forall p, files w' !! p = None \/ files w' !! p = files w !! p).
Proof.
  split.
  - unfold pdfinsert.process_pdf, try_finally.
    set (body := try_except _ _).
    assert (exists x w1, body w = (inl x, w1)) as (x & w1 & Hbody).
    { apply handled_returns. intros e w0.
      set (fallback := try_except _ _).
      assert (exists w2, fallback (World (files w0) (dirs w0)
                                     (console w0 ++ [ErrProcessing input_file e]))
                         = (inl tt, w2)) as [w2 Hf].
      { destruct (handled_returns
                    (mkdir output_dir;;
                     copy2 input_file (output_dir, path_name input_file);;
                     print (InfoCopiedOriginal (output_dir, path_name input_file)))
                    (fun _ => print ErrCopyOriginal)) with
          (w := World (files w0) (dirs w0) (console w0 ++ [ErrProcessing input_file e]))
          as ([] & w2 & Hf); [|by exists w2].
        intros e' w'. by eexists _, _. }
      eexists _, w2.
      erewrite bind_ok by (by run).
      erewrite bind_ok by exact Hf.
      by run. }
    erewrite bind_ok; cycle 1.
    { rewrite Hbody. rewrite remove_temp_files_run. reflexivity. }
    destruct x as [v|success output_file]; by eexists _, _.
  - intros Hfile. eexists. split; [by apply process_pdf_missing|].
    split; [done|]. intros p. cbn [files].
    destruct (decide (p = (output_dir, "temp_blank_" +:+ path_name input_file)))
      as [->|]; [left; by rewrite lookup_delete_eq|].
    rewrite lookup_delete_ne by done.
    destruct (decide (p = (output_dir, "temp_margin_" +:+ path_name input_file)))
      as [->|]; [left; by rewrite lookup_delete_eq|].
    right. by rewrite lookup_delete_ne by done.
Qed.
End ProcessPdfSafety.

Lemma process_pdf_output_witness :
  exists (w' : Env.world) (out : Pdf.document),
    pdfinsert.process_pdf (pdfinsert.INPUT_DIR, "10-a.pdf") pdfinsert.OUTPUT_DIR
      pdfinsert.BACKUP_DIR (Env.World Demo.fs0 ∅ [])
    = (inl (Some (pdfinsert.OUTPUT_DIR, "10-a.pdf")), w')
    /\ Env.files w' !! (pdfinsert.OUTPUT_DIR, "10-a.pdf") = Some (Env.PdfFile out)
    /\ length (Pdf.pages out) = 4%nat
    /\ Pdf.outline out = [Pdf.Node "Intro" 0 [Pdf.Node "Sub" 2 []]].
Proof.
  destruct (process_pdf_output (pdfinsert.INPUT_DIR, "10-a.pdf") pdfinsert.OUTPUT_DIR
              pdfinsert.BACKUP_DIR (Env.World Demo.fs0 ∅ []) Demo.doc1)
    as (w' & out & Hrun & Hfile & Hlen & _ & _ & Hshift).
  - apply separate_batch_dirs.
  - vm_compute. reflexivity.
  - split; [discriminate | repeat constructor].
  - exists w', out. split; [exact Hrun|]. split; [exact Hfile|].
    split; [exact Hlen|]. apply Hshift.
    repeat constructor; simpl; lia.
Defined.

Lemma process_pdf_keeps_input_witness :
  exists (r : option Env.path) (w' : Env.world),
    pdfinsert.process_pdf (pdfinsert.INPUT_DIR, "x.pdf") pdfinsert.OUTPUT_DIR
      pdfinsert.BACKUP_DIR
      (Env.World {[ (pdfinsert.INPUT_DIR, "x.pdf") := Env.Garbage ]} ∅ [])
    = (inl r, w')
    /\ r = None
    /\ Env.files w' !! (pdfinsert.INPUT_DIR, "x.pdf") = Some Env.Garbage
    /\ Env.files w' !! (pdfinsert.BACKUP_DIR, "x.pdf") = Some Env.Garbage.
Proof.
  destruct (process_pdf_keeps_input (pdfinsert.INPUT_DIR, "x.pdf") pdfinsert.OUTPUT_DIR
              pdfinsert.BACKUP_DIR
              (Env.World {[ (pdfinsert.INPUT_DIR, "x.pdf") := Env.Garbage ]} ∅ [])
              Env.Garbage)
    as (r & w' & Hrun & Hr & Hin & Hback & _).
  - apply separate_batch_dirs.
  - vm_compute. reflexivity.
  - exists r, w'. split; [exact Hrun|]. split; [exact Hr|].
    split; [exact Hin | exact Hback].
Defined.

Lemma process_pdf_never_raises_witness :
  exists w' : Env.world,
    pdfinsert.process_pdf (pdfinsert.INPUT_DIR, "gone.pdf") pdfinsert.OUTPUT_DIR
      pdfinsert.BACKUP_DIR (Env.World ∅ ∅ [])
    = (inl None, w')
    /\ Env.console w'
       = [] ++ [Env.ErrProcessing (pdfinsert.INPUT_DIR, "gone.pdf") Pdf.FileNotFoundError;
                Env.ErrCopyOriginal].
Proof.
  destruct (process_pdf_never_raises (pdfinsert.INPUT_DIR, "gone.pdf")
              pdfinsert.OUTPUT_DIR pdfinsert.BACKUP_DIR (Env.World ∅ ∅ []))
    as [_ Hmissing].
  destruct Hmissing as (w' & Hrun & Hlog & _).
  - vm_compute. reflexivity.
  - exists w'. split; [exact Hrun | exact Hlog].
Defined.

(** ** The merge order *)

Section MergeOrderFacts.
Import Pdf Env.

Lemma rank_order_total (a b : Names.rank) :
  Names.rank_eqb a b = false ->
  Names.rank_ltb a b = true \/ Names.rank_ltb b a = true.
Proof.
  destruct a as [m|], b as [n|]; simpl; auto.
  intros H. apply Z.eqb_neq in H.
  destruct (Z.ltb_spec m n), (Z.ltb_spec n m); auto; lia.
Qed.

Lemma rank_eqb_sym (a b : Names.rank) : Names.rank_eqb a b = Names.rank_eqb b a.
Proof. destruct a, b; simpl; auto using Z.eqb_sym. Qed.

Lemma sort_key_antisym (a b : string) :
  Names.key_ltb (Names.get_sort_key a) (Names.get_sort_key b) = false ->
  Names.key_ltb (Names.get_sort_key b) (Names.get_sort_key a) = false ->
  a = b.
Proof.
  assert (forall s, exists r, Names.get_sort_key s = (r, s)) as Hkey.
  { intros s. unfold Names.get_sort_key. destruct (Names.numeric_prefix s); eauto. }
  destruct (Hkey a) as [ra ->], (Hkey b) as [rb ->].
  unfold Names.key_ltb. cbn [fst snd]. rewrite (rank_eqb_sym rb ra).
  destruct (Names.rank_eqb ra rb) eqn:E; intros H1 H2.
  - destruct (str_ltb_total a b) as [H|[H|H]]; congruence.
  - destruct (rank_order_total ra rb E); congruence.
Qed.

Lemma NoDup_fmap_elem {A B} (f : A -> B) (l : list A) (x y : A) :
  NoDup (map f l) -> x ∈ l -> y ∈ l -> f x = f y -> x = y.
Proof.
  induction l as [|a l IH]; intros Hnd Hx Hy Hf; [by apply elem_of_nil in Hx|].
  simpl in Hnd. apply NoDup_cons in Hnd as [Ha Hnd].
  apply elem_of_cons in Hx as [->|Hx], Hy as [->|Hy]; [done| | |by apply IH].
  - destruct Ha. rewrite Hf. by apply (list_elem_of_fmap_2 f).
  - destruct Ha. rewrite <- Hf. by apply (list_elem_of_fmap_2 f).
Qed.

Lemma sort_paths_unique (ps qs : list path) :
  ps ≡ₚ qs -> NoDup (map path_name ps) ->
  pdfinsert.sort_paths ps = pdfinsert.sort_paths qs.
Proof.
  intros Hperm Hnd.
  eapply StronglySorted_unique_strong;
    [|apply sort_paths_sorted|apply sort_paths_sorted|].
  - intros x1 x2 H1 H2 R12 R21. cbv beta in R12, R21.
    apply (proj1 (sort_paths_elem _ _)) in H1, H2.
    apply (NoDup_fmap_elem path_name ps); [done|done|by rewrite Hperm|].
    by apply sort_key_antisym.
  - unfold pdfinsert.sort_paths.
    by rewrite <- !stable_sort_perm.
Qed.

Lemma listdir_perm (d : string) (w1 w2 : world) :
  (forall n, is_Some (files w1 !! (d, n)) <-> is_Some (files w2 !! (d, n))) ->
  listdir d w1 ≡ₚ listdir d w2.
Proof.
  intros H. apply NoDup_Permutation; [apply listdir_NoDup..|].
  intros n. by rewrite !listdir_elem.
Qed.

Lemma candidates_names_NoDup (d : string) (l : list string) :
  NoDup l ->
  NoDup (map path_name
           (filter (fun f => Names.starts_with "temp_" (path_name f) = false)
              (map (fun n => (d, n))
                 (filter (fun n => Names.ends_with ".pdf" n = true) l)))).
Proof.
  intros Hl. eapply sublist_NoDup; [exact Hl|].
  transitivity (filter (fun n => Names.ends_with ".pdf" n = true) l);
    [|apply sublist_filter].
  etransitivity; [apply (fmap_sublist path_name), sublist_filter|].
  rewrite map_map. cbn [path_name snd]. by rewrite map_id.
Qed.

Lemma candidates_same (d : string) (w1 w2 : world) :
  (forall n, is_Some (files w1 !! (d, n)) <-> is_Some (files w2 !! (d, n))) ->
  Merged.candidates d w1 = Merged.candidates d w2.
Proof.
  intros H. unfold Merged.candidates. apply sort_paths_unique.
  - by rewrite (listdir_perm d w1 w2).
  - apply candidates_names_NoDup, listdir_NoDup.
Qed.

(** X7.  The merge order does not depend on the order in which the
    directory is listed: the sort key is the pair (numeric prefix, name), so
    two listings of the same files, whose names are pairwise different, are
    sorted into the same sequence. *)
Theorem merge_order_ignores_listing_order (found1 found2 : list path)
    (Hsame : found1 ≡ₚ found2) (Hnames : NoDup (map path_name found1)) :
  pdfinsert.sort_paths found1 = pdfinsert.sort_paths found2.
Proof. by apply sort_paths_unique. Qed.
End MergeOrderFacts.

Lemma merge_order_ignores_listing_order_witness :
  pdfinsert.sort_paths [("./output", "2-b.pdf"); ("./output", "10-a.pdf"); ("./output", "x.pdf")]
  = pdfinsert.sort_paths [("./output", "x.pdf"); ("./output", "2-b.pdf"); ("./output", "10-a.pdf")].
Proof.
  apply merge_order_ignores_listing_order.
  - symmetry.
    apply (Permutation_cons_append [("./output", "2-b.pdf"); ("./output", "10-a.pdf")]
             ("./output", "x.pdf")).
  - apply (bool_decide_unpack _). vm_compute. reflexivity.
Defined.

(** ** The merge of [pdfinsert] *)

Section MergeSkips.
Import Pdf Env.

Lemma merge_step_usable (fs : gmap path file) (s : pdfinsert.merge_state) (p : path) :
  Merged.merge_step fs s p
  = match Candidate.usable fs p with
    | Some d =>
        let cur := pdfinsert.current_page_in_merged_pdf s in
        pdfinsert.MergeState
          (Writer (wpages (pdfinsert.merged_writer s) ++ pages d)
             (woutline (pdfinsert.merged_writer s) ++ Candidate.entries cur [(p, d)]))
          (cur + Z.of_nat (length (pages d)))
          (pdfinsert.files_merged_count s + 1)
    | None => s
    end.
Proof.
  unfold Merged.merge_step, Candidate.usable.
  destruct (fs !! p) as [[|d]|]; [done| |done].
  by destruct (length (pages d) =? 0)%nat.
Qed.

Lemma entries_app (k : Z) (a b : list (path * document)) :
  Candidate.entries k (a ++ b)
  = Candidate.entries k a
    ++ Candidate.entries (k + Z.of_nat (sum_list (map (fun pd => page_count (snd pd)) a))) b.
Proof.
  revert k. induction a as [|[p d] a IH]; intros k; simpl.
  - by rewrite Z.add_0_r.
  - rewrite IH. do 3 f_equal. unfold page_count. lia.
Qed.

(** The merge loop, with the candidates that contribute nothing left out. *)
Lemma merge_usable (fs : gmap path file) (ps : list path) (s : pdfinsert.merge_state) :
  let pds := omap (fun p => (fun d => (p, d)) <$> Candidate.usable fs p) ps in
  foldl (Merged.merge_step fs) s ps
  = pdfinsert.MergeState
      (Writer (wpages (pdfinsert.merged_writer s) ++ concat (map (fun pd => pages (snd pd)) pds))
         (woutline (pdfinsert.merged_writer s)
          ++ Candidate.entries (pdfinsert.current_page_in_merged_pdf s) pds))
      (pdfinsert.current_page_in_merged_pdf s
       + Z.of_nat (sum_list (map (fun pd => page_count (snd pd)) pds)))
      (pdfinsert.files_merged_count s + length pds).
Proof.
  revert s. induction ps as [|p ps IH]; intros s; cbn zeta.
  - simpl. rewrite !app_nil_r, Z.add_0_r, Nat.add_0_r. by destruct s as [[? ?] ? ?].
  - cbn [foldl omap list_omap]. rewrite IH. cbn zeta. rewrite merge_step_usable.
    destruct (Candidate.usable fs p) as [d|]; cbn [fmap option_fmap option_map]; [|done].
    cbn [pdfinsert.merged_writer pdfinsert.current_page_in_merged_pdf
         pdfinsert.files_merged_count wpages woutline map concat sum_list snd
         Candidate.entries length].
    rewrite <- !app_assoc. f_equal; [simpl; unfold page_count; lia | simpl; lia].
Qed.

Lemma merge_one_diagnostic (total idx : nat) (p : path) (s : pdfinsert.merge_state)
    (w : world) :
  exists log,
    pdfinsert.merge_one total (idx, p) s w
    = (inl (Merged.merge_step (files w) s p),
       World (files w) (dirs w) (console w ++ log))
    /\ (files w !! p = Some Garbage -> ErrMerging (idx + 1) total p PdfReadError ∈ log)
    /\ (files w !! p = None -> ErrMerging (idx + 1) total p FileNotFoundError ∈ log)
    /\ (forall d, files w !! p = Some (PdfFile d) -> pages d = [] ->
                  InfoSkipEmpty (idx + 1) total p ∈ log).
Proof.
  destruct (merge_one_run total idx p s w) as [log0 H0].
  unfold pdfinsert.merge_one, try_except in H0 |- *.
  erewrite bind_ok in H0 |- * by (by run).
  destruct (files w !! p) as [[|d]|] eqn:Ep.
  - erewrite bind_err; cycle 1.
    { unfold PdfReader. cbn [files]. by rewrite Ep. }
    run. cbn [files dirs console]. rewrite <- app_assoc. eexists. split; [|split_and!].
    + unfold Merged.merge_step. by rewrite Ep.
    + intros _. apply list_elem_of_In. simpl. auto.
    + done.
    + done.
  - destruct (pages d) as [|pg pgs] eqn:Epg.
    + erewrite bind_ok by (by apply PdfReader_ok).
      rewrite Epg. cbn [length Nat.eqb].
      run. cbn [files dirs console]. rewrite <- app_assoc. eexists. split; [|split_and!].
      * unfold Merged.merge_step. by rewrite Ep, Epg.
      * done.
      * done.
      * intros d' _ _. apply list_elem_of_In. simpl. auto.
    + exists log0. split; [|split_and!; [done|done|]].
      * exact H0.
      * intros d' [= <-]. by rewrite Epg.
  - erewrite bind_err; cycle 1.
    { unfold PdfReader. cbn [files]. by rewrite Ep. }
    run. cbn [files dirs console]. rewrite <- app_assoc. eexists. split; [|split_and!].
    + unfold Merged.merge_step. by rewrite Ep.
    + done.
    + intros _. apply list_elem_of_In. simpl. auto.
    + done.
Qed.

Lemma merge_loop_diagnostic (total : nat) (ps : list path) (k : nat)
    (s : pdfinsert.merge_state) (w : world) :
  exists log,
    for_each (zip (seq k (length ps)) ps) (pdfinsert.merge_one total) s w
    = (inl (foldl (Merged.merge_step (files w)) s ps),
       World (files w) (dirs w) (console w ++ log))
    /\ (forall i p, ps !! i = Some p ->
          (files w !! p = Some Garbage ->
           ErrMerging (k + i + 1) total p PdfReadError ∈ log)
          /\ (forall d, files w !! p = Some (PdfFile d) -> pages d = [] ->
                        InfoSkipEmpty (k + i + 1) total p ∈ log)).
Proof.
  revert k s w. induction ps as [|p ps IH]; intros k s w.
  - exists []. split; [|done]. simpl. run. rewrite app_nil_r. by destruct w.
  - cbn [length seq zip_with foldl].
    destruct (merge_one_diagnostic total k p s w) as (log1 & H1 & Hg & _ & He).
    erewrite for_each_cons_ok by exact H1.
    destruct (IH (S k) (Merged.merge_step (files w) s p)
                (World (files w) (dirs w) (console w ++ log1))) as (log2 & H2 & Hrest).
    exists (log1 ++ log2). split.
    + rewrite H2. cbn [files dirs console]. by rewrite <- app_assoc.
    + intros [|i] q Hq; simpl in Hq.
      * injection Hq as <-. rewrite Nat.add_0_r. split.
        -- intros Hf. apply elem_of_app. left. by apply Hg.
        -- intros d Hf Hd. apply elem_of_app. left. by apply (He d).
      * destruct (Hrest i q Hq) as [Hg' He']. cbn [files] in Hg', He'.
        replace (k + S i + 1)%nat with (S k + i + 1)%nat by lia. split.
        -- intros Hf. apply elem_of_app. right. by apply Hg'.
        -- intros d Hf Hd. apply elem_of_app. right. by apply (He' d).
Qed.

Lemma merge_run_diagnostic (output_dir final_pdf_filename : string) (w : world) :
  exists log,
    pdfinsert.merge_pdfs_with_bookmarks output_dir final_pdf_filename w
    = (inl tt,
       World (Merged.files_after output_dir final_pdf_filename w) (dirs w)
             (console w ++ log
              ++ [Merged.last_message output_dir final_pdf_filename w]))
    /\ (forall i p, Merged.candidates output_dir w !! i = Some p ->
          (files w !! p = Some Garbage ->
           ErrMerging (i + 1) (length (Merged.candidates output_dir w)) p PdfReadError
           ∈ log)
          /\ (forall d, files w !! p = Some (PdfFile d) -> pages d = [] ->
                        InfoSkipEmpty (i + 1) (length (Merged.candidates output_dir w)) p
                        ∈ log)).
Proof.
  unfold pdfinsert.merge_pdfs_with_bookmarks.
  erewrite bind_ok by (by run).
  erewrite bind_ok by (by unfold glob_pdf).
  unfold Merged.files_after, Merged.last_message, Merged.merged, Merged.candidates.
  change (listdir output_dir {| files := files w; dirs := dirs w;
            console := console w ++ [InfoMergeStart output_dir] |})
    with (listdir output_dir w).
  set (cs := pdfinsert.sort_paths _).
  destruct cs as [|c cs'] eqn:Ec.
  - run. cbn [files dirs console]. exists [InfoMergeStart output_dir].
    split; [by rewrite <- app_assoc | done].
  - rewrite <- Ec. clear Ec c cs'.
    erewrite bind_ok by (by run).
    destruct (merge_loop_diagnostic (length cs) cs 0 (pdfinsert.MergeState new_writer 0 0)
                (World (files w) (dirs w)
                   ((console w ++ [InfoMergeStart output_dir])
                    ++ [InfoMergeList (length cs)
                          (take 5 (map path_name cs)
                           ++ (if (5 <? length (map path_name cs))%nat
                               then ["..."] else []))])))
      as (log & Hloop & Hdiag).
    cbn [files] in Hloop, Hdiag.
    erewrite bind_ok by exact Hloop.
    eexists (InfoMergeStart output_dir :: InfoMergeList _ _ :: log).
    split.
    + destruct (_ =? 0).
      * run. cbn [files dirs console]. by rewrite <- !app_assoc.
      * unfold try_except. run. cbn [files dirs console]. by rewrite <- !app_assoc.
    + intros i p Hp. destruct (Hdiag i p Hp) as [Hg He]. split.
      * intros Hf. do 2 apply list_elem_of_further. by apply Hg.
      * intros d Hf Hd. do 2 apply list_elem_of_further. by apply (He d).
Qed.
End MergeSkips.

Section MergeTheorems.
Import Pdf Env.

Lemma usable_spec (fs : gmap path file) (p : path) (d : document) :
  Candidate.usable fs p = Some d <-> fs !! p = Some (PdfFile d) /\ pages d <> [].
Proof.
  unfold Candidate.usable. destruct (fs !! p) as [[|d']|].
  - split; [done | by intros [? _]].
  - destruct (pages d') eqn:E; simpl.
    + split; [done | intros [[= ->] H]; by destruct H].
    + split; [intros [= ->]; by rewrite E | by intros [[= ->] _]].
  - split; [done | by intros [? _]].
Qed.

Lemma usable_pages_pos (fs : gmap path file) (ps : list path) :
  let pds := omap (fun p => (fun d => (p, d)) <$> Candidate.usable fs p) ps in
  pds <> [] -> (0 < sum_list (map (fun pd => page_count (snd pd)) pds))%nat.
Proof.
  cbn zeta. induction ps as [|p ps IH]; [done|]. cbn [omap list_omap].
  destruct (Candidate.usable fs p) as [d|] eqn:E; cbn [fmap option_fmap option_map];
    [|exact IH].
  intros _. apply usable_spec in E as [_ E]. simpl. unfold page_count at 1.
  destruct (pages d); [done|]. simpl. lia.
Qed.

Lemma entries_top_level (k : Z) (pds : list (path * document)) :
  top_level (Candidate.entries k pds)
  = zip (map (fun pd => Names.stem (path_name (fst pd))) pds)
        (Merged.offsets k (map snd pds)).
Proof.
  revert k. induction pds as [|[p d] pds IH]; intros k; simpl; [done|].
  unfold top_level in IH. by rewrite IH.
Qed.

Lemma entries_length (k : Z) (pds : list (path * document)) :
  length (Candidate.entries k pds) = length pds.
Proof. revert k. induction pds as [|[p d] pds IH]; intros k; simpl; [done | by rewrite IH]. Qed.

Lemma entries_lookup (k : Z) (pds : list (path * document)) (i : nat) (p : path)
    (d : document) :
  pds !! i = Some (p, d) ->
  let off := k + Z.of_nat (sum_list (map (fun pd => page_count (snd pd)) (take i pds))) in
  Candidate.entries k pds !! i
  = Some (Node (Names.stem (path_name p)) off
            (Remap.remap (get_page_number d) (fun j => j + off) (reader_outline d))).
Proof.
  revert k i. induction pds as [|[q e] pds IH]; intros k [|i] Hi; simpl in *; try done.
  - injection Hi as -> ->. by rewrite Z.add_0_r.
  - rewrite (IH _ _ Hi). cbn zeta.
    replace (k + Z.of_nat (length (pages e))
             + Z.of_nat (sum_list (map (fun pd => page_count pd.2) (take i pds))))
      with (k + Z.of_nat (page_count e
                          + sum_list (map (fun pd => page_count pd.2) (take i pds))))
      by (unfold page_count at 1; lia).
    done.
Qed.

(** The merged file, when at least one candidate contributes. *)
Lemma merge_written (output_dir final_pdf_filename : string) (w : world) :
  let pds := omap (fun p => (fun d => (p, d)) <$> Candidate.usable (files w) p)
               (Merged.candidates output_dir w) in
  (pds <> [] ->
   Merged.files_after output_dir final_pdf_filename w
   = <[(pdfinsert.PROJECT_DIR, final_pdf_filename)
       := PdfFile (Document (concat (map (fun pd => pages (snd pd)) pds))
                     (Candidate.entries 0 pds))]> (files w)
   /\ Merged.last_message output_dir final_pdf_filename w
      = InfoMergeDone (pdfinsert.PROJECT_DIR, final_pdf_filename) (length pds)
          (length (Merged.candidates output_dir w))
          (Z.of_nat (sum_list (map (fun pd => page_count (snd pd)) pds))))
  /\ (pds = [] -> Merged.files_after output_dir final_pdf_filename w = files w).
Proof.
  intros pds. unfold Merged.files_after, Merged.last_message, Merged.merged.
  rewrite merge_usable. fold pds.
  cbn [pdfinsert.merged_writer pdfinsert.current_page_in_merged_pdf
       pdfinsert.files_merged_count new_writer wpages woutline app written].
  rewrite Z.add_0_l, Nat.add_0_l. split.
  - intros Hne. pose proof (usable_pages_pos (files w) _ Hne) as Hpos. fold pds in Hpos.
    destruct (Merged.candidates output_dir w) as [|c cs] eqn:Ec; [done|].
    destruct (Z.eqb_spec (Z.of_nat (sum_list (map (fun pd => page_count pd.2) pds))) 0)
      as [E|_]; [lia|done].
  - intros ->. simpl. by destruct (Merged.candidates output_dir w).
Qed.

(** X8.  The merge passes over the files it cannot use and goes on: a
    candidate that cannot be read is reported with its position, an empty one
    is reported as skipped, and neither moves the page offset.  The merged
    file holds the pages of the usable candidates in merge order, one
    top-level entry per usable candidate at the first of its pages, and the
    closing message counts the usable candidates against all candidates.
    When no candidate is usable, no file is written. *)
Theorem merge_skips_unusable_files (output_dir final_pdf_filename : string) (w : world) :
  let cs := Merged.candidates output_dir w in
  let pds := omap (fun p => (fun d => (p, d)) <$> Candidate.usable (files w) p) cs in
  exists w' : world,
    pdfinsert.merge_pdfs_with_bookmarks output_dir final_pdf_filename w = (inl tt, w')
    /\ (forall i p, cs !! i = Some p -> files w !! p = Some Garbage ->
          ErrMerging (i + 1) (length cs) p PdfReadError ∈ console w')
    /\ (forall i p d, cs !! i = Some p -> files w !! p = Some (PdfFile d) ->
          pages d = [] -> InfoSkipEmpty (i + 1) (length cs) p ∈ console w')
    /\ (pds <> [] ->
        exists m : document,
          files w' !! (pdfinsert.PROJECT_DIR, final_pdf_filename) = Some (PdfFile m)
          /\ pages m = concat (map (fun pd => pages (snd pd)) pds)
          /\ top_level (outline m)
             = zip (map (fun pd => Names.stem (path_name (fst pd))) pds)
                   (Merged.offsets 0 (map snd pds))
          /\ InfoMergeDone (pdfinsert.PROJECT_DIR, final_pdf_filename) (length pds)
               (length cs) (Z.of_nat (sum_list (map (fun pd => page_count (snd pd)) pds)))
             ∈ console w')
    /\ (pds = [] -> files w' = files w).
Proof.
  intros cs pds.
  destruct (merge_run_diagnostic output_dir final_pdf_filename w) as (log & Hrun & Hdiag).
  destruct (merge_written output_dir final_pdf_filename w) as [Hsome Hnone].
  fold cs in Hdiag, Hsome, Hnone. fold pds in Hsome, Hnone.
  eexists. split; [exact Hrun|]. cbn [files console]. split_and!.
  - intros i p Hp Hf. destruct (Hdiag i p Hp) as [Hg _].
    rewrite !elem_of_app. right. left. by apply Hg.
  - intros i p d Hp Hf Hd. destruct (Hdiag i p Hp) as [_ He].
    rewrite !elem_of_app. right. left. by apply (He d).
  - intros Hne. destruct (Hsome Hne) as [-> ->].
    eexists. rewrite lookup_insert_eq. split; [reflexivity|].
    cbn [pages outline]. split_and!; [done|apply entries_top_level|].
    rewrite !elem_of_app, list_elem_of_singleton. auto.
  - intros He. by apply Hnone.
Qed.

(** X9.  In the merged file the outline of every merged file hangs beneath
    the file's own top-level entry, walked with the page index moved by the
    file's offset: an entry that pointed at page [j] of the file points at
    page [j + offset] of the merged document. *)
Theorem merged_outline_nests_file_outlines (output_dir final_pdf_filename : string)
    (w : world) :
  let cs := Merged.candidates output_dir w in
  let pds := omap (fun p => (fun d => (p, d)) <$> Candidate.usable (files w) p) cs in
  pds <> [] ->
  exists m : document,
    files (snd (pdfinsert.merge_pdfs_with_bookmarks output_dir final_pdf_filename w))
      !! (pdfinsert.PROJECT_DIR, final_pdf_filename) = Some (PdfFile m)
    /\ length (outline m) = length pds
    /\ forall (i : nat) (p : path) (d : document),
         pds !! i = Some (p, d) ->
         let off := Z.of_nat (sum_list (map (fun pd => page_count (snd pd)) (take i pds))) in
         outline m !! i
         = Some (Node (Names.stem (path_name p)) off
                   (Remap.remap (get_page_number d) (fun j => j + off) (reader_outline d)))
         /\ (Forall (Source.targets_in_range (length (pages d))) (outline d) ->
             outline m !! i
             = Some (Node (Names.stem (path_name p)) off
                       (map (Source.retarget (fun j => j + off)) (outline d)))).
Proof.
  intros cs pds Hne.
  destruct (merge_run output_dir final_pdf_filename w) as (log & ->).
  destruct (merge_written output_dir final_pdf_filename w) as [Hsome _].
  fold cs in Hsome. fold pds in Hsome. destruct (Hsome Hne) as [-> _].
  eexists. cbn [snd files]. rewrite lookup_insert_eq. split; [reflexivity|].
  cbn [outline]. split; [apply entries_length|].
  intros i p d Hi.
  pose proof (entries_lookup 0 pds i p d Hi) as Hl. cbn zeta in Hl.
  rewrite Z.add_0_l in Hl. split; [exact Hl|].
  intros Hr. rewrite Hl. do 2 f_equal. by apply remap_own_outline.
Qed.

Lemma candidates_dir (d : string) (w : world) (p : path) :
  p ∈ Merged.candidates d w -> fst p = d.
Proof.
  unfold Merged.candidates. intros H. apply (proj1 (sort_paths_elem _ _)) in H.
  apply list_elem_of_filter in H as [_ H].
  apply list_elem_of_fmap in H as (n & -> & _). done.
Qed.

Lemma merge_step_ext (fs1 fs2 : gmap path file) (ps : list path)
    (s : pdfinsert.merge_state) :
  (forall p, p ∈ ps -> fs1 !! p = fs2 !! p) ->
  foldl (Merged.merge_step fs1) s ps = foldl (Merged.merge_step fs2) s ps.
Proof.
  revert s. induction ps as [|p ps IH]; intros s H; simpl; [done|].
  assert (Merged.merge_step fs1 s p = Merged.merge_step fs2 s p) as ->.
  { unfold Merged.merge_step. rewrite (H p); [done|]. by left. }
  apply IH. intros q Hq. apply H. by right.
Qed.

(** X10.  The merge writes one file and nothing else, and running it again
    changes nothing: the merged file lies in the project directory, not in
    the directory it is merged from, so it is never one of its own
    candidates. *)
Theorem merge_is_idempotent (output_dir final_pdf_filename : string) (w : world)
    (Hdir : output_dir <> pdfinsert.PROJECT_DIR) :
  let w1 := snd (pdfinsert.merge_pdfs_with_bookmarks output_dir final_pdf_filename w) in
  let w2 := snd (pdfinsert.merge_pdfs_with_bookmarks output_dir final_pdf_filename w1) in
  (forall p, p <> (pdfinsert.PROJECT_DIR, final_pdf_filename) ->
             files w1 !! p = files w !! p)
  /\ files w2 = files w1.
Proof.
  cbn zeta.
  destruct (merge_run output_dir final_pdf_filename w) as (log & ->). cbn [snd].
  set (w1 := World _ _ _).
  destruct (merge_run output_dir final_pdf_filename w1) as (log' & ->). cbn [snd files].
  assert (forall p, p <> (pdfinsert.PROJECT_DIR, final_pdf_filename) ->
                    files w1 !! p = files w !! p) as Hother.
  { intros p Hp. unfold w1. cbn [files]. unfold Merged.files_after.
    destruct (Merged.candidates output_dir w); [done|].
    destruct (_ =? 0); [done|]. by rewrite lookup_insert_ne. }
  split; [exact Hother|].
  assert (Merged.candidates output_dir w1 = Merged.candidates output_dir w) as Hc.
  { apply candidates_same. intros n. rewrite Hother; [done|]. congruence. }
  assert (Merged.merged output_dir w1 = Merged.merged output_dir w) as Hm.
  { unfold Merged.merged. rewrite Hc. apply merge_step_ext. intros p Hp.
    apply Hother. apply candidates_dir in Hp. intros ->. by apply Hdir. }
  unfold Merged.files_after at 1. rewrite Hc, Hm.
  change (files w1) with (Merged.files_after output_dir final_pdf_filename w).
  clear Hother Hc Hm. clearbody w1. unfold Merged.files_after.
  destruct (Merged.candidates output_dir w); [done|].
  destruct (_ =? 0); [done|]. by rewrite insert_insert_eq.
Qed.
End MergeTheorems.

Lemma merge_skips_unusable_files_witness :
  exists w' : Env.world,
    pdfinsert.merge_pdfs_with_bookmarks pdfinsert.OUTPUT_DIR pdfinsert.MERGED_FILENAME
      output_with_garbage = (inl tt, w')
    /\ Env.ErrMerging (2 + 1)
         (length (Merged.candidates pdfinsert.OUTPUT_DIR output_with_garbage))
         (pdfinsert.OUTPUT_DIR, "10-c.pdf") Pdf.PdfReadError ∈ Env.console w'
    /\ exists m : Pdf.document,
         Env.files w' !! (pdfinsert.PROJECT_DIR, pdfinsert.MERGED_FILENAME)
         = Some (Env.PdfFile m)
         /\ Pdf.top_level (Pdf.outline m) = [("1-a", 0); ("2-b", 2)].
Proof.
  destruct (merge_skips_unusable_files pdfinsert.OUTPUT_DIR pdfinsert.MERGED_FILENAME
              output_with_garbage) as (w' & Hrun & Hg & _ & Hsome & _).
  exists w'. split; [exact Hrun|]. split.
  - apply (Hg 2%nat (pdfinsert.OUTPUT_DIR, "10-c.pdf")); vm_compute; reflexivity.
  - destruct Hsome as (m & Hf & _ & Ht & _); [vm_compute; discriminate|].
    exists m. split; [exact Hf|]. rewrite Ht. vm_compute. reflexivity.
Defined.

Lemma merged_outline_nests_file_outlines_witness :
  exists m : Pdf.document,
    Env.files (snd (pdfinsert.merge_pdfs_with_bookmarks pdfinsert.OUTPUT_DIR
                      pdfinsert.MERGED_FILENAME
                      (Env.World
                         (<[ (pdfinsert.OUTPUT_DIR, "2-b.pdf") := Env.PdfFile Demo.doc1 ]>
                          (<[ (pdfinsert.OUTPUT_DIR, "1-a.pdf") := Env.PdfFile Demo.doc2 ]> ∅))
                         ∅ [])))
      !! (pdfinsert.PROJECT_DIR, pdfinsert.MERGED_FILENAME) = Some (Env.PdfFile m)
    /\ Pdf.outline m !! 1%nat
       = Some (Pdf.Node "2-b" 1 [Pdf.Node "Intro" 1 [Pdf.Node "Sub" 2 []]]).
Proof.
  destruct (merged_outline_nests_file_outlines pdfinsert.OUTPUT_DIR
              pdfinsert.MERGED_FILENAME
              (Env.World
                 (<[ (pdfinsert.OUTPUT_DIR, "2-b.pdf") := Env.PdfFile Demo.doc1 ]>
                  (<[ (pdfinsert.OUTPUT_DIR, "1-a.pdf") := Env.PdfFile Demo.doc2 ]> ∅))
                 ∅ []))
    as (m & Hf & _ & Hentry).
  - vm_compute. discriminate.
  - exists m. split; [exact Hf|].
    destruct (Hentry 1%nat (pdfinsert.OUTPUT_DIR, "2-b.pdf") Demo.doc1) as [_ Hshift];
      [vm_compute; reflexivity|].
    rewrite Hshift; [vm_compute; reflexivity|].
    repeat constructor; simpl; lia.
Defined.

Lemma merge_is_idempotent_witness :
  let w1 := snd (pdfinsert.merge_pdfs_with_bookmarks pdfinsert.OUTPUT_DIR
                   pdfinsert.MERGED_FILENAME output_with_garbage) in
  Env.files (snd (pdfinsert.merge_pdfs_with_bookmarks pdfinsert.OUTPUT_DIR
                    pdfinsert.MERGED_FILENAME w1))
  = Env.files w1.
Proof.
  intros w1.
  destruct (merge_is_idempotent pdfinsert.OUTPUT_DIR pdfinsert.MERGED_FILENAME
              output_with_garbage) as [_ Hsame].
  - discriminate.
  - exact Hsame.
Defined.

(** ** The batch of [pdfinsert] *)

Section BatchFacts.
Import Pdf Env.

(** The world in which the merge step, or the message that it is skipped,
    runs: after the loop and the summary. *)
Lemma process_all_pdfs_run (w : world) :
  let ns := filter (fun n => Names.ends_with ".pdf" n = true)
                   (listdir pdfinsert.INPUT_DIR w) in
  ns <> [] ->
  let t := foldl (Batch.tally (files w)) (0%nat, []) ns in
  exists ds log,
    let w1 := World (foldl Batch.step (files w) ns) ds
                (console w ++ log ++ [InfoSummary (fst t) (length (snd t))]
                 ++ (if (length (snd t) =? 0)%nat then [] else [ErrFailedList (snd t)])) in
    pdfinsert.process_all_pdfs w
    = (if (0 <? fst t)%nat
       then pdfinsert.merge_pdfs_with_bookmarks pdfinsert.OUTPUT_DIR
              pdfinsert.MERGED_FILENAME w1
       else print ErrSkipMerge w1)
    /\ (forall n f e, n ∈ ns -> files w !! (pdfinsert.INPUT_DIR, n) = Some f ->
          Batch.raises f = Some e ->
          ErrProcessing (pdfinsert.INPUT_DIR, n) e ∈ log
          /\ InfoCopiedOriginal (pdfinsert.OUTPUT_DIR, n) ∈ log).
Proof.
  intros ns Hne t.
  assert (Forall (fun n => is_Some (files w !! (pdfinsert.INPUT_DIR, n))) ns) as Hexist.
  { apply Forall_forall. intros n [_ Hn]%list_elem_of_filter. by apply listdir_elem. }
  set (w0 := World (files w)
               ({[pdfinsert.BACKUP_DIR]} ∪ ({[pdfinsert.OUTPUT_DIR]}
                                            ∪ ({[pdfinsert.INPUT_DIR]} ∪ dirs w)))
               ((console w ++ [InfoScan pdfinsert.INPUT_DIR]) ++ [InfoFound (length ns)])).
  destruct (batch_loop ns (0%nat, []) w0 Hexist) as (ds & log & Hloop & Hlog).
  cbn [files console w0] in Hloop, Hlog. fold t in Hloop.
  exists ds, (InfoScan pdfinsert.INPUT_DIR :: InfoFound (length ns) :: log).
  split.
  - rewrite (process_all_pdfs_found w ns eq_refl Hne).
    fold w0. unfold mbind at 1. unfold M_bind at 1. unfold bind at 1. rewrite Hloop.
    destruct t as [count failed]. cbn [fst snd].
    erewrite bind_ok by (by run).
    erewrite bind_ok; cycle 1.
    { instantiate (1 := World (foldl Batch.step (files w) ns) ds
         (console w ++ (InfoScan pdfinsert.INPUT_DIR :: InfoFound (length ns) :: log)
          ++ [InfoSummary count (length failed)]
          ++ (if (length failed =? 0)%nat then [] else [ErrFailedList failed]))).
      instantiate (1 := tt).
      destruct (length failed =? 0)%nat; run; cbn [files dirs console negb];
        rewrite <- ?app_assoc; cbn [app]; by rewrite ?app_nil_r. }
    by destruct (0 <? count)%nat.
  - intros n f e Hn Hf He. destruct (Hlog n f e Hn Hf He) as [H1 H2].
    split; by do 2 apply list_elem_of_further.
Qed.

Lemma tally_all_bad (fs : gmap path file) (ns : list string) (acc : nat * list string) :
  Forall (fun n => forall f, fs !! (pdfinsert.INPUT_DIR, n) = Some f ->
                             Batch.succeeds f = false) ns ->
  foldl (Batch.tally fs) acc ns = (fst acc, snd acc ++ ns).
Proof.
  intros H. revert acc. induction H as [|n ns Hn _ IH]; intros acc; simpl.
  - rewrite app_nil_r. by destruct acc.
  - rewrite IH. unfold Batch.tally.
    destruct (fs !! (pdfinsert.INPUT_DIR, n)) as [f|] eqn:E; cbn [fst snd].
    + rewrite (Hn f eq_refl). cbn [fst snd]. by rewrite <- app_assoc.
    + by rewrite <- app_assoc.
Qed.

Lemma step_other_dir (fs : gmap path file) (n : string) (p : path) :
  fst p <> pdfinsert.OUTPUT_DIR -> fst p <> pdfinsert.BACKUP_DIR ->
  Batch.step fs n !! p = fs !! p.
Proof.
  destruct p as [d m]. cbn [fst]. intros Ho Hb. unfold Batch.step.
  destruct (fs !! (pdfinsert.INPUT_DIR, n)) as [f|]; [|done].
  rewrite !lookup_delete_ne by congruence.
  destruct (Batch.output_of f);
    rewrite ?(lookup_insert_ne _ (pdfinsert.OUTPUT_DIR, n)) by congruence;
    by rewrite lookup_insert_ne by congruence.
Qed.

Lemma foldl_step_other_dir (fs : gmap path file) (ns : list string) (p : path) :
  fst p <> pdfinsert.OUTPUT_DIR -> fst p <> pdfinsert.BACKUP_DIR ->
  foldl Batch.step fs ns !! p = fs !! p.
Proof.
  intros Ho Hb. revert fs. induction ns as [|n ns IH]; intros fs; simpl; [done|].
  by rewrite IH, step_other_dir.
Qed.

Lemma step_backup (fs : gmap path file) (k n : string) :
  Batch.step fs k !! (pdfinsert.BACKUP_DIR, n)
  = if decide (n = k)
    then match fs !! (pdfinsert.INPUT_DIR, k) with
         | Some f => Some f
         | None => fs !! (pdfinsert.BACKUP_DIR, n)
         end
    else fs !! (pdfinsert.BACKUP_DIR, n).
Proof.
  unfold Batch.step.
  destruct (fs !! (pdfinsert.INPUT_DIR, k)) as [f|]; [|by destruct (decide _)].
  rewrite !lookup_delete_ne by done.
  destruct (Batch.output_of f); rewrite ?(lookup_insert_ne _ (pdfinsert.OUTPUT_DIR, k)) by done.
  - destruct (decide (n = k)) as [->|]; [by rewrite lookup_insert_eq|].
    rewrite lookup_insert_ne; [done|congruence].
  - destruct (decide (n = k)) as [->|]; [by rewrite lookup_insert_eq|].
    rewrite lookup_insert_ne; [done|congruence].
Qed.

Lemma foldl_step_backup (fs : gmap path file) (ns : list string) (n : string) (f : file) :
  n ∈ ns -> fs !! (pdfinsert.INPUT_DIR, n) = Some f ->
  foldl Batch.step fs ns !! (pdfinsert.BACKUP_DIR, n) = Some f.
Proof.
  revert fs. induction ns as [|k ns IH]; intros fs Hn Hf; [by apply elem_of_nil in Hn|].
  simpl. destruct (decide (n ∈ ns)) as [Hin|Hnot].
  - apply IH; [done|]. by rewrite step_input.
  - apply elem_of_cons in Hn as [->|Hn]; [|done].
    assert (forall gs, gs !! (pdfinsert.BACKUP_DIR, k) = Some f ->
                       foldl Batch.step gs ns !! (pdfinsert.BACKUP_DIR, k) = Some f) as Hkeep.
    { clear IH. induction ns as [|m ns IHns]; intros gs Hgs; simpl; [done|].
      apply IHns; [set_solver|]. rewrite step_backup.
      destruct (decide (k = m)) as [->|]; [set_solver|done]. }
    apply Hkeep. rewrite step_backup, decide_True by done. by rewrite Hf.
Qed.

(** X12.  When no input file is processed successfully (each one is
    unreadable, empty, or has a page that cannot be worked on), the batch
    reports 0 successes, lists every file as failed, prints that the merge is
    skipped and leaves the merged file as it was. *)
Theorem batch_without_success_skips_merge (w : world) :
  let ns := filter (fun n => Names.ends_with ".pdf" n = true)
                   (listdir pdfinsert.INPUT_DIR w) in
  ns <> [] ->
  (forall n f, n ∈ ns -> files w !! (pdfinsert.INPUT_DIR, n) = Some f ->
               Batch.succeeds f = false) ->
  exists (w' : world) (log : list event),
    pdfinsert.process_all_pdfs w = (inl tt, w')
    /\ console w'
       = console w ++ log
         ++ [InfoSummary 0 (length ns); ErrFailedList ns; ErrSkipMerge]
    /\ files w' !! pdfinsert.MERGED_FILE_PATH = files w !! pdfinsert.MERGED_FILE_PATH.
Proof.
  intros ns Hne Hbad.
  destruct (process_all_pdfs_run w Hne) as (ds & log & Hrun & _).
  fold ns in Hrun. cbn zeta in Hrun.
  rewrite (tally_all_bad (files w) ns) in Hrun; cycle 1.
  { apply Forall_forall. intros n Hn f Hf. by apply (Hbad n f). }
  cbn [fst snd app Nat.ltb Nat.leb] in Hrun.
  destruct (length ns =? 0)%nat eqn:El.
  { apply Nat.eqb_eq in El. by destruct ns. }
  rewrite Hrun. eexists _, log. split; [by run|].
  cbn [console files]. split.
  - by rewrite <- !app_assoc.
  - by apply foldl_step_other_dir.
Qed.

(** X13.  Whatever the batch does to its files, it never raises, it leaves
    every file of the input directory as it was, and for every input PDF the
    backup directory holds a copy of the original. *)
Theorem batch_keeps_inputs_and_backs_up (w : world) :
  let ns := filter (fun n => Names.ends_with ".pdf" n = true)
                   (listdir pdfinsert.INPUT_DIR w) in
  exists w' : world,
    pdfinsert.process_all_pdfs w = (inl tt, w')
    /\ (forall m, files w' !! (pdfinsert.INPUT_DIR, m) = files w !! (pdfinsert.INPUT_DIR, m))
    /\ (forall n, n ∈ ns ->
                  files w' !! (pdfinsert.BACKUP_DIR, n)
                  = files w !! (pdfinsert.INPUT_DIR, n)).
Proof.
  intros ns. destruct ns as [|n0 ns0] eqn:Ens.
  - exists (World (files w)
              ({[pdfinsert.BACKUP_DIR]} ∪ ({[pdfinsert.OUTPUT_DIR]}
                                           ∪ ({[pdfinsert.INPUT_DIR]} ∪ dirs w)))
              ((console w ++ [InfoScan pdfinsert.INPUT_DIR])
               ++ [WarnNoInput pdfinsert.INPUT_DIR])).
    split; [|split; [done | by intros n Hn%elem_of_nil]].
    unfold pdfinsert.process_all_pdfs.
    do 4 (erewrite bind_ok by (by run)).
    erewrite bind_ok by (by unfold glob_pdf).
    cbn [files dirs console]. rewrite listdir_files. fold ns. rewrite Ens. by run.
  - rewrite <- Ens. assert (ns <> []) as Hne by (by rewrite Ens).
    destruct (process_all_pdfs_run w Hne) as (ds & log & Hrun & _).
    fold ns in Hrun. cbn zeta in Hrun.
    set (w1 := World _ _ _) in Hrun.
    assert (exists w', pdfinsert.process_all_pdfs w = (inl tt, w')
                       /\ forall p, p <> pdfinsert.MERGED_FILE_PATH ->
                                    files w' !! p = files w1 !! p) as (w' & Hw' & Hsame).
    { rewrite Hrun. destruct (0 <? _)%nat.
      - destruct (merge_run pdfinsert.OUTPUT_DIR pdfinsert.MERGED_FILENAME w1)
          as (mlog & ->).
        eexists. split; [reflexivity|]. intros p Hp. cbn [files].
        unfold Merged.files_after.
        destruct (Merged.candidates _ _); [done|]. destruct (_ =? 0); [done|].
        by rewrite lookup_insert_ne.
      - eexists. split; [by run|]. done. }
    exists w'. split; [exact Hw'|]. split.
    + intros m. rewrite Hsame by done. unfold w1. cbn [files].
      apply foldl_step_input.
    + intros n Hn. rewrite Hsame by done. unfold w1. cbn [files].
      assert (is_Some (files w !! (pdfinsert.INPUT_DIR, n))) as [f Hf].
      { apply list_elem_of_filter in Hn as [_ Hn]. by apply listdir_elem. }
      rewrite Hf. by apply foldl_step_backup.
Qed.
End BatchFacts.

Section GoodBatch.
Import Pdf Env.

Lemma insert_sorted_map {A B} (g : A -> B) (ltA : A -> A -> bool) (ltB : B -> B -> bool)
    (x : A) (l : list A) :
  (forall a b, ltB (g a) (g b) = ltA a b) ->
  Names.insert_sorted ltB (g x) (map g l) = map g (Names.insert_sorted ltA x l).
Proof.
  intros H. induction l as [|y l IH]; simpl; [done|].
  rewrite H. destruct (ltA y x); simpl; [by rewrite IH | done].
Qed.

Lemma stable_sort_map {A B} (g : A -> B) (ltA : A -> A -> bool) (ltB : B -> B -> bool)
    (l : list A) :
  (forall a b, ltB (g a) (g b) = ltA a b) ->
  Names.stable_sort ltB (map g l) = map g (Names.stable_sort ltA l).
Proof.
  intros H. unfold Names.stable_sort. induction l as [|x l IH]; simpl; [done|].
  rewrite IH. by apply insert_sorted_map.
Qed.

Lemma sort_paths_in_dir (d : string) (l : list string) :
  pdfinsert.sort_paths (map (fun n => (d, n)) l)
  = map (fun n => (d, n)) (Names.sort_by_key l).
Proof. unfold pdfinsert.sort_paths, Names.sort_by_key. by apply stable_sort_map. Qed.

Lemma sort_by_key_elem (n : string) (l : list string) :
  n ∈ Names.sort_by_key l <-> n ∈ l.
Proof. unfold Names.sort_by_key. by rewrite <- stable_sort_perm. Qed.

Lemma Forall2_choice {A B} (P : A -> B -> Prop) (l : list A) :
  (forall x, x ∈ l -> exists y, P x y) -> exists k, Forall2 P l k.
Proof.
  induction l as [|x l IH]; intros H; [by exists []|].
  destruct (H x) as [y Hy]; [by left|].
  destruct IH as [k Hk]; [intros z Hz; apply H; by right|].
  exists (y :: k). by constructor.
Qed.

Lemma Forall2_elem_impl {A B} (P Q : A -> B -> Prop) (l : list A) (k : list B) :
  Forall2 P l k -> (forall x y, x ∈ l -> P x y -> Q x y) -> Forall2 Q l k.
Proof.
  induction 1 as [|x y l k Hxy _ IH]; intros H; constructor.
  - apply H; [by left | done].
  - apply IH. intros a b Ha. apply H. by right.
Qed.

Lemma processed_page_count (d : document) :
  page_count (PerFile.processed d) = (2 * page_count d)%nat.
Proof.
  unfold page_count, PerFile.processed, Spec.numbered, PerFile.intermediate. cbn [pages].
  by rewrite stamped_from_length, with_blanks_length, length_map.
Qed.

Lemma sum_processed (ds : list document) :
  sum_list (map page_count (map PerFile.processed ds))
  = (2 * sum_list (map page_count ds))%nat.
Proof.
  induction ds as [|d ds IH]; simpl; [done|].
  rewrite IH, processed_page_count. lia.
Qed.

(** The candidates of the merge after a batch that started with an empty
    output directory: the outputs of the batch, by sort key. *)
Lemma candidates_after_batch (fs1 : gmap path file) (ds : gset string) (c : list event)
    (ns : list string) :
  NoDup ns ->
  (forall n, n ∈ ns -> Names.ends_with ".pdf" n = true
                       /\ Names.starts_with "temp_" n = false) ->
  (forall n, is_Some (fs1 !! (pdfinsert.OUTPUT_DIR, n)) -> n ∈ ns
             \/ Names.starts_with "temp_" n = true \/ Names.ends_with ".pdf" n = false) ->
  (forall n, n ∈ ns -> is_Some (fs1 !! (pdfinsert.OUTPUT_DIR, n))) ->
  Merged.candidates pdfinsert.OUTPUT_DIR (World fs1 ds c)
  = map (fun n => (pdfinsert.OUTPUT_DIR, n)) (Names.sort_by_key ns).
Proof.
  intros Hnd Hns Honly Hall. rewrite <- sort_paths_in_dir.
  unfold Merged.candidates. apply sort_paths_unique.
  - apply NoDup_Permutation.
    + apply NoDup_filter, NoDup_fmap_2; [by intros ?? [=]|].
      apply NoDup_filter, listdir_NoDup.
    + apply NoDup_fmap_2; [by intros ?? [=] | done].
    + intros [d n]. rewrite list_elem_of_filter, !list_elem_of_fmap. cbn [path_name snd].
      split.
      * intros (Ht & m & [= -> ->] & Hm). exists m. split; [done|].
        apply list_elem_of_filter in Hm as [Hpdf Hm]. apply listdir_elem in Hm.
        cbn [files] in Hm. destruct (Honly m Hm) as [?|[?|?]]; [done|congruence..].
      * intros (m & [= -> ->] & Hm). destruct (Hns m Hm) as [Hpdf Ht].
        split; [done|]. exists m. split; [done|].
        apply list_elem_of_filter. split; [done|]. apply listdir_elem. cbn [files].
        by apply Hall.
  - apply candidates_names_NoDup, listdir_NoDup.
Qed.

(** X11.  A batch in which every input goes through, started with an empty
    output directory: every file is counted as a success, each output is the
    processed form of its input, and the merged file holds the outputs one
    after the other in the order of the sort key, with one top-level entry
    per file at twice the number of input pages before it. *)
Theorem batch_of_good_files_is_merged (w : world) :
  let ns := filter (fun n => Names.ends_with ".pdf" n = true)
                   (listdir pdfinsert.INPUT_DIR w) in
  ns <> [] ->
  (forall n, n ∈ ns ->
     exists d, files w !! (pdfinsert.INPUT_DIR, n) = Some (PdfFile d)
               /\ PerFile.processable d) ->
  (forall n, n ∈ ns -> Names.starts_with "temp_" n = false) ->
  (forall n, files w !! (pdfinsert.OUTPUT_DIR, n) = None) ->
  exists (w' : world) (ds : list document) (m : document),
    pdfinsert.process_all_pdfs w = (inl tt, w')
    /\ Forall2 (fun n d => files w !! (pdfinsert.INPUT_DIR, n) = Some (PdfFile d))
               (Names.sort_by_key ns) ds
    /\ InfoSummary (length ns) 0 ∈ console w'
    /\ (forall n d, n ∈ ns -> files w !! (pdfinsert.INPUT_DIR, n) = Some (PdfFile d) ->
          files w' !! (pdfinsert.OUTPUT_DIR, n) = Some (PdfFile (PerFile.processed d)))
    /\ files w' !! pdfinsert.MERGED_FILE_PATH = Some (PdfFile m)
    /\ pages m = concat (map (fun d => pages (PerFile.processed d)) ds)
    /\ length (pages m) = (2 * sum_list (map page_count ds))%nat
    /\ (forall (i : nat) (n : string),
          Names.sort_by_key ns !! i = Some n ->
          top_level (outline m) !! i
          = Some (Names.stem n, Z.of_nat (2 * sum_list (map page_count (take i ds))))).
Proof.
  intros ns Hne Hgood Htemp Hempty.
  assert (NoDup ns) as Hnd by apply NoDup_filter, listdir_NoDup.
  destruct (process_all_pdfs_run w Hne) as (dirs1 & log & Hrun & _).
  fold ns in Hrun. cbn zeta in Hrun.
  rewrite (tally_all_good (files w) ns) in Hrun; cycle 1.
  { apply Forall_forall. intros n Hn. destruct (Hgood n Hn) as (d & Hd & Hp).
    exists (PdfFile d). split; [done|]. by apply processable_succeeds. }
  cbn [fst snd length Nat.eqb Nat.add app] in Hrun.
  assert ((0 <? length ns)%nat = true) as Hpos.
  { apply Nat.ltb_lt. destruct ns; [done|simpl; lia]. }
  rewrite Hpos in Hrun.
  set (fs1 := foldl Batch.step (files w) ns) in *.
  set (w1 := World fs1 dirs1 _) in Hrun.
  assert (forall n d, n ∈ ns -> files w !! (pdfinsert.INPUT_DIR, n) = Some (PdfFile d) ->
            fs1 !! (pdfinsert.OUTPUT_DIR, n) = Some (PdfFile (PerFile.processed d)))
    as Hout.
  { intros n d Hn Hd. unfold fs1.
    rewrite (foldl_step_output_self _ _ n (PdfFile d)) by auto.
    destruct (Hgood n Hn) as (d' & Hd' & Hp). rewrite Hd in Hd'. injection Hd' as <-.
    by rewrite (proj2 (processable_succeeds d Hp)). }
  assert (Merged.candidates pdfinsert.OUTPUT_DIR w1
          = map (fun n => (pdfinsert.OUTPUT_DIR, n)) (Names.sort_by_key ns)) as Hc.
  { apply candidates_after_batch; [done| | |].
    - intros n Hn. split; [by apply list_elem_of_filter in Hn as [? _] | by apply Htemp].
    - intros n Hsome. destruct (decide (n ∈ ns)) as [|Hnot]; [by left|].
      destruct (Names.starts_with "temp_" n) eqn:Et; [by auto|].
      unfold fs1 in Hsome. rewrite foldl_step_output_other in Hsome by done.
      rewrite Hempty in Hsome. by destruct Hsome.
    - intros n Hn. destruct (Hgood n Hn) as (d & Hd & _). by rewrite (Hout n d). }
  destruct (Forall2_choice
              (fun n d => files w !! (pdfinsert.INPUT_DIR, n) = Some (PdfFile d))
              (Names.sort_by_key ns)) as [ds Hds].
  { intros n Hn. apply (proj1 (sort_by_key_elem _ _)) in Hn.
    destruct (Hgood n Hn) as (d & Hd & _). by exists d. }
  assert (length ds = length ns) as Hlen.
  { pose proof Hds as Hl. apply Forall2_length in Hl. rewrite <- Hl.
    unfold Names.sort_by_key. by rewrite <- stable_sort_perm. }
  destruct (pdfinsert_merged_outline pdfinsert.OUTPUT_DIR pdfinsert.MERGED_FILENAME w1
              (map PerFile.processed ds)) as (m & Hm & Htop & Hpages).
  { destruct ds; [by destruct ns|done]. }
  { rewrite Hc. apply Forall2_fmap. eapply Forall2_elem_impl; [exact Hds|].
    intros n d Hn Hd. apply (proj1 (sort_by_key_elem _ _)) in Hn. cbn [files w1]. split; [by apply Hout|].
    destruct (Hgood n Hn) as (d' & Hd' & Hp & _). rewrite Hd in Hd'. injection Hd' as <-.
    intros E. apply (f_equal length) in E.
    pose proof (processed_page_count d) as Hpc. unfold page_count in Hpc.
    rewrite Hpc in E. destruct (pages d); [done|simpl in E; lia]. }
  destruct (merge_run pdfinsert.OUTPUT_DIR pdfinsert.MERGED_FILENAME w1) as (mlog & Hmerge).
  rewrite Hmerge in Hm. cbn [snd files] in Hm.
  eexists _, ds, m. split; [by rewrite Hrun, Hmerge|].
  cbn [files console]. split_and!.
  - exact Hds.
  - unfold w1. cbn [console]. rewrite !elem_of_app, list_elem_of_singleton. auto 6.
  - intros n d Hn Hd. unfold Merged.files_after.
    destruct (Merged.candidates _ _); [by apply Hout|]. destruct (_ =? 0); [by apply Hout|].
    rewrite lookup_insert_ne by done. by apply Hout.
  - exact Hm.
  - by rewrite Hpages, map_map.
  - rewrite Hpages, length_concat, !map_map.
    rewrite <- sum_processed, map_map. done.
  - intros i n Hi. rewrite Htop, Hc, map_map. cbn [path_name snd].
    destruct (lookup_lt_is_Some_2 ds i) as [d Hd].
    { rewrite Hlen. apply lookup_lt_Some in Hi. unfold Names.sort_by_key in Hi.
      by rewrite <- stable_sort_perm in Hi. }
    rewrite lookup_zip_with. rewrite list_lookup_fmap, Hi. cbn [fmap option_fmap option_map mbind option_bind].
    rewrite (offsets_lookup _ 0 i (PerFile.processed d)) by (by rewrite list_lookup_fmap, Hd).
    cbn [mbind option_bind]. rewrite <- fmap_take, sum_processed. done.
Qed.
End GoodBatch.

Lemma batch_without_success_skips_merge_witness :
  exists (w' : Env.world) (log : list Env.event),
    pdfinsert.process_all_pdfs
      (Env.World {[ (pdfinsert.INPUT_DIR, "x.pdf") := Env.Garbage ]} ∅ [])
    = (inl tt, w')
    /\ Env.console w'
       = [] ++ log ++ [Env.InfoSummary 0 1; Env.ErrFailedList ["x.pdf"]; Env.ErrSkipMerge].
Proof.
  set (w := Env.World {[ (pdfinsert.INPUT_DIR, "x.pdf") := Env.Garbage ]} ∅ []).
  set (ns := filter (fun n => Names.ends_with ".pdf" n = true)
               (Env.listdir pdfinsert.INPUT_DIR w)).
  assert (ns = ["x.pdf"]) as E by (vm_compute; reflexivity).
  assert (Env.files w !! (pdfinsert.INPUT_DIR, "x.pdf") = Some Env.Garbage) as Hx
    by (vm_compute; reflexivity).
  assert (ns <> []) as Hne by (rewrite E; discriminate).
  assert (forall n f, n ∈ ns -> Env.files w !! (pdfinsert.INPUT_DIR, n) = Some f ->
                      Batch.succeeds f = false) as Hbad.
  { intros n f Hn Hf. rewrite E in Hn. apply list_elem_of_singleton in Hn. subst n.
    rewrite Hx in Hf. injection Hf as <-. reflexivity. }
  destruct (batch_without_success_skips_merge w Hne Hbad) as (w' & log & Hrun & Hlog & _).
  exists w', log. split; [exact Hrun|]. rewrite Hlog. fold ns. rewrite E. reflexivity.
Defined.

Lemma batch_of_good_files_is_merged_witness :
  exists (w' : Env.world) (m : Pdf.document),
    pdfinsert.process_all_pdfs good_batch = (inl tt, w')
    /\ Env.files w' !! pdfinsert.MERGED_FILE_PATH = Some (Env.PdfFile m)
    /\ Pdf.top_level (Pdf.outline m) !! 0%nat = Some ("2-b", 0).
Proof.
  set (ns := filter (fun n => Names.ends_with ".pdf" n = true)
               (Env.listdir pdfinsert.INPUT_DIR good_batch)).
  assert (ns = ["10-a.pdf"; "2-b.pdf"]) as E by (vm_compute; reflexivity).
  assert (forall n, n ∈ ns -> n = "10-a.pdf" \/ n = "2-b.pdf") as Hns.
  { intros n Hn. rewrite E in Hn. rewrite !elem_of_cons in Hn.
    destruct Hn as [->|[->|Hn]]; auto. destruct (not_elem_of_nil _ Hn). }
  assert (ns <> []) as Hne by (rewrite E; discriminate).
  assert (forall n, n ∈ ns ->
            exists d, Env.files good_batch !! (pdfinsert.INPUT_DIR, n) = Some (Env.PdfFile d)
                      /\ PerFile.processable d) as Hgood.
  { intros n Hn. destruct (Hns n Hn) as [->| ->].
    - exists Demo.doc1. split; [vm_compute; reflexivity|].
      split; [discriminate | repeat constructor].
    - exists Demo.doc2. split; [vm_compute; reflexivity|].
      split; [discriminate | repeat constructor]. }
  assert (forall n, n ∈ ns -> Names.starts_with "temp_" n = false) as Htemp.
  { intros n Hn. destruct (Hns n Hn) as [->| ->]; reflexivity. }
  assert (forall n, Env.files good_batch !! (pdfinsert.OUTPUT_DIR, n) = None) as Hempty.
  { intros n. unfold good_batch. cbn [Env.files].
    rewrite !lookup_insert_ne by (intros [= H]; discriminate H).
    apply lookup_empty. }
  assert (Names.sort_by_key ns !! 0%nat = Some "2-b.pdf") as Hfirst
    by (rewrite E; vm_compute; reflexivity).
  destruct (batch_of_good_files_is_merged good_batch Hne Hgood Htemp Hempty)
    as (w' & ds & m & Hrun & _ & _ & _ & Hm & _ & _ & Htop).
  exists w', m. split; [exact Hrun|]. split; [exact Hm|].
  rewrite (Htop 0%nat "2-b.pdf" Hfirst). reflexivity.
Defined.

(** ** The labels of [pdf_fill] *)

Section FillLabels.
Import Pdf Env.
Variable FONT_NAME : string.
Variable stringWidth : string -> string -> Q -> Q.

Lemma draw_label_page (part1 part2 : string) :
  parses (fst (pdf_fill.draw_label FONT_NAME stringWidth part1 part2)) = true
  /\ width (fst (pdf_fill.draw_label FONT_NAME stringWidth part1 part2)) = fst pdf_fill.A4
  /\ height (fst (pdf_fill.draw_label FONT_NAME stringWidth part1 part2)) = snd pdf_fill.A4.
Proof.
  unfold pdf_fill.draw_label.
  by destruct (if String.eqb part1 "" then _ else _) as [ops1 l1].
Qed.

(** One round of the numbering loop when the cursor names a file. *)
Lemma number_page_named (merge_mode : bool) (total idx : nat) (c : pdf_fill.cursor)
    (wr : writer) (w : world) (pg : page) (name : string) :
  let cw := if merge_mode
            then pdf_fill.advance idx (pdf_fill.file_info_iter c)
                   (pdf_fill.current_file_name c) (pdf_fill.current_file_total_pages c)
                   (pdf_fill.current_original_file_global_start_idx c)
            else (c, []) in
  let c1 := fst cw in
  pdf_fill.current_file_name c1 = Some name -> name <> "" ->
  pdf_fill.current_file_total_pages c1 <> 0%nat ->
  wpages wr !! idx = Some pg -> parses pg = true ->
  let part1 :=
    pdf_fill.part1_text name
      (if merge_mode
       then (idx - pdf_fill.current_original_file_global_start_idx c1 + 1)%nat
       else (idx + 1)%nat)
      (pdf_fill.current_file_total_pages c1) in
  pdf_fill.number_page FONT_NAME stringWidth merge_mode total idx (c, wr) w
  = (inl (c1, Writer (<[idx := Label.stamped FONT_NAME stringWidth (fun _ => part1)
                                  total idx pg]> (wpages wr))
                (woutline wr)),
     World (files w) (dirs w)
       (console w ++ snd cw
        ++ snd (pdf_fill.draw_label FONT_NAME stringWidth part1
                  (pdf_fill.part2_text idx total)))).
Proof.
  intros cw c1 Hname Hne Htotal Hpg Hparse part1.
  unfold pdf_fill.number_page. fold cw.
  destruct cw as [c1' warn] eqn:Ecw. cbn [fst snd] in *. subst c1.
  erewrite bind_ok by apply print_all.
  rewrite Hname.
  assert (String.eqb name "" = false) as -> by (by apply String.eqb_neq).
  assert ((pdf_fill.current_file_total_pages c1' =? 0)%nat = false) as ->
    by (by apply Nat.eqb_neq).
  cbn [orb].
  erewrite bind_ok by (by run).
  cbn [console files dirs]. fold part1.
  destruct (pdf_fill.draw_label FONT_NAME stringWidth part1 (pdf_fill.part2_text idx total))
    as [wm log] eqn:Elabel.
  erewrite bind_ok by apply print_all.
  rewrite Hpg.
  pose proof (draw_label_page part1 (pdf_fill.part2_text idx total)) as (Hwm & _ & _).
  rewrite Elabel in Hwm. cbn [fst] in Hwm.
  unfold merge_page. rewrite Hparse, Hwm. run. cbn [files dirs console snd].
  unfold Label.stamped. rewrite Elabel. cbn [fst]. by rewrite <- !app_assoc.
Qed.

Lemma stamped_from_length' (part1 : nat -> string) (total k : nat) (ps : list page) :
  length (Label.stamped_from FONT_NAME stringWidth part1 total k ps) = length ps.
Proof. revert k. induction ps as [|p ps IH]; intros k; simpl; [done | by rewrite IH]. Qed.

Lemma stamped_from_lookup' (part1 : nat -> string) (total k i : nat) (ps : list page) :
  Label.stamped_from FONT_NAME stringWidth part1 total k ps !! i
  = Label.stamped FONT_NAME stringWidth part1 total (k + i) <$> ps !! i.
Proof.
  revert k i. induction ps as [|p ps IH]; intros k [|i]; simpl; try done.
  - by rewrite Nat.add_0_r.
  - rewrite IH. by rewrite Nat.add_succ_r.
Qed.

(** The numbering loop of single-file mode. *)
Lemma number_loop_single (name : string) (total k : nat) (rest pre : list page)
    (o : list onode) (w : world) :
  name <> "" -> total <> 0%nat -> k = length pre ->
  Forall (fun p => parses p = true) rest ->
  let c := pdf_fill.Cursor [] (Some name) total 0 in
  let part1 := fun g => pdf_fill.part1_text name (g + 1)%nat total in
  for_each (seq k (length rest))
    (pdf_fill.number_page FONT_NAME stringWidth false total) (c, Writer (pre ++ rest) o) w
  = (inl (c, Writer (pre ++ Label.stamped_from FONT_NAME stringWidth part1 total k rest) o),
     World (files w) (dirs w)
       (console w ++ Label.warnings_from FONT_NAME stringWidth part1 total k rest)).
Proof.
  intros Hname Htotal Hk Hparse c part1. revert k pre w Hk.
  induction Hparse as [|p rest Hp _ IH]; intros k pre w Hk.
  - simpl. run. rewrite !app_nil_r. by destruct w.
  - cbn [length seq].
    erewrite for_each_cons_ok; cycle 1.
    { apply (number_page_named false total k c _ w p name); [done|done|done| |done].
      cbn [wpages]. by rewrite lookup_app_r, Hk, Nat.sub_diag by lia. }
    cbn [fst snd app].
    replace (<[k := _]> (pre ++ p :: rest))
      with ((pre ++ [Label.stamped FONT_NAME stringWidth part1 total k p]) ++ rest).
    2:{ rewrite insert_app_r_alt, Hk, Nat.sub_diag by lia. by rewrite <- app_assoc. }
    rewrite (IH (S k)) by (rewrite length_app; simpl; lia).
    cbn [files dirs console Label.stamped_from Label.warnings_from].
    by rewrite <- !app_assoc.
Qed.
End FillLabels.

Section FillSingle.
Import Pdf Env.
Variable FONT_NAME : string.
Variable stringWidth : string -> string -> Q -> Q.

Lemma resized_parse (ps : list page) :
  Forall Filled.fits ps -> Forall (fun p => parses p = true) (map Filled.resized ps).
Proof.
  induction 1 as [|p ps Hp _ IH]; simpl; constructor; [|done].
  by apply resize_fits.
Qed.

(** [process_pdf] with page numbers, on an input it can resize. *)
Lemma process_pdf_numbered (input_path output_path : string) (w : world) (d : document) :
  files w !! pdf_fill.to_path input_path = Some (PdfFile d) ->
  Forall Filled.fits (pages d) ->
  pdf_fill.base_name_of input_path <> "" ->
  let total := length (pages d) in
  let part1 := fun g => pdf_fill.part1_text (pdf_fill.base_name_of input_path)
                          (g + 1)%nat total in
  pdf_fill.process_pdf FONT_NAME stringWidth input_path output_path true w
  = (inl output_path,
     World (<[pdf_fill.to_path output_path
              := PdfFile (Document
                            (Label.stamped_from FONT_NAME stringWidth part1 total 0
                               (map Filled.resized (pages d))) [])]> (files w))
           (dirs w)
           (console w ++ Label.warnings_from FONT_NAME stringWidth part1 total 0
                           (map Filled.resized (pages d)))).
Proof.
  intros Hfile Hfits Hbase total part1. unfold pdf_fill.process_pdf.
  erewrite bind_ok by (by apply PdfReader_ok).
  erewrite bind_ok by (by apply resize_loop).
  cbn [wpages woutline new_writer app]. fold total.
  unfold pdf_fill.add_page_numbers.
  assert (String.eqb (pdf_fill.base_name_of input_path) "" = false) as ->
    by (by apply String.eqb_neq).
  destruct (decide (total = 0%nat)) as [E|Hne].
  - rewrite E. assert (pages d = []) as -> by (by destruct (pages d)).
    cbn [seq for_each map Label.stamped_from Label.warnings_from].
    run. cbn [files dirs console written wpages woutline]. by rewrite app_nil_r.
  - erewrite bind_ok; cycle 1.
    { erewrite bind_ok; [reflexivity|].
      replace total with (length (map Filled.resized (pages d))) at 1
        by (by rewrite length_map).
      apply (number_loop_single FONT_NAME stringWidth (pdf_fill.base_name_of input_path)
               total 0 (map Filled.resized (pages d)) [] [] w);
        [done | done | done | by apply resized_parse]. }
    run. cbn [files dirs console written wpages woutline app]. done.
Qed.

(** The document [process_pdf] writes with page numbers, page by page. *)
Lemma numbered_doc (name : string) (d : document) :
  let n := length (pages d) in
  let part1 := fun g => pdf_fill.part1_text name (g + 1)%nat n in
  let label := fun k =>
    pdf_fill.draw_label FONT_NAME stringWidth (part1 k) (pdf_fill.part2_text k n) in
  let out := Document (Label.stamped_from FONT_NAME stringWidth part1 n 0
                         (map Filled.resized (pages d))) [] in
  length (pages out) = n
  /\ (forall (k : nat) (p q : page),
        pages d !! k = Some p -> pdf_fill.resize_and_position_page p = inl q ->
        width q = fst pdf_fill.A4 /\ height q = snd pdf_fill.A4
        /\ pages out !! k
           = Some (Page (fst pdf_fill.A4) (snd pdf_fill.A4)
                     (Merged (body q) (body (fst (label k)))) true))
  /\ (forall e, e ∈ Label.warnings_from FONT_NAME stringWidth part1 n 0
                      (map Filled.resized (pages d)) ->
                exists k, (k < n)%nat /\ e ∈ snd (label k)).
Proof.
  intros n part1 label out. cbn [out outline pages].
  split; [by rewrite stamped_from_length', length_map|]. split.
  - intros k p q Hk Hq. rewrite stamped_from_lookup', list_lookup_fmap, Hk.
    cbn [fmap option_fmap option_map Nat.add].
    unfold Label.stamped, Filled.resized. rewrite Hq.
    unfold pdf_fill.resize_and_position_page in Hq.
    destruct (pdf_fill.placement _ _) as [[[scale nh] off]|]; [|done].
    destruct (add_transformation _ _ _ _ _) as [t|]; [|done].
    injection Hq as <-. done.
  - assert (forall (ps : list page) k0 e,
              e ∈ Label.warnings_from FONT_NAME stringWidth part1 n k0 ps ->
              exists k, (k0 <= k < k0 + length ps)%nat /\ e ∈ snd (label k)) as Hw.
    { induction ps as [|p ps IH]; intros k0 e He; [by apply elem_of_nil in He|].
      cbn [Label.warnings_from] in He. apply elem_of_app in He as [He|He].
      - exists k0. split; [simpl; lia | done].
      - destruct (IH (S k0) e He) as (k & Hk & Hek). exists k. split; [simpl; lia|done]. }
    intros e He. destruct (Hw _ 0%nat e He) as (k & Hk & Hek).
    exists k. split; [|done]. rewrite length_map in Hk. unfold n. lia.
Qed.

(** X14.  [process_pdf] of [pdf_fill] with page numbers, on a readable file
    whose pages it can resize: the output has as many pages as the input,
    all of A4 size, page [k] being the resized input page with the label
    "[ name k+1/n ]" and "[ k+1/n ]" drawn over it; the output has no
    outline, whatever outline the input has; the only messages are the
    warnings about labels that do not fit; no other file changes. *)
Theorem fill_process_pdf_output (input_path output_path : string) (w : world)
    (d : document)
    (Hfile : files w !! pdf_fill.to_path input_path = Some (PdfFile d))
    (Hfits : Forall Filled.fits (pages d))
    (Hbase : pdf_fill.base_name_of input_path <> "") :
  let n := length (pages d) in
  let label := fun k =>
    pdf_fill.draw_label FONT_NAME stringWidth
      (pdf_fill.part1_text (pdf_fill.base_name_of input_path) (k + 1)%nat n)
      (pdf_fill.part2_text k n) in
  exists (out : document) (log : list event),
    pdf_fill.process_pdf FONT_NAME stringWidth input_path output_path true w
    = (inl output_path,
       World (<[pdf_fill.to_path output_path := PdfFile out]> (files w)) (dirs w)
             (console w ++ log))
    /\ outline out = []
    /\ length (pages out) = n
    /\ (forall (k : nat) (p q : page),
          pages d !! k = Some p -> pdf_fill.resize_and_position_page p = inl q ->
          width q = fst pdf_fill.A4 /\ height q = snd pdf_fill.A4
          /\ pages out !! k
             = Some (Page (fst pdf_fill.A4) (snd pdf_fill.A4)
                       (Merged (body q) (body (fst (label k)))) true))
    /\ (forall e, e ∈ log -> exists k, (k < n)%nat /\ e ∈ snd (label k)).
Proof.
  intros n label.
  rewrite (process_pdf_numbered input_path output_path w d Hfile Hfits Hbase).
  eexists _, _. split; [reflexivity|]. split; [done|].
  apply (numbered_doc (pdf_fill.base_name_of input_path) d).
Qed.
End FillSingle.

Section FillMergeLabels.
Import Pdf Env.
Variable FONT_NAME : string.
Variable stringWidth : string -> string -> Q -> Q.

Lemma locate_at (pre post : list (string * nat)) (n : string) (c g : nat) :
  (sum_list (map snd pre) <= g < sum_list (map snd pre) + c)%nat ->
  Label.locate (pre ++ (n, c) :: post) g = Some (n, (g - sum_list (map snd pre) + 1)%nat, c).
Proof.
  revert g. induction pre as [|[n0 c0] pre IH]; intros g Hg; simpl in *.
  - assert ((g <? c)%nat = true) as -> by (apply Nat.ltb_lt; lia).
    by rewrite Nat.sub_0_r.
  - assert ((g <? c0)%nat = false) as -> by (apply Nat.ltb_ge; lia).
    rewrite IH by lia. do 3 f_equal. lia.
Qed.

(** The [while] loop moves the cursor to the file that holds page [g]. *)
Lemma advance_finds (g : nat) (post pre : list (string * nat)) (n : string) (c : nat) :
  (sum_list (map snd pre) <= g)%nat ->
  (g < sum_list (map snd (pre ++ (n, c) :: post)))%nat ->
  exists pre' n' c' post',
    pre ++ (n, c) :: post = pre' ++ (n', c') :: post'
    /\ (sum_list (map snd pre') <= g < sum_list (map snd pre') + c')%nat
    /\ pdf_fill.advance g post (Some n) c (sum_list (map snd pre))
       = (pdf_fill.Cursor post' (Some n') c' (sum_list (map snd pre')), []).
Proof.
  revert pre n c. induction post as [|[n2 c2] post IH]; intros pre n c Hle Hlt.
  - exists pre, n, c, []. rewrite map_app, sum_list_with_app in Hlt. simpl in Hlt.
    split; [done|]. split; [lia|]. simpl.
    assert ((sum_list (map snd pre) + c <=? g)%nat = false) as -> by (apply Nat.leb_gt; lia).
    done.
  - simpl. destruct (sum_list (map snd pre) + c <=? g)%nat eqn:E.
    + apply Nat.leb_le in E.
      destruct (IH (pre ++ [(n, c)]) n2 c2) as (pre' & n' & c' & post' & Hmd & Hg & Hadv).
      { rewrite map_app, sum_list_with_app. simpl. lia. }
      { by rewrite <- app_assoc. }
      exists pre', n', c', post'. rewrite <- app_assoc in Hmd. split; [done|].
      split; [done|]. rewrite map_app, sum_list_with_app in Hadv. simpl in Hadv.
      by rewrite Nat.add_0_r in Hadv.
    + apply Nat.leb_gt in E. exists pre, n, c, ((n2, c2) :: post).
      split; [done|]. split; [lia|done].
Qed.

(** The numbering loop of merge mode: while the metadata covers the pages,
    every page gets the label of the file that holds it. *)
Lemma number_loop_merge (md : list (string * nat)) (total : nat) (rest : list page) :
  Forall (fun nc => fst nc <> "") md ->
  Forall (fun p => parses p = true) rest ->
  forall (k : nat) (pages_before : list page) (o : list onode) (w : world)
         (pre post : list (string * nat)) (n : string) (c : nat),
    md = pre ++ (n, c) :: post ->
    (sum_list (map snd pre) <= k)%nat -> k = length pages_before ->
    (k + length rest <= sum_list (map snd md))%nat ->
    exists cur',
      for_each (seq k (length rest))
        (pdf_fill.number_page FONT_NAME stringWidth true total)
        (pdf_fill.Cursor post (Some n) c (sum_list (map snd pre)),
         Writer (pages_before ++ rest) o) w
      = (inl (cur', Writer (pages_before
                            ++ Label.stamped_from FONT_NAME stringWidth
                                 (Label.merge_part1 md) total k rest) o),
         World (files w) (dirs w)
           (console w ++ Label.warnings_from FONT_NAME stringWidth
                           (Label.merge_part1 md) total k rest)).
Proof.
  intros Hnames Hparse.
  induction Hparse as [|p rest Hp _ IH];
    intros k pages_before o w pre post n c Hmd Hle Hk Hcover.
  - eexists. simpl. run. rewrite !app_nil_r. by destruct w.
  - cbn [length seq]. cbn [length] in Hcover.
    destruct (advance_finds k post pre n c) as (pre' & n' & c' & post' & Hmd' & Hg & Hadv);
      [done | rewrite <- Hmd; lia |].
    assert (Label.merge_part1 md k
            = pdf_fill.part1_text n' (k - sum_list (map snd pre') + 1)%nat c') as Hpart1.
    { unfold Label.merge_part1. by rewrite Hmd, Hmd', locate_at. }
    assert (n' <> "") as Hn'.
    { rewrite Forall_forall in Hnames. apply (Hnames (n', c')).
      rewrite Hmd, Hmd'. apply elem_of_app. right. by left. }
    erewrite for_each_cons_ok; cycle 1.
    { apply (number_page_named FONT_NAME stringWidth true total k _ _ w p n');
        cbn [pdf_fill.file_info_iter pdf_fill.current_file_name
             pdf_fill.current_file_total_pages
             pdf_fill.current_original_file_global_start_idx];
        rewrite ?Hadv; cbn [fst pdf_fill.current_file_name pdf_fill.current_file_total_pages];
        [done | done | lia | | done].
      cbn [wpages]. by rewrite lookup_app_r, Hk, Nat.sub_diag by lia. }
    cbn [pdf_fill.file_info_iter pdf_fill.current_file_name
         pdf_fill.current_file_total_pages
         pdf_fill.current_original_file_global_start_idx].
    rewrite Hadv.
    cbn [fst snd app pdf_fill.current_file_total_pages
         pdf_fill.current_original_file_global_start_idx].
    rewrite <- Hpart1.
    replace (<[k := _]> (pages_before ++ p :: rest))
      with ((pages_before
             ++ [Label.stamped FONT_NAME stringWidth (Label.merge_part1 md) total k p])
            ++ rest).
    2:{ rewrite insert_app_r_alt, Hk, Nat.sub_diag by lia. by rewrite <- app_assoc. }
    destruct (IH (S k) (pages_before
                        ++ [Label.stamped FONT_NAME stringWidth (Label.merge_part1 md)
                              total k p])
                o (World (files w) (dirs w)
                     (console w ++ snd (pdf_fill.draw_label FONT_NAME stringWidth
                                          (Label.merge_part1 md k)
                                          (pdf_fill.part2_text k total))))
                pre' post' n' c') as [cur' Hrest];
      [by rewrite Hmd, Hmd' | lia | rewrite length_app; simpl; lia | lia |].
    exists cur'. cbn [woutline]. rewrite Hrest.
    cbn [files dirs console Label.stamped_from Label.warnings_from].
    by rewrite <- !app_assoc.
Qed.

Lemma add_page_numbers_merge_labels (wr : writer) (md : list (string * nat))
    (total : nat) (single_file_name : string) (w : world) :
  md <> [] ->
  Forall (fun nc => fst nc <> "") md ->
  total = sum_list (map snd md) -> length (wpages wr) = total ->
  Forall (fun p => parses p = true) (wpages wr) ->
  pdf_fill.add_page_numbers FONT_NAME stringWidth wr total md single_file_name w
  = (inl (Writer (Label.stamped_from FONT_NAME stringWidth (Label.merge_part1 md) total 0
                    (wpages wr)) (woutline wr)),
     World (files w) (dirs w)
       (console w ++ Label.warnings_from FONT_NAME stringWidth (Label.merge_part1 md)
                       total 0 (wpages wr))).
Proof.
  intros Hne Hnames Htotal Hlen Hparse. unfold pdf_fill.add_page_numbers.
  destruct md as [|[n0 c0] rest0] eqn:Emd; [done|]. rewrite <- Emd in *.
  destruct (number_loop_merge md total (wpages wr) Hnames Hparse 0 [] (woutline wr) w
              [] rest0 n0 c0) as [cur' Hloop]; [done | simpl; lia | done | lia |].
  cbn [app sum_list_with map] in Hloop. rewrite Hlen in Hloop.
  destruct wr as [ps o]. cbn [wpages woutline] in *.
  erewrite bind_ok by exact Hloop. by run.
Qed.

Lemma draw_label_log (part1 part2 : string) (e : event) :
  e ∈ snd (pdf_fill.draw_label FONT_NAME stringWidth part1 part2) ->
  e = WarnLabelTooLong pdf_fill.min_font_size_part1 part1.
Proof.
  unfold pdf_fill.draw_label. destruct (String.eqb part1 ""); cbn [snd].
  - by intros H%elem_of_nil.
  - destruct (_ && _); [by intros ->%list_elem_of_singleton | by intros H%elem_of_nil].
Qed.

Lemma warnings_from_labels (part1 : nat -> string) (total k : nat) (ps : list page)
    (e : event) :
  e ∈ Label.warnings_from FONT_NAME stringWidth part1 total k ps ->
  exists g, (k <= g < k + length ps)%nat
            /\ e = WarnLabelTooLong pdf_fill.min_font_size_part1 (part1 g).
Proof.
  revert k. induction ps as [|p ps IH]; intros k He; [by apply elem_of_nil in He|].
  cbn [Label.warnings_from] in He. apply elem_of_app in He as [He|He].
  - exists k. split; [simpl; lia | by apply draw_label_log in He].
  - destruct (IH (S k) He) as (g & Hg & ->). exists g. split; [simpl; lia | done].
Qed.

(** X16.  The labels of merge mode.  When the metadata lists the files with
    non-empty names and its page counts add up to the pages of the writer,
    [add_page_numbers] labels page [j] of the file named [name] with
    "[ name j+1/c ]" and with its position in the whole document, prints
    nothing but warnings about labels that do not fit, and changes neither
    the outline nor the size of any page. *)
Theorem fill_merge_labels (wr : writer) (md : list (string * nat)) (total : nat)
    (single_file_name : string) (w : world)
    (Hne : md <> [])
    (Hnames : Forall (fun nc => fst nc <> "") md)
    (Htotal : total = sum_list (map snd md))
    (Hlen : length (wpages wr) = total)
    (Hparse : Forall (fun p => parses p = true) (wpages wr)) :
  exists (wr' : writer) (log : list event),
    pdf_fill.add_page_numbers FONT_NAME stringWidth wr total md single_file_name w
    = (inl wr', World (files w) (dirs w) (console w ++ log))
    /\ woutline wr' = woutline wr
    /\ length (wpages wr') = total
    /\ (forall (pre post : list (string * nat)) (name : string) (c j : nat) (p : page),
          md = pre ++ (name, c) :: post -> (j < c)%nat ->
          let g := (sum_list (map snd pre) + j)%nat in
          wpages wr !! g = Some p ->
          wpages wr' !! g
          = Some (Page (width p) (height p)
                    (Merged (body p)
                       (body (fst (pdf_fill.draw_label FONT_NAME stringWidth
                                     (pdf_fill.part1_text name (j + 1)%nat c)
                                     (pdf_fill.part2_text g total)))))
                    true))
    /\ (forall e, e ∈ log ->
          exists text, e = WarnLabelTooLong pdf_fill.min_font_size_part1 text).
Proof.
  rewrite (add_page_numbers_merge_labels wr md total single_file_name w) by done.
  eexists _, _. split; [reflexivity|]. cbn [woutline wpages]. split_and!.
  - done.
  - by rewrite stamped_from_length'.
  - intros pre post name c j p Hmd Hj Hp.
    rewrite stamped_from_lookup', Hp. cbn [fmap option_fmap option_map Nat.add].
    unfold Label.stamped, Label.merge_part1.
    rewrite Hmd, locate_at by lia.
    by replace (sum_list (map snd pre) + j - sum_list (map snd pre) + 1)%nat
      with (j + 1)%nat by lia.
  - intros e He. apply warnings_from_labels in He as (g & _ & ->). by eexists.
Qed.
End FillMergeLabels.

Section FillMergePages.
Import Pdf Env.
Variable FONT_NAME : string.
Variable stringWidth : string -> string -> Q -> Q.





End FillMergePages.

Section FillFailure.
Import Pdf Env.
Variable FONT_NAME : string.
Variable stringWidth : string -> string -> Q -> Q.

Lemma resize_unfit (p : page) :
  ~ Filled.fits p ->
  pdf_fill.resize_and_position_page p
  = inr (if Qeq_bool (width p) 0 then ZeroDivisionError else ContentStreamError).
Proof.
  intros Hnot. unfold pdf_fill.resize_and_position_page, pdf_fill.placement.
  destruct pdf_fill.A4 as [a4_width a4_height].
  destruct (Qeq_bool (width p) 0) eqn:Ew; [done|].
  unfold add_transformation. destruct (parses p) eqn:Ep; [|done].
  destruct Hnot. by split.
Qed.

Lemma resize_loop_unfit (before after : list page) (p : page) (wr : writer) (w : world) :
  Forall Filled.fits before -> ~ Filled.fits p ->
  for_each (before ++ p :: after)
    (fun p wr => modified_page ← lift (pdf_fill.resize_and_position_page p);
                 mret (add_page wr modified_page)) wr w
  = (inr (if Qeq_bool (width p) 0 then ZeroDivisionError else ContentStreamError), w).
Proof.
  intros Hfits Hnot. revert wr. induction Hfits as [|q before Hq _ IH]; intros wr.
  - cbn [app]. erewrite for_each_cons_err; [done|]. run. by rewrite resize_unfit.
  - cbn [app]. erewrite for_each_cons_ok; [apply IH|].
    run. destruct (resize_fits q Hq) as [-> _]. done.
Qed.


(** X15.  [process_pdf] of [pdf_fill] fails as a whole: when the input does
    not exist or cannot be parsed, or when one of its pages has width 0
    (ZeroDivisionError) or a content stream that cannot be parsed, the
    exception leaves the function, nothing is printed and no output file is
    written, not even for the pages before the failing one. *)
Theorem fill_process_pdf_fails_whole (input_path output_path : string)
    (add_nums : bool) (w : world) :
  (files w !! pdf_fill.to_path input_path = None ->
   pdf_fill.process_pdf FONT_NAME stringWidth input_path output_path add_nums w
   = (inr FileNotFoundError, w))
  /\ (files w !! pdf_fill.to_path input_path = Some Garbage ->
      pdf_fill.process_pdf FONT_NAME stringWidth input_path output_path add_nums w
      = (inr PdfReadError, w))
  /\ (forall (d : document) (before after : list page) (p : page),
        files w !! pdf_fill.to_path input_path = Some (PdfFile d) ->
        pages d = before ++ p :: after ->
        Forall Filled.fits before -> ~ Filled.fits p ->
        pdf_fill.process_pdf FONT_NAME stringWidth input_path output_path add_nums w
        = (inr (if Qeq_bool (width p) 0 then ZeroDivisionError else ContentStreamError),
           w)).
Proof.
  unfold pdf_fill.process_pdf. split_and!.
  - intros Hf. erewrite bind_err; [done|]. unfold PdfReader. by rewrite Hf.
  - intros Hf. erewrite bind_err; [done|]. unfold PdfReader. by rewrite Hf.
  - intros d before after p Hf Hpages Hfits Hnot.
    erewrite bind_ok by (by apply PdfReader_ok).
    erewrite bind_err; [done|]. rewrite Hpages. by apply resize_loop_unfit.
Qed.



End FillFailure.

(** ** Paths *)

Section PathFacts.
#[local] Arguments String.append !_ _ / : simpl nomatch.

Lemma rfind_from_spec (c : ascii) (s : string) (i : nat) (acc : option nat) :
  Names.rfind_from c s i acc
  = match Names.rfind c s with Some k => Some (i + k)%nat | None => acc end.
Proof.
  unfold Names.rfind. revert i acc. induction s as [|d r IH]; intros i acc; [done|].
  cbn [Names.rfind_from]. rewrite (IH (S i)), (IH 1%nat).
  destruct (Names.rfind_from c r 0 None) as [k|].
  - f_equal. lia.
  - destruct (Ascii.eqb d c); [f_equal; lia | done].
Qed.

Lemma rfind_cons (c d : ascii) (r : string) :
  Names.rfind c (String d r)
  = match Names.rfind c r with
    | Some k => Some (S k)
    | None => if Ascii.eqb d c then Some 0%nat else None
    end.
Proof.
  unfold Names.rfind at 1. cbn [Names.rfind_from]. rewrite rfind_from_spec.
  by destruct (Names.rfind c r).
Qed.

Lemma rfind_app (c : ascii) (a b : string) :
  Names.rfind c (a +:+ b)
  = match Names.rfind c b with
    | Some k => Some (String.length a + k)%nat
    | None => Names.rfind c a
    end.
Proof.
  induction a as [|d a IH].
  - simpl. by destruct (Names.rfind c b).
  - change (String d a +:+ b) with (String d (a +:+ b)).
    rewrite !rfind_cons, IH. destruct (Names.rfind c b); [done|].
    by destruct (Names.rfind c a).
Qed.

Lemma rfind_split (c : ascii) (s : string) (i : nat) :
  Names.rfind c s = Some i ->
  exists a b, s = a +:+ String c b /\ String.length a = i /\ Names.rfind c b = None.
Proof.
  revert i. induction s as [|d r IH]; intros i; [done|]. rewrite rfind_cons.
  destruct (Names.rfind c r) as [k|] eqn:Er.
  - intros [= <-]. destruct (IH k eq_refl) as (a & b & -> & <- & Hb).
    by exists (String d a), b.
  - destruct (Ascii.eqb d c) eqn:Ed; [|done]. intros [= <-].
    apply Ascii.eqb_eq in Ed as ->. by exists "", r.
Qed.

Lemma substring_whole (s : string) : substring 0 (String.length s) s = s.
Proof. induction s as [|c s IH]; [done|]. cbn. by rewrite IH. Qed.

Lemma substring_skip (a s : string) (n : nat) :
  substring (String.length a) n (a +:+ s) = substring 0 n s.
Proof. induction a as [|c a IH]; [done|]. cbn. apply IH. Qed.

Lemma substring_prefix (a s : string) :
  substring 0 (String.length a) (a +:+ s) = a.
Proof.
  induction a as [|c a IH]; cbn.
  - by destruct s.
  - by rewrite IH.
Qed.

Lemma string_length_app (a b : string) :
  String.length (a +:+ b) = (String.length a + String.length b)%nat.
Proof. induction a as [|c a IH]; [done|]. cbn. by rewrite IH. Qed.

Lemma app_assoc_str (a b c : string) : (a +:+ b) +:+ c = a +:+ (b +:+ c).
Proof. induction a as [|d a IH]; [done|]. cbn. by rewrite IH. Qed.

Lemma substring_after (c : ascii) (a b : string) :
  substring (S (String.length a))
            (String.length (a +:+ String c b) - S (String.length a))
            (a +:+ String c b) = b.
Proof.
  rewrite string_length_app. cbn [String.length].
  replace (String.length a + S (String.length b) - S (String.length a))%nat
    with (String.length b) by lia.
  induction a as [|d a IH]; simpl; [apply substring_whole | apply IH].
Qed.

(** The name after the last slash. *)
Lemma basename_app (a b : string) :
  Names.rfind "/" b = None ->
  Names.basename (a +:+ String "/" b) = b.
Proof.
  intros Hb. unfold Names.basename.
  rewrite rfind_app, rfind_cons, Hb. cbn [Ascii.eqb Bool.eqb].
  rewrite Nat.add_0_r. apply substring_after.
Qed.

Lemma basename_no_slash (p : string) : Names.rfind "/" (Names.basename p) = None.
Proof.
  unfold Names.basename. destruct (Names.rfind "/" p) as [i|] eqn:E; [|done].
  destruct (rfind_split _ _ _ E) as (a & b & -> & <- & Hb).
  by rewrite substring_after.
Qed.

Lemma rfind_substring_none (c : ascii) (s : string) (n : nat) :
  Names.rfind c s = None -> Names.rfind c (substring 0 n s) = None.
Proof.
  revert n. induction s as [|d r IH]; intros n; [by destruct n|].
  rewrite rfind_cons. destruct (Names.rfind c r) eqn:Er; [done|].
  destruct (Ascii.eqb d c) eqn:Ed; [done|]. intros _.
  destruct n as [|n]; [done|]. cbn [substring]. by rewrite rfind_cons, IH, Ed.
Qed.

Lemma base_name_no_slash (p : string) :
  Names.rfind "/" (pdf_fill.base_name_of p) = None.
Proof.
  unfold pdf_fill.base_name_of, Names.splitext_root.
  pose proof (basename_no_slash p) as Hb.
  destruct (Names.rfind "." (Names.basename p)) as [i|]; [|done].
  destruct (Names.all_char _ _); [done|]. by apply rfind_substring_none.
Qed.

(** A suffix that fits into the second part is looked for there. *)
Lemma ends_with_app (sfx a b : string) :
  (String.length sfx <= String.length b)%nat ->
  Names.ends_with sfx (a +:+ b) = Names.ends_with sfx b.
Proof.
  intros Hle. unfold Names.ends_with. rewrite string_length_app.
  assert (forall n k, substring (String.length a + n) k (a +:+ b) = substring n k b) as Hsub.
  { clear. induction a as [|c a IH]; intros n k; [done|]. cbn. apply IH. }
  replace (String.length a + String.length b - String.length sfx)%nat
    with (String.length a + (String.length b - String.length sfx))%nat by lia.
  rewrite Hsub.
  assert ((String.length sfx <=? String.length a + String.length b)%nat = true) as ->
    by (apply Nat.leb_le; lia).
  assert ((String.length sfx <=? String.length b)%nat = true) as ->
    by (by apply Nat.leb_le).
  done.
Qed.

Lemma substring_split (t : string) (n : nat) :
  (n <= String.length t)%nat ->
  t = substring 0 n t +:+ substring n (String.length t - n) t.
Proof.
  revert n. induction t as [|c t IH]; intros n Hn.
  - by destruct n.
  - destruct n as [|n]; simpl.
    + by rewrite substring_whole.
    + rewrite <- IH; [done | simpl in Hn; lia].
Qed.

Lemma ends_with_split (sfx s : string) :
  Names.ends_with sfx s = true -> exists a, s = a +:+ sfx.
Proof.
  unfold Names.ends_with. intros H. apply andb_true_iff in H as [Hle Heq].
  apply Nat.leb_le in Hle. apply String.eqb_eq in Heq.
  exists (substring 0 (String.length s - String.length sfx) s).
  pose proof (substring_split s (String.length s - String.length sfx)) as Hs.
  replace (String.length s - (String.length s - String.length sfx))%nat
    with (String.length sfx) in Hs by lia.
  rewrite Heq in Hs. apply Hs. lia.
Qed.

Lemma splitext_root_empty (name : string) : Names.splitext_root name = "" -> name = "".
Proof.
  unfold Names.splitext_root. destruct (Names.rfind "." name) as [i|]; [|done].
  destruct (Names.all_char "." (substring 0 i name)) eqn:E; [done|].
  intros H. by rewrite H in E.
Qed.

Lemma basename_suffix (a t : string) :
  Names.rfind "/" t = None -> exists b, Names.basename (a +:+ t) = b +:+ t.
Proof.
  intros Ht. unfold Names.basename at 1. rewrite rfind_app, Ht.
  destruct (Names.rfind "/" a) as [i|] eqn:E; [|by exists a].
  destruct (rfind_split _ _ _ E) as (x & y & -> & <- & Hy).
  exists y. rewrite app_assoc_str.
  change (String "/" y +:+ t) with (String "/" (y +:+ t)).
  apply substring_after.
Qed.

(** A path that ends in [.pdf] has a base name. *)
Lemma pdf_base_name (p : string) :
  Names.ends_with ".pdf" p = true -> pdf_fill.base_name_of p <> "".
Proof.
  intros H. destruct (ends_with_split _ _ H) as [a ->].
  destruct (basename_suffix a ".pdf" eq_refl) as [b Hb].
  unfold pdf_fill.base_name_of. rewrite Hb. intros E.
  apply splitext_root_empty in E. by destruct b.
Qed.

(** The default output file of a single input. *)
Lemma default_output_path (name : string) :
  Names.rfind "/" name = None ->
  pdf_fill.to_path ("./output/" +:+ name) = ("./output", name).
Proof.
  intros Hn. unfold pdf_fill.to_path. f_equal.
  - unfold Names.dirname.
    change ("./output/" +:+ name) with ("./output" +:+ String "/" name).
    rewrite rfind_app, rfind_cons, Hn. cbn [Ascii.eqb Bool.eqb String.length Nat.add].
    cbn. by destruct name.
  - change ("./output/" +:+ name) with ("./output" +:+ String "/" name).
    by apply basename_app.
Qed.

Lemma default_output_dir (name : string) :
  Names.rfind "/" name = None ->
  Names.dirname ("./output/" +:+ name) = "./output".
Proof. intros Hn. by injection (default_output_path name Hn). Qed.

End PathFacts.

(** ** The command line of [pdf_fill] *)

Section FillMain.
Import Pdf Env.
Variable FONT_NAME : string.
Variable stringWidth : string -> string -> Q -> Q.

Lemma processed_name_no_slash (f : string) :
  Names.rfind "/" (pdf_fill.processed_name f) = None.
Proof.
  unfold pdf_fill.processed_name. by rewrite rfind_app, base_name_no_slash.
Qed.

Lemma processed_name_ends (sfx f : string) :
  (String.length sfx <= 14)%nat ->
  Names.ends_with sfx ("./output/" +:+ pdf_fill.processed_name f)
  = Names.ends_with sfx "_processed.pdf".
Proof.
  intros Hle. unfold pdf_fill.processed_name.
  rewrite <- app_assoc_str. by apply ends_with_app.
Qed.

(** The output directory is made when it is not there. *)
Lemma when_mkdir (dir : string) (w : world) (found : list event) :
  when (negb (bool_decide (dir ∈ dirs w)))
    (mkdir dir ≫= λ _ : (), print (InfoCreatedDir dir))
    (World (files w) (dirs w) (console w ++ found))
  = (inl tt,
     World (files w) ({[dir]} ∪ dirs w)
       (console w ++ found
        ++ (if bool_decide (dir ∈ dirs w) then [] else [InfoCreatedDir dir]))).
Proof.
  destruct (bool_decide (dir ∈ dirs w)) eqn:Ed; run; cbn [files dirs console negb].
  - apply bool_decide_eq_true_1 in Ed. rewrite app_nil_r.
    do 2 f_equal. apply leibniz_equiv. set_solver.
  - by rewrite <- app_assoc.
Qed.

(** [main] without [-o] and without [--no-merge], once it has found exactly
    one input file. *)
Lemma main_single_run (args : pdf_fill.arguments) (f : string) (w : world)
    (d : document) (found : list event) :
  pdf_fill.output args = None -> pdf_fill.no_merge args = false ->
  pdf_fill.find_input_files args w
  = (inl (Some [f]), World (files w) (dirs w) (console w ++ found)) ->
  files w !! pdf_fill.to_path f = Some (PdfFile d) ->
  Forall Filled.fits (pages d) ->
  pdf_fill.base_name_of f <> "" ->
  files w !! pdf_fill.to_path "./output" = None ->
  let n := length (pages d) in
  let part1 := fun g => pdf_fill.part1_text (pdf_fill.base_name_of f) (g + 1)%nat n in
  pdf_fill.main FONT_NAME stringWidth args w
  = (inl tt,
     World (<[("./output", pdf_fill.processed_name f)
              := PdfFile (Document
                            (Label.stamped_from FONT_NAME stringWidth part1 n 0
                               (map Filled.resized (pages d))) [])]> (files w))
           ({["./output"]} ∪ dirs w)
           (console w ++ found
            ++ (if bool_decide ("./output" ∈ dirs w) then []
                else [InfoCreatedDir "./output"])
            ++ [InfoWorking (Names.basename f)]
            ++ Label.warnings_from FONT_NAME stringWidth part1 n 0
                 (map Filled.resized (pages d))
            ++ [InfoWritten (pdf_fill.processed_name f)])).
Proof.
  intros Ho Hnm Hfound Hfile Hfits Hbase Hout n part1.
  unfold pdf_fill.main. erewrite bind_ok by exact Hfound.
  rewrite Ho, Hnm. cbn [length Nat.eqb andb negb orb head default from_option id].
  rewrite (processed_name_ends ".pdf"), (processed_name_ends "/") by (simpl; lia).
  rewrite default_output_dir by apply processed_name_no_slash.
  change (Names.ends_with ".pdf" "_processed.pdf") with true.
  change (Names.ends_with "/" "_processed.pdf") with false. cbv iota.
  erewrite bind_ok; cycle 1.
  { unfold pdf_fill.path_exists.
    change (Names.rstrip_slash "./output") with "./output".
    run. cbn [files dirs console]. rewrite Hout. reflexivity. }
  assert (bool_decide (is_Some (@None file)) = false) as ->
    by (apply bool_decide_eq_false_2; by intros [? ?]).
  rewrite orb_false_r.
  change (Names.rstrip_slash "./output") with "./output".
  change (String.eqb "./output" "") with false.
  cbn [negb andb].
  erewrite bind_ok; cycle 1.
  { apply (when_mkdir "./output" _ found). }
  cbn [for_each]. run. cbn [files dirs console].
  rewrite (process_pdf_numbered FONT_NAME stringWidth f _ (World (files w) _ _) d
             Hfile Hfits Hbase).
  cbn [files dirs console].
  pose proof (default_output_path _ (processed_name_no_slash f)) as Hp.
  rewrite Hp. unfold pdf_fill.to_path in Hp.
  assert (Names.basename ("./output/" +:+ pdf_fill.processed_name f)
          = pdf_fill.processed_name f) as -> by congruence.
  f_equal. f_equal. rewrite <- !app_assoc. reflexivity.
Qed.

(** X19.  [main] of [pdf_fill] checks its input before it does anything: a
    path that is neither a directory nor an existing file is reported as
    missing, whatever its extension, and an existing file whose name does not
    end in [.pdf] is reported as not being a PDF.  In both cases [main]
    returns without creating the output directory or any file. *)
Theorem fill_main_rejects_bad_input (args : pdf_fill.arguments) (w : world)
    (Hnodir : Names.rstrip_slash (pdf_fill.input args) ∉ dirs w) :
  (files w !! pdf_fill.to_path (pdf_fill.input args) = None ->
   pdf_fill.main FONT_NAME stringWidth args w
   = (inl tt, World (files w) (dirs w)
                (console w ++ [ErrInputMissing (pdf_fill.to_path (pdf_fill.input args))])))
  /\ (is_Some (files w !! pdf_fill.to_path (pdf_fill.input args)) ->
      Names.ends_with ".pdf" (pdf_fill.input args) = false ->
      pdf_fill.main FONT_NAME stringWidth args w
      = (inl tt, World (files w) (dirs w) (console w ++ [ErrNotPdf]))).
Proof.
  unfold pdf_fill.main, pdf_fill.find_input_files. split.
  - intros Hnone. run. rewrite bool_decide_eq_false_2 by done.
    rewrite Hnone. rewrite (bool_decide_eq_false_2 (is_Some None)) by (by intros [? ?]).
    done.
  - intros Hsome Hext. run. rewrite bool_decide_eq_false_2 by done.
    rewrite bool_decide_eq_true_2 by done. cbn [negb]. by rewrite Hext.
Qed.

(** X20.  [main] of [pdf_fill] on one PDF file, without [-o]: the numbered
    document goes to [./output/<base>_processed.pdf], page [k] being the
    resized input page with its label; [./output] is made when it does not
    exist; nothing else is written, and the run reports the file, the new
    directory if any, and the output name. *)
Theorem fill_main_single_file (input_path : string) (w : world) (d : document)
    (Hnodir : Names.rstrip_slash input_path ∉ dirs w)
    (Hfile : files w !! pdf_fill.to_path input_path = Some (PdfFile d))
    (Hpdf : Names.ends_with ".pdf" input_path = true)
    (Hfits : Forall Filled.fits (pages d))
    (Hout : files w !! pdf_fill.to_path "./output" = None) :
  let n := length (pages d) in
  let name := pdf_fill.base_name_of input_path in
  let label := fun k =>
    pdf_fill.draw_label FONT_NAME stringWidth
      (pdf_fill.part1_text name (k + 1)%nat n) (pdf_fill.part2_text k n) in
  exists (out : document) (warnings : list event),
    pdf_fill.main FONT_NAME stringWidth (pdf_fill.Arguments input_path None false) w
    = (inl tt,
       World (<[("./output", name +:+ "_processed.pdf") := PdfFile out]> (files w))
             ({["./output"]} ∪ dirs w)
             (console w
              ++ [InfoSingleFile (pdf_fill.to_path input_path)]
              ++ (if bool_decide ("./output" ∈ dirs w) then []
                  else [InfoCreatedDir "./output"])
              ++ [InfoWorking (Names.basename input_path)]
              ++ warnings
              ++ [InfoWritten (name +:+ "_processed.pdf")]))
    /\ outline out = []
    /\ length (pages out) = n
    /\ (forall (k : nat) (p q : page),
          pages d !! k = Some p -> pdf_fill.resize_and_position_page p = inl q ->
          pages out !! k
          = Some (Page (fst pdf_fill.A4) (snd pdf_fill.A4)
                    (Merged (body q) (body (fst (label k)))) true))
    /\ (forall e, e ∈ warnings -> exists k, (k < n)%nat /\ e ∈ snd (label k)).
Proof.
  intros n name label.
  assert (pdf_fill.find_input_files (pdf_fill.Arguments input_path None false) w
          = (inl (Some [input_path]),
             World (files w) (dirs w)
               (console w ++ [InfoSingleFile (pdf_fill.to_path input_path)]))) as Hfound.
  { unfold pdf_fill.find_input_files. cbn [pdf_fill.input]. run.
    rewrite bool_decide_eq_false_2 by exact Hnodir. rewrite Hfile.
    rewrite bool_decide_eq_true_2 by (by eexists). cbn [negb]. by rewrite Hpdf. }
  rewrite (main_single_run (pdf_fill.Arguments input_path None false) input_path w d
             [InfoSingleFile (pdf_fill.to_path input_path)] eq_refl eq_refl
             Hfound Hfile Hfits (pdf_base_name _ Hpdf) Hout).
  eexists _, _. split; [reflexivity|]. split; [reflexivity|].
  destruct (numbered_doc FONT_NAME stringWidth name d) as (Hlen & Hpage & Hwarn).
  split; [exact Hlen|]. split; [|exact Hwarn].
  intros k p q Hk Hq. by destruct (Hpage k p q Hk Hq) as (_ & _ & ?).
Qed.

(** X21.  A directory that holds exactly one PDF is not merged: without
    [-o], [main] of [pdf_fill] treats the file like a single input, writes
    [./output/<base>_processed.pdf] with the single-file labels and no
    outline entry, and no [_merged.pdf] file. *)
Theorem fill_main_directory_with_one_pdf (dir pdf_name : string) (w : world)
    (d : document)
    (Hdir : Names.rstrip_slash dir ∈ dirs w)
    (Hone : filter (fun n => Names.ends_with ".pdf" n = true
                             /\ Names.starts_with "." n = false)
              (listdir (Names.rstrip_slash dir) w) = [pdf_name])
    (Hfile : files w !! pdf_fill.to_path (Names.join dir pdf_name) = Some (PdfFile d))
    (Hfits : Forall Filled.fits (pages d))
    (Hout : files w !! pdf_fill.to_path "./output" = None) :
  let n := length (pages d) in
  let name := pdf_fill.base_name_of (Names.join dir pdf_name) in
  let label := fun k =>
    pdf_fill.draw_label FONT_NAME stringWidth
      (pdf_fill.part1_text name (k + 1)%nat n) (pdf_fill.part2_text k n) in
  exists (out : document) (log : list event),
    pdf_fill.main FONT_NAME stringWidth (pdf_fill.Arguments dir None false) w
    = (inl tt,
       World (<[("./output", name +:+ "_processed.pdf") := PdfFile out]> (files w))
             ({["./output"]} ∪ dirs w)
             (console w ++ [InfoFoundFiles 1] ++ log
              ++ [InfoWritten (name +:+ "_processed.pdf")]))
    /\ outline out = []
    /\ length (pages out) = n
    /\ (forall (k : nat) (p q : page),
          pages d !! k = Some p -> pdf_fill.resize_and_position_page p = inl q ->
          pages out !! k
          = Some (Page (fst pdf_fill.A4) (snd pdf_fill.A4)
                    (Merged (body q) (body (fst (label k)))) true)).
Proof.
  intros n name label.
  assert (Names.ends_with ".pdf" pdf_name = true) as Hpdf.
  { assert (pdf_name ∈ filter (fun n => Names.ends_with ".pdf" n = true
                                        /\ Names.starts_with "." n = false)
                         (listdir (Names.rstrip_slash dir) w)) as Hin
      by (rewrite Hone; by left).
    by apply list_elem_of_filter in Hin as [[? _] _]. }
  assert (Names.ends_with ".pdf" (Names.join dir pdf_name) = true) as Hjoin.
  { apply andb_true_iff in Hpdf as Hlen. destruct Hlen as [Hlen%Nat.leb_le _].
    unfold Names.join. destruct (String.eqb dir ""); [done|].
    destruct (Names.ends_with "/" dir).
    - by rewrite ends_with_app.
    - rewrite <- app_assoc_str. by rewrite ends_with_app. }
  assert (pdf_fill.find_input_files (pdf_fill.Arguments dir None false) w
          = (inl (Some [Names.join dir pdf_name]),
             World (files w) (dirs w) (console w ++ [InfoFoundFiles 1]))) as Hfound.
  { unfold pdf_fill.find_input_files, pdf_fill.sorted_glob. cbn [pdf_fill.input]. run.
    rewrite bool_decide_eq_true_2 by exact Hdir. rewrite Hone.
    change (Names.sorted (map (Names.join dir) [pdf_name]))
      with [Names.join dir pdf_name]. reflexivity. }
  rewrite (main_single_run (pdf_fill.Arguments dir None false)
             (Names.join dir pdf_name) w d [InfoFoundFiles 1] eq_refl eq_refl
             Hfound Hfile Hfits (pdf_base_name _ Hjoin) Hout).
  eexists _, ((if bool_decide ("./output" ∈ dirs w) then []
               else [InfoCreatedDir "./output"])
              ++ [InfoWorking (Names.basename (Names.join dir pdf_name))]
              ++ Label.warnings_from FONT_NAME stringWidth
                   (fun g => pdf_fill.part1_text name (g + 1)%nat n) n 0
                   (map Filled.resized (pages d))).
  split.
  - f_equal. f_equal. by rewrite <- !app_assoc.
  - split; [reflexivity|].
    destruct (numbered_doc FONT_NAME stringWidth name d) as (Hlen & Hpage & _).
    split; [exact Hlen|].
    intros k p q Hk Hq. by destruct (Hpage k p q Hk Hq) as (_ & _ & ?).
Qed.
End FillMain.

(** ** [pdf_fill] without merging *)

Section FillSeparate.
Import Pdf Env.
Variable FONT_NAME : string.
Variable stringWidth : string -> string -> Q -> Q.











End FillSeparate.

Section FillMainMerge.
Import Pdf Env.
Variable FONT_NAME : string.
Variable stringWidth : string -> string -> Q -> Q.



End FillMainMerge.

(** ** Examples for [pdf_fill] *)

Lemma fill_process_pdf_output_witness :
  exists (out : Pdf.document) (log : list Env.event),
    pdf_fill.process_pdf "Helvetica" Demo.demo_width "./PDFS/10-report.pdf"
      "./output/numbered.pdf" true Demo.reports
    = (inl "./output/numbered.pdf",
       Env.World (<[pdf_fill.to_path "./output/numbered.pdf" := Env.PdfFile out]>
                    (Env.files Demo.reports))
         (Env.dirs Demo.reports) (Env.console Demo.reports ++ log))
    /\ Pdf.outline out = [] /\ length (Pdf.pages out) = 2%nat.
Proof.
  assert (Env.files Demo.reports !! pdf_fill.to_path "./PDFS/10-report.pdf"
          = Some (Env.PdfFile Demo.doc1)) as Hfile by (vm_compute; reflexivity).
  assert (Forall Filled.fits (Pdf.pages Demo.doc1)) as Hfits
    by (repeat constructor).
  assert (pdf_fill.base_name_of "./PDFS/10-report.pdf" <> "") as Hbase
    by (vm_compute; discriminate).
  destruct (fill_process_pdf_output "Helvetica" Demo.demo_width "./PDFS/10-report.pdf"
              "./output/numbered.pdf" Demo.reports Demo.doc1 Hfile Hfits Hbase)
    as (out & log & Hrun & Houtline & Hlen & _).
  exists out, log. split; [exact Hrun | split; [exact Houtline | exact Hlen]].
Defined.

Lemma fill_process_pdf_fails_whole_witness :
  pdf_fill.process_pdf "Helvetica" Demo.demo_width "./PDFS/missing.pdf"
    "./output/out.pdf" true Demo.reports
  = (inr Pdf.FileNotFoundError, Demo.reports)
  /\ pdf_fill.process_pdf "Helvetica" Demo.demo_width "./PDFS/3-c.pdf"
       "./output/out.pdf" true
       (Env.World {[ ("./PDFS", "3-c.pdf") := Env.PdfFile (Pdf.Document
                                                 [Demo.pg 1; Demo.bad_pg 4; Demo.pg 2] []) ]}
                  {[ "./PDFS" ]} [])
     = (inr Pdf.ContentStreamError,
        Env.World {[ ("./PDFS", "3-c.pdf") := Env.PdfFile (Pdf.Document
                                                [Demo.pg 1; Demo.bad_pg 4; Demo.pg 2] []) ]}
                  {[ "./PDFS" ]} []).
Proof.
  split.
  - apply (proj1 (fill_process_pdf_fails_whole "Helvetica" Demo.demo_width
                    "./PDFS/missing.pdf" "./output/out.pdf" true Demo.reports)).
    vm_compute. reflexivity.
  - apply (proj2 (proj2 (fill_process_pdf_fails_whole "Helvetica" Demo.demo_width
                           "./PDFS/3-c.pdf" "./output/out.pdf" true _))
             (Pdf.Document [Demo.pg 1; Demo.bad_pg 4; Demo.pg 2] [])
             [Demo.pg 1] [Demo.pg 2] (Demo.bad_pg 4)).
    + vm_compute. reflexivity.
    + reflexivity.
    + repeat constructor.
    + intros [_ Hparse]. discriminate Hparse.
Defined.

Lemma fill_merge_labels_witness :
  exists (wr' : Pdf.writer) (log : list Env.event),
    pdf_fill.add_page_numbers "Helvetica" Demo.demo_width
      (Pdf.Writer [Demo.pg 1; Demo.pg 2; Demo.pg 3] []) 3 [("a", 2%nat); ("b", 1%nat)] ""
      Demo.reports
    = (inl wr', Env.World (Env.files Demo.reports) (Env.dirs Demo.reports)
                  (Env.console Demo.reports ++ log))
    /\ length (Pdf.wpages wr') = 3%nat.
Proof.
  destruct (fill_merge_labels "Helvetica" Demo.demo_width
              (Pdf.Writer [Demo.pg 1; Demo.pg 2; Demo.pg 3] []) [("a", 2%nat); ("b", 1%nat)]
              3 "" Demo.reports)
    as (wr' & log & Hrun & _ & Hlen & _).
  - discriminate.
  - repeat constructor; discriminate.
  - reflexivity.
  - reflexivity.
  - repeat constructor.
  - exists wr', log. split; [exact Hrun | exact Hlen].
Defined.



Lemma fill_main_rejects_bad_input_witness :
  pdf_fill.main "Helvetica" Demo.demo_width
    (pdf_fill.Arguments "./PDFS/missing.pdf" None false) Demo.reports
  = (inl tt, Env.World (Env.files Demo.reports) (Env.dirs Demo.reports)
               (Env.console Demo.reports
                ++ [Env.ErrInputMissing (pdf_fill.to_path "./PDFS/missing.pdf")]))
  /\ pdf_fill.main "Helvetica" Demo.demo_width
       (pdf_fill.Arguments "./PDFS/notes.txt" None false)
       (Env.World {[ ("./PDFS", "notes.txt") := Env.Garbage ]} {[ "./PDFS" ]} [])
     = (inl tt, Env.World {[ ("./PDFS", "notes.txt") := Env.Garbage ]} {[ "./PDFS" ]}
                  [Env.ErrNotPdf]).
Proof.
  split.
  - apply (proj1 (fill_main_rejects_bad_input "Helvetica" Demo.demo_width
                    (pdf_fill.Arguments "./PDFS/missing.pdf" None false) Demo.reports
                    ltac:(refine (bool_decide_unpack _ _); vm_compute; exact I))).
    vm_compute. reflexivity.
  - apply (proj2 (fill_main_rejects_bad_input "Helvetica" Demo.demo_width
                    (pdf_fill.Arguments "./PDFS/notes.txt" None false)
                    (Env.World {[ ("./PDFS", "notes.txt") := Env.Garbage ]} {[ "./PDFS" ]} [])
                    ltac:(refine (bool_decide_unpack _ _); vm_compute; exact I))).
    + exists Env.Garbage. vm_compute. reflexivity.
    + reflexivity.
Defined.

Lemma fill_main_single_file_witness :
  exists (out : Pdf.document) (log : list Env.event),
    pdf_fill.main "Helvetica" Demo.demo_width
      (pdf_fill.Arguments "./PDFS/10-report.pdf" None false) Demo.reports
    = (inl tt,
       Env.World (<[("./output", "10-report_processed.pdf") := Env.PdfFile out]>
                    (Env.files Demo.reports))
         ({["./output"]} ∪ Env.dirs Demo.reports) log)
    /\ Pdf.outline out = [] /\ length (Pdf.pages out) = 2%nat.
Proof.
  assert (Names.rstrip_slash "./PDFS/10-report.pdf" ∉ Env.dirs Demo.reports) as Hnodir
    by (refine (bool_decide_unpack _ _); vm_compute; exact I).
  assert (Env.files Demo.reports !! pdf_fill.to_path "./PDFS/10-report.pdf"
          = Some (Env.PdfFile Demo.doc1)) as Hfile by (vm_compute; reflexivity).
  assert (Forall Filled.fits (Pdf.pages Demo.doc1)) as Hfits by (repeat constructor).
  assert (Env.files Demo.reports !! pdf_fill.to_path "./output" = None) as Hout
    by (vm_compute; reflexivity).
  destruct (fill_main_single_file "Helvetica" Demo.demo_width "./PDFS/10-report.pdf"
              Demo.reports Demo.doc1 Hnodir Hfile eq_refl Hfits Hout)
    as (out & warnings & Hrun & Houtline & Hlen & _).
  exists out. eexists. split; [exact Hrun | split; [exact Houtline | exact Hlen]].
Defined.

Lemma fill_main_directory_with_one_pdf_witness :
  exists (out : Pdf.document) (log : list Env.event),
    pdf_fill.main "Helvetica" Demo.demo_width (pdf_fill.Arguments "./one/" None false)
      (Env.World (<[ ("./one", "only.pdf") := Env.PdfFile Demo.doc1 ]>
                  {[ ("./one", "notes.txt") := Env.Garbage ]}) {[ "./one" ]} [])
    = (inl tt,
       Env.World (<[("./output", "only_processed.pdf") := Env.PdfFile out]>
                  (<[ ("./one", "only.pdf") := Env.PdfFile Demo.doc1 ]>
                   {[ ("./one", "notes.txt") := Env.Garbage ]}))
         ({["./output"]} ∪ {[ "./one" ]}) log)
    /\ Pdf.outline out = [] /\ length (Pdf.pages out) = 2%nat.
Proof.
  set (w := Env.World (<[ ("./one", "only.pdf") := Env.PdfFile Demo.doc1 ]>
                       {[ ("./one", "notes.txt") := Env.Garbage ]}) {[ "./one" ]} []).
  assert (Names.rstrip_slash "./one/" ∈ Env.dirs w) as Hdir
    by (refine (bool_decide_unpack _ _); vm_compute; exact I).
  assert (filter (fun n => Names.ends_with ".pdf" n = true
                           /\ Names.starts_with "." n = false)
            (Env.listdir (Names.rstrip_slash "./one/") w) = ["only.pdf"]) as Hone
    by (vm_compute; reflexivity).
  assert (Env.files w !! pdf_fill.to_path (Names.join "./one/" "only.pdf")
          = Some (Env.PdfFile Demo.doc1)) as Hfile by (vm_compute; reflexivity).
  assert (Forall Filled.fits (Pdf.pages Demo.doc1)) as Hfits by (repeat constructor).
  assert (Env.files w !! pdf_fill.to_path "./output" = None) as Hout
    by (vm_compute; reflexivity).
  destruct (fill_main_directory_with_one_pdf "Helvetica" Demo.demo_width "./one/"
              "only.pdf" w Demo.doc1 Hdir Hone Hfile Hfits Hout)
    as (out & log & Hrun & Houtline & Hlen & _).
  exists out. eexists. split; [exact Hrun | split; [exact Houtline | exact Hlen]].
Defined.



